(** * ParallelMatchingEngine: the global-stack parallel matching engine

    A shallow embedding of [include/parallel/ParallelMatchingEngine.hpp]:
    the shared frontier ([globalStateStack] with [statesMutex]), the
    expansion step [ProcessState], the worker loop [Run], the pool
    ([StartPool]) and the entry point [FindAllMatchings].

    Shared memory is sequentially consistent here: every access to the
    stack happens under [statesMutex], the two counters are [std::atomic]
    with the default ordering.  One step of a thread is one access to
    shared memory together with the local computation that leads to it. *)

From Stdlib Require Import ZArith Lia.
From stdpp Require Import base option list numbers.

(** ** The state contract (template parameter [VFState]) *)

(** [nodeID_t] and [NULL_NODE] come from [ARGraph.hpp], which is included but
    not part of this header; they are taken as they are used here.  The
    operations are functions of the value of the state: the engine never
    calls one that changes a state other than [AddPair], and it calls
    [AddPair] on a fresh copy only. *)
Class VFState (nodeID_t St MatchingSolution : Type) := {
  NULL_NODE : nodeID_t;
  IsGoal : St -> bool;
  IsDead : St -> bool;
  (* bool NextPair(&n1, &n2, prev_n1, prev_n2): [Some] holds the values
     written through the two pointers when the call returns true. *)
  NextPair : St -> nodeID_t -> nodeID_t -> option (nodeID_t * nodeID_t);
  IsFeasiblePair : St -> nodeID_t -> nodeID_t -> bool;
  (* the copy constructor followed by AddPair on the copy *)
  AddPair : St -> nodeID_t -> nodeID_t -> St;
  GetCoreSet : St -> MatchingSolution
}.

(** ** Machine integers *)

Definition wrap_uint32 (z : Z) : Z := (z mod 2 ^ 32)%Z.
Definition wrap_int16 (z : Z) : Z := ((z + 2 ^ 15) mod 2 ^ 16 - 2 ^ 15)%Z.
Definition to_size_t (z : Z) : Z := (z mod 2 ^ 64)%Z.

(** ** Threads, handles and the observable history *)

(** A handle stands for one [VFState] object: the caller's root object is
    handle [0], every [new VFState] yields the next unused one.  (The address
    of a deleted object may be handed out again by the allocator; a handle
    names the object, not its address.) *)
Definition Handle := nat.
Definition rootHandle : Handle := 0.

Inductive Thread :=
| Caller
| Worker (i : nat).

(** ** The expansion tree of a state

    What [ProcessState] does to a state and, through the frontier, to every
    state that descends from it: a goal, a pruned state, or one entry per
    pair the cursor returns, with the subtree of the child where the pair is
    feasible. *)

#[warnings="-register-all"]
Inductive Tree :=
| TGoal
| TDead
| TNode (kids : list (option Tree)).

Definition sum_kids (f : Tree -> Z) (kids : list (option Tree)) : Z :=
  foldr (fun k acc => (from_option f 0 k + acc)%Z) 0%Z kids.

(** Number of goal states in a tree. *)
Fixpoint goals (t : Tree) : Z :=
  match t with
  | TGoal => 1
  | TDead => 0
  | TNode kids => sum_kids goals kids
  end.

Definition loop_cost (f : Tree -> nat) (kids : list (option Tree)) : nat :=
  foldr (fun k acc => S (from_option (fun t => S (f t)) 0 k + acc)) 1 kids.

(** Number of steps the workers spend on a popped state and on everything
    that descends from it. *)
Fixpoint cost (t : Tree) : nat :=
  match t with
  | TGoal => 5
  | TDead => 3
  | TNode kids => 3 + loop_cost cost kids
  end.

(** ** A small instance of the contract

    Two query nodes are mapped injectively into two target nodes: a state is
    the list of pairs chosen so far, the newest first; the cursor proposes
    the next query node with each target node in turn; a pair is feasible
    when its target node is unused.  Target node 7 marks a pruned state. *)

Module Toy.

Definition null : Z := 4294967295.

Definition next (s : list (Z * Z)) (n1 n2 : Z) : option (Z * Z) :=
  let j := if (n2 =? null)%Z then 0%Z else (n2 + 1)%Z in
  if (j <? 2)%Z then Some (Z.of_nat (length s), j) else None.

Definition unused (s : list (Z * Z)) (n1 n2 : Z) : bool :=
  negb (existsb (fun p => (p.2 =? n2)%Z) s).

#[global] Instance contract : VFState Z (list (Z * Z)) (list (Z * Z)) := {
  NULL_NODE := null;
  IsGoal s := (length s =? 2)%nat;
  IsDead s := existsb (fun p => (p.2 =? 7)%Z) s;
  NextPair := next;
  IsFeasiblePair := unused;
  AddPair s n1 n2 := (n1, n2) :: s;
  GetCoreSet s := rev s
}.

Definition root : list (Z * Z) := [].

(** Workers take turns. *)
Definition round_robin (n : nat) (t : nat) : nat := t mod n.

(** The first [length l] steps follow [l], worker 0 runs afterwards. *)
Definition script (l : list nat) (t : nat) : nat := nth t l 0.

Definition never (s : list (Z * Z)) : bool := false.

End Toy.

(** ** A wide instance of the contract

    A state is the number of levels left below it; every state above level
    zero has two children, the states at level zero are the goals. *)

Module Wide.

Definition null : Z := 4294967295.

Definition next (s : nat) (n1 n2 : Z) : option (Z * Z) :=
  if (n1 =? null)%Z then Some (0, 0)%Z
  else if (n1 =? 0)%Z then Some (1, 1)%Z
  else None.

#[global] Instance contract : VFState Z nat unit := {
  NULL_NODE := null;
  IsGoal s := (s =? 0)%nat;
  IsDead s := false;
  NextPair := next;
  IsFeasiblePair s n1 n2 := true;
  AddPair s n1 n2 := pred s;
  GetCoreSet s := tt
}.

(** The expansion tree of a state with [d] levels below it. *)
Fixpoint full (d : nat) : Tree :=
  match d with
  | O => TGoal
  | S d' => TNode [Some (full d'); Some (full d')]
  end.

Definition root : nat := 32.

Definition only_worker (t : nat) : nat := 0.

End Wide.

Section Engine.

Context {nodeID_t St MatchingSolution : Type}.
Context `{!VFState nodeID_t St MatchingSolution}.

(** What the threads did to the shared members, for the statements about
    order. *)
Inductive Event :=
| EvCount (t : Thread) (h : Handle)                 (* solCount++ *)
| EvStore (t : Thread) (h : Handle)                 (* solutions.push_back *)
| EvVisit (t : Thread) (h : Handle)                 (* the visitor is called *)
| EvPush (t : Thread) (parent child : Handle) (cs : St)   (* PutState *)
| EvPop (t : Thread) (h : Handle)                   (* GetState, non-null *)
| EvReturn (t : Thread) (h : Handle)                (* ProcessState returns *)
| EvDelete (t : Thread) (h : Handle)                (* delete s *)
| EvDec (t : Thread) (h : Handle).                  (* activeWorkerCount-- *)

(** Constructor arguments that never change afterwards.  [numThreads] is the
    member of type [int16_t]; [poolSize] is the size the vector [pool] was
    built with. *)
Record Settings := mkSettings {
  numThreads : Z;
  poolSize : nat;
  storeSolutions : bool;
  cpu : Z;
  visit : option (St -> bool)
}.

(** The constructor.  [n] is the value of the [unsigned short] argument,
    [0 <= n < 2^16]: it initialises the [int16_t] member, which keeps it
    only up to 32767, and, unconverted, the size of [pool]. *)
Definition ParallelMatchingEngine (n : Z) (store : bool) (cpu0 : Z)
    (v : option (St -> bool)) : Settings :=
  mkSettings (wrap_int16 n) (Z.to_nat n) store cpu0 v.

(** The members that change while the engine runs.  [solutions] is a member
    of the base class [MatchingEngine] (from [MatchingEngine.hpp], not part
    of this header), a vector that starts empty.  [nextHandle] and [history]
    are not members: they name the next object to be allocated and record
    what was done to the shared members, the newest event first. *)
Record Shared := mkShared {
  globalStateStack : list (Handle * St);
  activeWorkerCount : Z;
  solCount : Z;
  solutions : list MatchingSolution;
  nextHandle : Handle;
  history : list Event
}.

Definition initShared : Shared := mkShared [] 0 0 [] 1 [].

Definition GetSolutionsCount (e : Shared) : Z := solCount e.

Definition log (ev : Event) (e : Shared) : Shared :=
  mkShared (globalStateStack e) (activeWorkerCount e) (solCount e)
           (solutions e) (nextHandle e) (ev :: history e).

(** ** The shared frontier *)

Definition PutState (x : Handle * St) (e : Shared) : Shared :=
  mkShared (x :: globalStateStack e) (activeWorkerCount e) (solCount e)
           (solutions e) (nextHandle e) (history e).

Definition GetState (e : Shared) : option (Handle * St) * Shared :=
  match globalStateStack e with
  | [] => (None, e)
  | x :: rest =>
      (Some x,
       mkShared rest (wrap_int16 (activeWorkerCount e + 1)) (solCount e)
                (solutions e) (nextHandle e) (history e))
  end.

(** ** ProcessState, one shared access at a time *)

Inductive Frame :=
| PEnter                              (* line 110 *)
| PStore                              (* line 114 *)
| PVisit                              (* line 121 *)
| PLoop (n1 n2 : nodeID_t).           (* line 132, before NextPair *)

Inductive Outcome :=
| Continue (f : Frame)
| Return (b : bool).

Definition incrSolCount (e : Shared) : Shared :=
  mkShared (globalStateStack e) (activeWorkerCount e)
           (wrap_uint32 (solCount e + 1)) (solutions e) (nextHandle e)
           (history e).

Definition appendSolution (sol : MatchingSolution) (e : Shared) : Shared :=
  mkShared (globalStateStack e) (activeWorkerCount e) (solCount e)
           (solutions e ++ [sol]) (nextHandle e) (history e).

(** Lines 136-138: the copy of [s], [AddPair] on the copy, [PutState]. *)
Definition pushChild (t : Thread) (h : Handle) (s : St) (n1 n2 : nodeID_t)
    (e : Shared) : Shared :=
  let h1 := nextHandle e in
  let e1 := PutState (h1, AddPair s n1 n2) e in
  log (EvPush t h h1 (AddPair s n1 n2))
      (mkShared (globalStateStack e1) (activeWorkerCount e1) (solCount e1)
                (solutions e1) (S h1) (history e1)).

Definition frame_step (cfg : Settings) (t : Thread) (h : Handle) (s : St)
    (f : Frame) (e : Shared) : Outcome * Shared :=
  match f with
  | PEnter =>
      if IsGoal s then (Continue PStore, log (EvCount t h) (incrSolCount e))
      else if IsDead s then (Return false, log (EvReturn t h) e)
      else (Continue (PLoop NULL_NODE NULL_NODE), e)
  | PStore =>
      if storeSolutions cfg
      then (Continue PVisit, log (EvStore t h) (appendSolution (GetCoreSet s) e))
      else (Continue PVisit, e)
  | PVisit =>
      match visit cfg with
      | Some v => (Return (v s), log (EvReturn t h) (log (EvVisit t h) e))
      | None => (Return true, log (EvReturn t h) e)
      end
  | PLoop n1 n2 =>
      match NextPair s n1 n2 with
      | Some (m1, m2) =>
          if IsFeasiblePair s m1 m2
          then (Continue (PLoop m1 m2), pushChild t h s m1 m2 e)
          else (Continue (PLoop m1 m2), e)
      | None => (Return false, log (EvReturn t h) e)
      end
  end.

(** The whole call, for a caller that runs it without interruption; [fuel]
    bounds the number of steps. *)
Fixpoint ProcessState_from (fuel : nat) (cfg : Settings) (t : Thread)
    (h : Handle) (s : St) (f : Frame) (e : Shared) : option (bool * Shared) :=
  match fuel with
  | O => None
  | S k =>
      match frame_step cfg t h s f e with
      | (Return b, e') => Some (b, e')
      | (Continue f', e') => ProcessState_from k cfg t h s f' e'
      end
  end.

Definition ProcessState (fuel : nat) (cfg : Settings) (t : Thread)
    (h : Handle) (s : St) (e : Shared) : option (bool * Shared) :=
  ProcessState_from fuel cfg t h s PEnter e.

(** What [ProcessState] returns and leaves behind on a goal state. *)
Definition goal_result (cfg : Settings) (t : Thread) (h : Handle) (s : St)
    (e : Shared) : bool * Shared :=
  let e1 := log (EvCount t h) (incrSolCount e) in
  let e2 := if storeSolutions cfg
            then log (EvStore t h) (appendSolution (GetCoreSet s) e1)
            else e1 in
  match visit cfg with
  | Some v => (v s, log (EvReturn t h) (log (EvVisit t h) e2))
  | None => (true, log (EvReturn t h) e2)
  end.

(** ** The worker loop [Run] *)

(** Where a worker stands in [Run].  [WDelete] and [WDec] keep the value of
    the state they worked on for the statements below; the program itself
    no longer reads it. *)
Inductive WorkerPc :=
| WGet                                         (* line 104 *)
| WTest                                        (* line 105 with s == NULL *)
| WProc (h : Handle) (s : St) (f : Frame)      (* line 100 *)
| WDelete (h : Handle) (s : St)                (* line 101 *)
| WDec (h : Handle) (s : St)                   (* line 102 *)
| WExit.

(** An element of [pool]: a default-constructed [std::thread] or a thread
    that was started on [Run]. *)
Inductive Slot :=
| NoThread
| Running (pc : WorkerPc).

Record Config := mkConfig {
  shared : Shared;
  pool : list Slot
}.

Definition decrActive (e : Shared) : Shared :=
  mkShared (globalStateStack e) (wrap_int16 (activeWorkerCount e - 1))
           (solCount e) (solutions e) (nextHandle e) (history e).

(** One step of worker [i] standing at [pc].  A successful [GetState] makes
    the loop test true without reading the counter, so the worker is at
    line 100 right after it. *)
Definition run_step (cfg : Settings) (i : nat) (pc : WorkerPc) (e : Shared)
    : WorkerPc * Shared :=
  match pc with
  | WGet =>
      match GetState e with
      | (Some (h, s), e') => (WProc h s PEnter, log (EvPop (Worker i) h) e')
      | (None, e') => (WTest, e')
      end
  | WTest =>
      if (0 <? activeWorkerCount e)%Z then (WGet, e) else (WExit, e)
  | WProc h s f =>
      match frame_step cfg (Worker i) h s f e with
      | (Continue f', e') => (WProc h s f', e')
      | (Return _, e') => (WDelete h s, e')
      end
  | WDelete h s => (WDec h s, log (EvDelete (Worker i) h) e)
  | WDec h s => (WGet, log (EvDec (Worker i) h) (decrActive e))
  | WExit => (WExit, e)
  end.

Definition worker_step (cfg : Settings) (i : nat) (c : Config) : Config :=
  match pool c !! i with
  | Some (Running pc) =>
      let '(pc', e') := run_step cfg i pc (shared c) in
      mkConfig e' (<[i := Running pc']> (pool c))
  | _ => c
  end.

(** [exec cfg sched k c]: the threads named by [sched 0], ..., [sched (k-1)]
    take one step each, in this order. *)
Fixpoint exec (cfg : Settings) (sched : nat -> nat) (k : nat) (c : Config)
    : Config :=
  match k with
  | O => c
  | S k' => worker_step cfg (sched k') (exec cfg sched k' c)
  end.

(** ** The pool and the entry point *)

(** The loop of [StartPool] from index [i] on, [slots] being [pool] from
    that index.  [bound] is [numThreads] converted to [size_t] for the
    comparison; [None]: [pool[i]] is read past the end of the vector.
    Setting the affinity changes nothing that is modelled. *)
Fixpoint StartPool_from (bound i : Z) (slots : list Slot)
    : option (list Slot) :=
  if (i <? bound)%Z then
    match slots with
    | [] => None
    | _ :: rest =>
        option_map (cons (Running WGet)) (StartPool_from bound (i + 1) rest)
    end
  else Some slots.

Definition StartPool (cfg : Settings) : option (list Slot) :=
  StartPool_from (to_size_t (numThreads cfg)) 0
                 (replicate (poolSize cfg) NoThread).

Definition finished (sl : Slot) : bool :=
  match sl with
  | NoThread | Running WExit => true
  | Running _ => false
  end.

(** [FindAllMatchings]: the root on the calling thread, the pool, the joins.
    [None] when the root's expansion does not end within [fuel], when
    [StartPool] leaves the vector, or when some thread has not left [Run]
    after [steps] steps of [sched].  A thread that [StartPool] has created
    and that has not run yet stands at the first [GetState], like a thread
    that is created later: the schedules cover the runs in which the first
    workers run while the last ones are still being created. *)
Definition FindAllMatchings (cfg : Settings) (fuel : nat)
    (sched : nat -> nat) (steps : nat) (root : St) (e : Shared)
    : option (bool * Config) :=
  match ProcessState fuel cfg Caller rootHandle root e with
  | None => None
  | Some (_, e1) =>
      match StartPool cfg with
      | None => None
      | Some p =>
          let c := exec cfg sched steps (mkConfig e1 p) in
          if forallb finished (pool c) then Some (true, c) else None
      end
  end.


(** ** The expansion of a state *)

(** The cursor from the pair [(n1, n2)] on; [g] bounds the number of calls of
    [NextPair], [rec] gives the subtree of a child. *)
Fixpoint scan (rec : St -> option Tree) (g : nat) (s : St)
    (n1 n2 : nodeID_t) : option (list (option Tree)) :=
  match g with
  | O => None
  | S g' =>
      match NextPair s n1 n2 with
      | None => Some []
      | Some (m1, m2) =>
          if IsFeasiblePair s m1 m2 then
            match rec (AddPair s m1 m2), scan rec g' s m1 m2 with
            | Some t, Some r => Some (Some t :: r)
            | _, _ => None
            end
          else option_map (cons None) (scan rec g' s m1 m2)
      end
  end.

(** [expand f s = Some t]: the expansion tree of [s] is the finite tree [t],
    of depth and cursor lengths below [f]. *)
Fixpoint expand (f : nat) (s : St) : option Tree :=
  match f with
  | O => None
  | S f' =>
      if IsGoal s then Some TGoal
      else if IsDead s then Some TDead
      else option_map TNode (scan (expand f') f' s NULL_NODE NULL_NODE)
  end.

Definition FiniteExpansion (s : St) : Prop := exists f t, expand f s = Some t.

(** The pairs the cursor returns from [(n1, n2)] on, in its order. *)
Fixpoint pairs_from (g : nat) (s : St) (n1 n2 : nodeID_t)
    : option (list (nodeID_t * nodeID_t)) :=
  match g with
  | O => None
  | S g' =>
      match NextPair s n1 n2 with
      | None => Some []
      | Some (m1, m2) => option_map (cons (m1, m2)) (pairs_from g' s m1 m2)
      end
  end.

(** The children of [s]: one per feasible pair of [ps], in the same order. *)
Fixpoint children (s : St) (ps : list (nodeID_t * nodeID_t)) : list St :=
  match ps with
  | [] => []
  | (m1, m2) :: r =>
      if IsFeasiblePair s m1 m2 then AddPair s m1 m2 :: children s r
      else children s r
  end.

(** What the loop of [ProcessState] does to the shared members when the
    cursor returns the pairs [ps]. *)
Fixpoint pushChildren (t : Thread) (h : Handle) (s : St)
    (ps : list (nodeID_t * nodeID_t)) (e : Shared) : Shared :=
  match ps with
  | [] => e
  | (m1, m2) :: r =>
      pushChildren t h s r
        (if IsFeasiblePair s m1 m2 then pushChild t h s m1 m2 e else e)
  end.

(** The entries of the frontier for the states [cs], allocated one after the
    other from handle [h0] on. *)
Definition with_handles (h0 : Handle) (cs : list St) : list (Handle * St) :=
  zip (seq h0 (length cs)) cs.

Definition sumZ_with {A : Type} (f : A -> Z) (l : list A) : Z :=
  foldr (fun x acc => (f x + acc)%Z) 0%Z l.

(** ** Accounting over a configuration

    [F] is a bound under which the root's expansion tree is finite; under
    the invariants below every state of a configuration has its tree within
    the same bound. *)

Section Accounting.

Variable F : nat.

Definition tree_of (s : St) : Tree := default TDead (expand F s).

Definition rest_of (s : St) (n1 n2 : nodeID_t) : list (option Tree) :=
  default [] (scan (expand F) F s n1 n2).

(** Goal states still to be counted. *)
Definition frame_goals (s : St) (f : Frame) : Z :=
  match f with
  | PEnter => goals (tree_of s)
  | PLoop n1 n2 => sum_kids goals (rest_of s n1 n2)
  | PStore | PVisit => 0
  end.

Definition slot_goals (sl : Slot) : Z :=
  match sl with
  | Running (WProc _ s f) => frame_goals s f
  | _ => 0
  end.

Definition stack_goals (st : list (Handle * St)) : Z :=
  sumZ_with (fun x => goals (tree_of x.2)) st.

Definition pending (c : Config) : Z :=
  (stack_goals (globalStateStack (shared c)) + sumZ_with slot_goals (pool c))%Z.

(** Goal states whose solution is still to be appended to the log. *)
Definition slot_logs (sl : Slot) : Z :=
  match sl with
  | Running (WProc _ s PStore) => 1
  | Running (WProc _ s f) => frame_goals s f
  | _ => 0
  end.

Definition pending_logs (c : Config) : Z :=
  (stack_goals (globalStateStack (shared c)) + sumZ_with slot_logs (pool c))%Z.

(** Steps still to be taken, leaving aside the steps of a worker that finds
    the frontier empty. *)
Definition frame_cost (s : St) (f : Frame) : nat :=
  match f with
  | PEnter => cost (tree_of s)
  | PStore => 4
  | PVisit => 3
  | PLoop n1 n2 => loop_cost cost (rest_of s n1 n2) + 2
  end.

Definition slot_cost (sl : Slot) : nat :=
  match sl with
  | Running (WProc _ s f) => frame_cost s f
  | Running (WDelete _ _) => 2
  | Running (WDec _ _) => 1
  | _ => 0
  end.

Definition stack_cost (st : list (Handle * St)) : nat :=
  sum_list_with (fun x => S (cost (tree_of x.2))) st.

Definition weight (c : Config) : nat :=
  stack_cost (globalStateStack (shared c)) + sum_list_with slot_cost (pool c).

(** Steps a worker takes to leave [Run] once nothing is left to do. *)
Definition slot_linger (sl : Slot) : nat :=
  match sl with
  | Running WGet => 2
  | Running WTest => 1
  | _ => 0
  end.

Definition linger (c : Config) : nat := sum_list_with slot_linger (pool c).

Definition handle_of (pc : WorkerPc) : option Handle :=
  match pc with
  | WProc h _ _ | WDelete h _ | WDec h _ => Some h
  | WGet | WTest | WExit => None
  end.

Definition slot_handle (sl : Slot) : option Handle :=
  match sl with
  | Running pc => handle_of pc
  | NoThread => None
  end.

(** 1 for a worker between a successful [GetState] and its decrement. *)
Definition credit (sl : Slot) : Z :=
  match slot_handle sl with
  | Some _ => 1
  | None => 0
  end.

Definition slot_defined (sl : Slot) : Prop :=
  match sl with
  | Running (WProc _ s PEnter) => is_Some (expand F s)
  | Running (WProc _ s (PLoop n1 n2)) => is_Some (scan (expand F) F s n1 n2)
  | _ => True
  end.

(** A worker that will call [GetState] again before it leaves [Run]. *)
Definition slot_busy (sl : Slot) : Prop :=
  match sl with
  | Running WGet | Running (WProc _ _ _)
  | Running (WDelete _ _) | Running (WDec _ _) => True
  | _ => False
  end.

Record Counting (cfg : Settings) (G : Z) (c : Config) : Prop := {
  cnt_pool : (Z.of_nat (length (pool c)) < 2 ^ 15)%Z;
  cnt_active : activeWorkerCount (shared c) = sumZ_with credit (pool c);
  cnt_range : (0 <= solCount (shared c) < 2 ^ 32)%Z;
  cnt_goals :
    ((solCount (shared c) + pending c) mod 2 ^ 32 = G mod 2 ^ 32)%Z;
  cnt_log :
    storeSolutions cfg = true ->
    (Z.of_nat (length (solutions (shared c))) + pending_logs c = G)%Z;
  cnt_stack :
    Forall (fun x => is_Some (expand F x.2)) (globalStateStack (shared c));
  cnt_pcs : Forall slot_defined (pool c);
  cnt_alive :
    globalStateStack (shared c) <> [] ->
    exists j sl, pool c !! j = Some sl /\ slot_busy sl
}.

(** ** Handles and the history *)

(** The handles that [GetState] returned, the newest first. *)
Definition pops (hist : list Event) : list Handle :=
  omap (fun ev => match ev with EvPop _ h => Some h | _ => None end) hist.

(** The states pushed while [ProcessState] ran on handle [h], the newest
    first. *)
Definition pushed (h : Handle) (hist : list Event) : list St :=
  omap (fun ev => match ev with
                  | EvPush _ p _ cs => if decide (p = h) then Some cs else None
                  | _ => None
                  end) hist.

(** The cursor of [s], started from the null pair, returns the pairs [seen]
    and stands at [(n1, n2)] after them. *)
Definition cursor_reaches (s : St) (seen : list (nodeID_t * nodeID_t))
    (n1 n2 : nodeID_t) : Prop :=
  forall g ps,
    pairs_from g s n1 n2 = Some ps ->
    pairs_from (length seen + g) s NULL_NODE NULL_NODE = Some (seen ++ ps).

(** [ProcessState] on handle [h] has returned and every child of [s] was
    pushed during the call. *)
Definition returned (h : Handle) (s : St) (hist : list Event) : Prop :=
  (exists t, EvReturn t h ∈ hist) /\
  if IsGoal s || IsDead s then pushed h hist = []
  else exists g ps,
         pairs_from g s NULL_NODE NULL_NODE = Some ps /\
         pushed h hist = rev (children s ps).

Definition pc_progress (i : nat) (hist : list Event) (pc : WorkerPc) : Prop :=
  match pc with
  | WProc h s PEnter => pushed h hist = []
  | WProc h s PStore | WProc h s PVisit =>
      IsGoal s = true /\ pushed h hist = []
  | WProc h s (PLoop n1 n2) =>
      IsGoal s = false /\ IsDead s = false /\
      exists seen,
        cursor_reaches s seen n1 n2 /\ pushed h hist = rev (children s seen)
  | WDelete h s => returned h s hist
  | WDec h s => returned h s hist /\ EvDelete (Worker i) h ∈ hist
  | WGet | WTest | WExit => True
  end.

Record Handles (c : Config) : Prop := {
  hd_nodup : NoDup (globalStateStack (shared c)).*1;
  hd_stack :
    forall h, h ∈ (globalStateStack (shared c)).*1 ->
      (0 < h < nextHandle (shared c)) /\
      (h ∉ pops (history (shared c))) /\
      pushed h (history (shared c)) = [];
  hd_held :
    forall i pc h,
      pool c !! i = Some (Running pc) -> handle_of pc = Some h ->
      (0 < h < nextHandle (shared c)) /\
      h ∉ (globalStateStack (shared c)).*1;
  hd_apart :
    forall i j pci pcj h,
      pool c !! i = Some (Running pci) -> pool c !! j = Some (Running pcj) ->
      handle_of pci = Some h -> handle_of pcj = Some h -> i = j;
  hd_pops : NoDup (pops (history (shared c)));
  hd_popped :
    forall h, h ∈ pops (history (shared c)) -> h < nextHandle (shared c);
  hd_parents :
    forall t p ch cs,
      EvPush t p ch cs ∈ history (shared c) -> p < nextHandle (shared c)
}.

(** Every worker's place in [Run] agrees with what the history records for
    the state it holds. *)
Definition Progress (c : Config) : Prop :=
  forall i pc,
    pool c !! i = Some (Running pc) -> pc_progress i (history (shared c)) pc.

(** A step that neither pops nor pushes. *)
Definition quiet (hist hist' : list Event) : Prop :=
  pops hist' = pops hist /\
  (forall h, pushed h hist' = pushed h hist) /\
  (forall ev, ev ∈ hist -> ev ∈ hist') /\
  (forall t p ch cs, EvPush t p ch cs ∈ hist' -> EvPush t p ch cs ∈ hist).

(** The cases of [run_step], one per branch of the code. *)
Inductive Step (cfg : Settings) (i : nat) (e : Shared)
    : WorkerPc -> WorkerPc -> Shared -> Prop :=
| step_get_empty :
    globalStateStack e = [] ->
    Step cfg i e WGet WTest e
| step_get_state h s rest :
    globalStateStack e = (h, s) :: rest ->
    Step cfg i e WGet (WProc h s PEnter)
         (log (EvPop (Worker i) h)
              (mkShared rest (wrap_int16 (activeWorkerCount e + 1))
                        (solCount e) (solutions e) (nextHandle e) (history e)))
| step_test_again :
    (0 < activeWorkerCount e)%Z ->
    Step cfg i e WTest WGet e
| step_test_exit :
    (activeWorkerCount e <= 0)%Z ->
    Step cfg i e WTest WExit e
| step_goal h s :
    IsGoal s = true ->
    Step cfg i e (WProc h s PEnter) (WProc h s PStore)
         (log (EvCount (Worker i) h) (incrSolCount e))
| step_dead h s :
    IsGoal s = false -> IsDead s = true ->
    Step cfg i e (WProc h s PEnter) (WDelete h s)
         (log (EvReturn (Worker i) h) e)
| step_loop h s :
    IsGoal s = false -> IsDead s = false ->
    Step cfg i e (WProc h s PEnter) (WProc h s (PLoop NULL_NODE NULL_NODE)) e
| step_store h s :
    storeSolutions cfg = true ->
    Step cfg i e (WProc h s PStore) (WProc h s PVisit)
         (log (EvStore (Worker i) h) (appendSolution (GetCoreSet s) e))
| step_no_store h s :
    storeSolutions cfg = false ->
    Step cfg i e (WProc h s PStore) (WProc h s PVisit) e
| step_visit h s v :
    visit cfg = Some v ->
    Step cfg i e (WProc h s PVisit) (WDelete h s)
         (log (EvReturn (Worker i) h) (log (EvVisit (Worker i) h) e))
| step_no_visit h s :
    visit cfg = None ->
    Step cfg i e (WProc h s PVisit) (WDelete h s)
         (log (EvReturn (Worker i) h) e)
| step_child h s n1 n2 m1 m2 :
    NextPair s n1 n2 = Some (m1, m2) -> IsFeasiblePair s m1 m2 = true ->
    Step cfg i e (WProc h s (PLoop n1 n2)) (WProc h s (PLoop m1 m2))
         (pushChild (Worker i) h s m1 m2 e)
| step_skip h s n1 n2 m1 m2 :
    NextPair s n1 n2 = Some (m1, m2) -> IsFeasiblePair s m1 m2 = false ->
    Step cfg i e (WProc h s (PLoop n1 n2)) (WProc h s (PLoop m1 m2)) e
| step_exhausted h s n1 n2 :
    NextPair s n1 n2 = None ->
    Step cfg i e (WProc h s (PLoop n1 n2)) (WDelete h s)
         (log (EvReturn (Worker i) h) e)
| step_delete h s :
    Step cfg i e (WDelete h s) (WDec h s) (log (EvDelete (Worker i) h) e)
| step_dec h s :
    Step cfg i e (WDec h s) WGet (log (EvDec (Worker i) h) (decrActive e))
| step_exit :
    Step cfg i e WExit WExit e.

(** Worker [i] is about to do a step that counts as work. *)
Definition working (i : nat) (c : Config) : Prop :=
  exists pc, pool c !! i = Some (Running pc) /\
    (is_Some (handle_of pc) \/
     (pc = WGet /\ globalStateStack (shared c) <> [])).

(** Worker [i] has not left [Run] and holds no state. *)
Definition leaving (i : nat) (c : Config) : Prop :=
  exists pc, pool c !! i = Some (Running pc) /\ (pc = WGet \/ pc = WTest).

(** The counter equals the number of workers that hold a state. *)
Definition Credits (c : Config) : Prop :=
  (Z.of_nat (length (pool c)) < 2 ^ 15)%Z /\
  activeWorkerCount (shared c) = sumZ_with credit (pool c).

Definition is_running (sl : Slot) : Prop :=
  match sl with Running _ => True | NoThread => False end.

(** The configurations of a run of the pool: [c0] is what [StartPool]
    leaves, every later one is reached by steps of the workers. *)
Definition reachable (cfg : Settings) (c0 c : Config) : Prop :=
  exists sched k, c = exec cfg sched k c0.

(** Every worker is scheduled again and again. *)
Definition fair (n : nat) (sched : nat -> nat) : Prop :=
  forall i t, i < n -> exists t', t <= t' /\ sched t' = i.

(** ** The expansion tree: bounds can only grow *)

Lemma scan_mono (rec rec' : St -> option Tree) g g' s n1 n2 l :
  (forall x t, rec x = Some t -> rec' x = Some t) ->
  g <= g' ->
  scan rec g s n1 n2 = Some l -> scan rec' g' s n1 n2 = Some l.
Proof.
  intros Hrec. revert g' n1 n2 l.
  induction g as [|g IH]; intros g' n1 n2 l Hle Hs; [discriminate|].
  destruct g' as [|g']; [lia|]. simpl in *.
  destruct (NextPair s n1 n2) as [[m1 m2]|]; [|done].
  destruct (IsFeasiblePair s m1 m2).
  - destruct (rec (AddPair s m1 m2)) as [t|] eqn:Ht; [|done].
    destruct (scan rec g s m1 m2) as [r|] eqn:Hr; [|done].
    rewrite (Hrec _ _ Ht), (IH g' m1 m2 r); [done|lia|done].
  - destruct (scan rec g s m1 m2) as [r|] eqn:Hr; [|done].
    rewrite (IH g' m1 m2 r); [done|lia|done].
Qed.

Lemma expand_mono f f' s t :
  f <= f' -> expand f s = Some t -> expand f' s = Some t.
Proof.
  revert f' s t. induction f as [|f IH]; intros f' s t Hle He; [discriminate|].
  destruct f' as [|f']; [lia|]. simpl in *.
  destruct (IsGoal s); [done|]. destruct (IsDead s); [done|].
  destruct (scan (expand f) f s NULL_NODE NULL_NODE) as [l|] eqn:Hl; [|done].
  rewrite (scan_mono (expand f) (expand f') f f' s _ _ l); [done| |lia|done].
  intros x u Hx. apply (IH f'); [lia|done].
Qed.

Lemma expand_goal s : IsGoal s = true -> is_Some (expand F s) ->
  expand F s = Some TGoal.
Proof.
  intros Hg [t Ht]. destruct F as [|f]; [discriminate|].
  simpl in *. by rewrite Hg.
Qed.

Lemma expand_dead s : IsGoal s = false -> IsDead s = true ->
  is_Some (expand F s) -> expand F s = Some TDead.
Proof.
  intros Hg Hd [t Ht]. destruct F as [|f]; [discriminate|].
  simpl in *. by rewrite Hg, Hd.
Qed.

Lemma expand_node s :
  IsGoal s = false -> IsDead s = false -> is_Some (expand F s) ->
  exists kids,
    scan (expand F) F s NULL_NODE NULL_NODE = Some kids /\
    expand F s = Some (TNode kids).
Proof.
  intros Hg Hd [t Ht]. destruct F as [|f] eqn:HF; [discriminate|].
  simpl in Ht. rewrite Hg, Hd in Ht.
  destruct (scan (expand f) f s NULL_NODE NULL_NODE) as [l|] eqn:Hl; [|done].
  exists l. split.
  - apply (scan_mono (expand f) _ f); [|lia|done].
    intros x u Hx. apply (expand_mono f); [lia|done].
  - simpl. by rewrite Hg, Hd, Hl.
Qed.

Lemma scan_next s n1 n2 m1 m2 kids :
  scan (expand F) F s n1 n2 = Some kids ->
  NextPair s n1 n2 = Some (m1, m2) ->
  exists r,
    scan (expand F) F s m1 m2 = Some r /\
    if IsFeasiblePair s m1 m2
    then exists t, expand F (AddPair s m1 m2) = Some t /\ kids = Some t :: r
    else kids = None :: r.
Proof.
  intros Hs Hn. destruct F as [|f] eqn:HF; [discriminate|].
  cbn [scan] in Hs. rewrite Hn in Hs.
  destruct (IsFeasiblePair s m1 m2).
  - destruct (expand (S f) (AddPair s m1 m2)) as [t|] eqn:Ht; [|done].
    destruct (scan (expand (S f)) f s m1 m2) as [r|] eqn:Hr; [|done].
    exists r. split.
    + apply (scan_mono (expand (S f)) _ f); [done|lia|done].
    + exists t. split; [done|congruence].
  - destruct (scan (expand (S f)) f s m1 m2) as [r|] eqn:Hr; [|done].
    exists r. split.
    + apply (scan_mono (expand (S f)) _ f); [done|lia|done].
    + simpl in Hs. congruence.
Qed.

Lemma scan_end s n1 n2 kids :
  scan (expand F) F s n1 n2 = Some kids ->
  NextPair s n1 n2 = None -> kids = [].
Proof.
  intros Hs Hn. destruct F as [|f]; [discriminate|].
  cbn [scan] in Hs. rewrite Hn in Hs. congruence.
Qed.

(** ** One step of a worker, by cases *)

Lemma run_step_cases cfg i pc e :
  Step cfg i e pc (run_step cfg i pc e).1 (run_step cfg i pc e).2.
Proof.
  destruct pc as [| |h s f|h s|h s|]; simpl.
  - unfold GetState. destruct (globalStateStack e) as [|[h s] rest] eqn:Hst.
    + by constructor.
    + by constructor.
  - destruct (0 <? activeWorkerCount e)%Z eqn:Hc.
    + constructor. by apply Z.ltb_lt.
    + constructor. by apply Z.ltb_ge.
  - destruct f as [| | |n1 n2]; simpl.
    + destruct (IsGoal s) eqn:Hg; [by constructor|].
      destruct (IsDead s) eqn:Hd; by constructor.
    + destruct (storeSolutions cfg) eqn:Hs; by constructor.
    + destruct (visit cfg) as [v|] eqn:Hv; [by econstructor|by constructor].
    + destruct (NextPair s n1 n2) as [[m1 m2]|] eqn:Hn; [|by constructor].
      destruct (IsFeasiblePair s m1 m2) eqn:Hf; by constructor.
  - constructor.
  - constructor.
  - constructor.
Qed.

Lemma worker_step_cases cfg i c :
  ((forall pc, pool c !! i <> Some (Running pc)) /\ worker_step cfg i c = c) \/
  exists pc pc' e',
    pool c !! i = Some (Running pc) /\
    Step cfg i (shared c) pc pc' e' /\
    worker_step cfg i c = mkConfig e' (<[i := Running pc']> (pool c)).
Proof.
  unfold worker_step.
  destruct (pool c !! i) as [[|pc]|] eqn:Hi; [by left| |by left].
  right. exists pc, (run_step cfg i pc (shared c)).1,
    (run_step cfg i pc (shared c)).2.
  split; [done|]. split; [apply run_step_cases|].
  by destruct (run_step cfg i pc (shared c)).
Qed.

(** ** Sums over a pool with one slot replaced *)

Lemma sumZ_with_insert {A} (f : A -> Z) (l : list A) i x y :
  l !! i = Some x ->
  sumZ_with f (<[i := y]> l) = (sumZ_with f l - f x + f y)%Z.
Proof.
  revert i. induction l as [|a l IH]; intros [|i] Hi; simplify_eq/=; [lia|].
  rewrite (IH i Hi). lia.
Qed.

Lemma sum_list_with_insert {A} (f : A -> nat) (l : list A) i x y :
  l !! i = Some x ->
  sum_list_with f (<[i := y]> l) + f x = sum_list_with f l + f y.
Proof.
  revert i. induction l as [|a l IH]; intros [|i] Hi; simplify_eq/=; [lia|].
  specialize (IH i Hi). lia.
Qed.

(** ** The trees of the states a step produces *)

Lemma tree_goal s :
  IsGoal s = true -> is_Some (expand F s) -> tree_of s = TGoal.
Proof. intros Hg Hs. unfold tree_of. by rewrite (expand_goal s Hg Hs). Qed.

Lemma tree_dead s :
  IsGoal s = false -> IsDead s = true -> is_Some (expand F s) ->
  tree_of s = TDead.
Proof. intros Hg Hd Hs. unfold tree_of. by rewrite (expand_dead s Hg Hd Hs). Qed.

Lemma tree_node s :
  IsGoal s = false -> IsDead s = false -> is_Some (expand F s) ->
  tree_of s = TNode (rest_of s NULL_NODE NULL_NODE) /\
  is_Some (scan (expand F) F s NULL_NODE NULL_NODE).
Proof.
  intros Hg Hd Hs. destruct (expand_node s Hg Hd Hs) as (kids & Hk & He).
  unfold tree_of, rest_of. rewrite He, Hk. by split.
Qed.

Lemma rest_child s n1 n2 m1 m2 :
  is_Some (scan (expand F) F s n1 n2) ->
  NextPair s n1 n2 = Some (m1, m2) -> IsFeasiblePair s m1 m2 = true ->
  rest_of s n1 n2 = Some (tree_of (AddPair s m1 m2)) :: rest_of s m1 m2 /\
  is_Some (expand F (AddPair s m1 m2)) /\
  is_Some (scan (expand F) F s m1 m2).
Proof.
  intros [kids Hk] Hn Hf.
  destruct (scan_next s n1 n2 m1 m2 kids Hk Hn) as (r & Hr & Hkids).
  rewrite Hf in Hkids. destruct Hkids as (t & Ht & ->).
  unfold rest_of, tree_of. rewrite Hk, Hr, Ht. by repeat split.
Qed.

Lemma rest_skip s n1 n2 m1 m2 :
  is_Some (scan (expand F) F s n1 n2) ->
  NextPair s n1 n2 = Some (m1, m2) -> IsFeasiblePair s m1 m2 = false ->
  rest_of s n1 n2 = None :: rest_of s m1 m2 /\
  is_Some (scan (expand F) F s m1 m2).
Proof.
  intros [kids Hk] Hn Hf.
  destruct (scan_next s n1 n2 m1 m2 kids Hk Hn) as (r & Hr & Hkids).
  rewrite Hf in Hkids. subst kids.
  unfold rest_of. rewrite Hk, Hr. by split.
Qed.

Lemma rest_end s n1 n2 :
  is_Some (scan (expand F) F s n1 n2) -> NextPair s n1 n2 = None ->
  rest_of s n1 n2 = [].
Proof.
  intros [kids Hk] Hn. unfold rest_of. rewrite Hk.
  by rewrite (scan_end s n1 n2 kids Hk Hn).
Qed.

(** ** What one step does to the accounts *)

Lemma Step_account cfg i e pc pc' e' :
  Step cfg i e pc pc' e' ->
  slot_defined (Running pc) ->
  Forall (fun x : Handle * St => is_Some (expand F x.2)) (globalStateStack e) ->
  Forall (fun x : Handle * St => is_Some (expand F x.2)) (globalStateStack e') /\
  slot_defined (Running pc') /\
  exists d : bool,
    solCount e' = (if d then wrap_uint32 (solCount e + 1) else solCount e) /\
    (stack_goals (globalStateStack e') + slot_goals (Running pc')
       + (if d then 1 else 0)
     = stack_goals (globalStateStack e) + slot_goals (Running pc))%Z /\
    (storeSolutions cfg = true ->
     (Z.of_nat (length (solutions e'))
        + (stack_goals (globalStateStack e') + slot_logs (Running pc'))
      = Z.of_nat (length (solutions e))
        + (stack_goals (globalStateStack e) + slot_logs (Running pc)))%Z).
Proof.
  intros Hstep Hpc Hst.
  destruct Hstep as
    [Hemp|h s rest Hpop|Hpos|Hneg|h s Hg|h s Hg Hd|h s Hg Hd
    |h s Hs|h s Hs|h s v Hv|h s Hv
    |h s n1 n2 m1 m2 Hn Hf|h s n1 n2 m1 m2 Hn Hf|h s n1 n2 Hn
    |h s|h s|]; simpl in *;
    try (split; [done|]; split; [done|]; exists false; simpl;
         split; [done|]; split; [lia|intros; lia]).
  - rewrite Hpop in Hst. inversion Hst as [|x l Hs Hrest]; subst.
    rewrite Hpop. split; [done|]. split; [done|]. exists false. simpl.
    unfold stack_goals. simpl. split; [done|]. split; [lia|intros; lia].
  - split; [done|]. split; [done|]. exists true. simpl.
    rewrite (tree_goal s Hg Hpc). simpl. split; [done|]. split; [lia|intros; lia].
  - split; [done|]. split; [done|]. exists false.
    rewrite (tree_dead s Hg Hd Hpc). simpl.
    split; [done|]. split; [lia|intros; lia].
  - destruct (tree_node s Hg Hd Hpc) as [Ht Hsc].
    split; [done|]. split; [done|]. exists false. rewrite Ht. simpl.
    split; [done|]. split; [lia|intros; lia].
  - split; [done|]. split; [done|]. exists false. simpl.
    split; [done|]. split; [lia|]. intros _. rewrite length_app. simpl. lia.
  - congruence || (split; [done|]; split; [done|]; exists false; simpl;
      split; [done|]; split; [lia|]; intros; congruence).
  - destruct (rest_child s n1 n2 m1 m2 Hpc Hn Hf) as (Hr & Hc & Hsc).
    split; [by apply Forall_cons|]. split; [done|]. exists false.
    rewrite Hr. unfold stack_goals. simpl.
    split; [done|]. split; [lia|intros; lia].
  - destruct (rest_skip s n1 n2 m1 m2 Hpc Hn Hf) as (Hr & Hsc).
    split; [done|]. split; [done|]. exists false. rewrite Hr. simpl.
    split; [done|]. split; [lia|intros; lia].
  - split; [done|]. split; [done|]. exists false.
    rewrite (rest_end s n1 n2 Hpc Hn). simpl.
    split; [done|]. split; [lia|intros; lia].
Qed.

Lemma wrap_int16_small z :
  (- 2 ^ 15 <= z < 2 ^ 15)%Z -> wrap_int16 z = z.
Proof. intros Hz. unfold wrap_int16. rewrite Z.mod_small; lia. Qed.

Lemma Step_credit cfg i e pc pc' e' :
  Step cfg i e pc pc' e' ->
  (- 2 ^ 15 <= activeWorkerCount e < 2 ^ 15)%Z ->
  activeWorkerCount e' =
    wrap_int16 (activeWorkerCount e + credit (Running pc')
                - credit (Running pc)).
Proof.
  intros Hstep Hr.
  destruct Hstep; simpl; unfold credit; simpl;
    rewrite ?Z.add_0_r, ?Z.sub_0_r, ?Z.add_simpl_r;
    try (by rewrite wrap_int16_small); done.
Qed.

(** A step that does no work leaves the shared members alone. *)
Definition idle_step (e : Shared) (pc pc' : WorkerPc) : Prop :=
  (pc = WGet /\ pc' = WTest /\ globalStateStack e = []) \/
  (pc = WTest /\ pc' = WGet /\ (0 < activeWorkerCount e)%Z) \/
  (pc = WTest /\ pc' = WExit /\ (activeWorkerCount e <= 0)%Z) \/
  (pc = WExit /\ pc' = WExit).

Lemma Step_cost cfg i e pc pc' e' :
  Step cfg i e pc pc' e' ->
  slot_defined (Running pc) ->
  stack_cost (globalStateStack e') + slot_cost (Running pc') + 1
    = stack_cost (globalStateStack e) + slot_cost (Running pc) \/
  (e' = e /\ idle_step e pc pc').
Proof.
  intros Hstep Hpc. unfold idle_step.
  destruct Hstep as
    [Hemp|h s rest Hpop|Hpos|Hneg|h s Hg|h s Hg Hd|h s Hg Hd
    |h s Hs|h s Hs|h s v Hv|h s Hv
    |h s n1 n2 m1 m2 Hn Hf|h s n1 n2 m1 m2 Hn Hf|h s n1 n2 Hn
    |h s|h s|]; simpl in *;
    try (right; split; [done|]; tauto);
    left; try lia.
  - rewrite Hpop. unfold stack_cost. simpl. lia.
  - rewrite (tree_goal s Hg Hpc). simpl. lia.
  - rewrite (tree_dead s Hg Hd Hpc). simpl. lia.
  - destruct (tree_node s Hg Hd Hpc) as [Ht Hsc]. rewrite Ht. simpl. lia.
  - destruct (rest_child s n1 n2 m1 m2 Hpc Hn Hf) as (Hr & Hc & Hsc).
    rewrite Hr. unfold stack_cost. simpl. lia.
  - destruct (rest_skip s n1 n2 m1 m2 Hpc Hn Hf) as (Hr & Hsc).
    rewrite Hr. simpl. lia.
  - rewrite (rest_end s n1 n2 Hpc Hn). simpl. lia.
Qed.

Lemma Step_alive cfg i e pc pc' e' :
  Step cfg i e pc pc' e' ->
  slot_busy (Running pc') \/ globalStateStack e' = [] \/
  (e' = e /\ ~ slot_busy (Running pc)).
Proof. destruct 1; simpl; tauto. Qed.

Lemma credit_bounds (l : list Slot) :
  (0 <= sumZ_with credit l <= Z.of_nat (length l))%Z.
Proof.
  induction l as [|sl l IH]; simpl; [lia|].
  unfold credit at 1 3. destruct (slot_handle sl); lia.
Qed.

(** ** The counting invariant is kept by every step *)

Lemma Counting_step cfg G i c :
  Counting cfg G c -> Counting cfg G (worker_step cfg i c).
Proof.
  intros Hc. destruct (worker_step_cases cfg i c)
    as [[_ ->]|(pc & pc' & e' & Hi & Hstep & ->)]; [done|].
  destruct Hc as [Hpool Hact Hrange Hgoals Hlog Hstack Hpcs Halive].
  pose proof (Forall_lookup_1 _ _ _ _ Hpcs Hi) as Hpc.
  destruct (Step_account cfg i _ _ _ _ Hstep Hpc Hstack)
    as (Hstack' & Hpc' & d & Hsol & Hg & Hl).
  pose proof (credit_bounds (pool c)) as Hcb.
  pose proof (credit_bounds (<[i:=Running pc']> (pool c))) as Hcb'.
  rewrite length_insert in Hcb'.
  assert (Hcred : activeWorkerCount e' =
                  sumZ_with credit (<[i:=Running pc']> (pool c))).
  { rewrite (Step_credit cfg i _ _ _ _ Hstep) by lia.
    rewrite (sumZ_with_insert credit _ _ _ (Running pc') Hi) in Hcb' |- *.
    rewrite Hact, wrap_int16_small; lia. }
  split; simpl.
  - by rewrite length_insert.
  - done.
  - rewrite Hsol. destruct d; [|done]. apply Z.mod_pos_bound. lia.
  - unfold pending in *. simpl.
    rewrite (sumZ_with_insert slot_goals _ _ _ (Running pc') Hi).
    rewrite <- Hgoals, Hsol. destruct d.
    + unfold wrap_uint32. rewrite Zplus_mod_idemp_l. f_equal. lia.
    + f_equal. lia.
  - intros Hs. specialize (Hlog Hs). specialize (Hl Hs).
    unfold pending_logs in *. simpl.
    rewrite (sumZ_with_insert slot_logs _ _ _ (Running pc') Hi). lia.
  - done.
  - by apply Forall_insert.
  - intros Hne.
    destruct (Step_alive cfg i _ _ _ _ Hstep) as [Hb|[He|[-> Hnb]]].
    + exists i, (Running pc'). split; [|done].
      apply list_lookup_insert_eq. by eapply lookup_lt_Some.
    + done.
    + destruct (Halive Hne) as (j & sl & Hj & Hb).
      exists j, sl. split; [|done].
      rewrite list_lookup_insert_ne; [done|]. intros ->. congruence.
Qed.

Lemma Counting_exec cfg G sched k c :
  Counting cfg G c -> Counting cfg G (exec cfg sched k c).
Proof.
  intros Hc. induction k as [|k IH]; simpl; [done|]. by apply Counting_step.
Qed.

(** ** Progress under a fair schedule

    A measure that no step increases and that every step of an enabled
    worker decreases reaches zero, provided a worker stays enabled until the
    measure decreases and some worker is enabled while it is positive. *)

Section Progress.

Variable cfg : Settings.
Variable sched : nat -> nat.
Variable c0 : Config.
Variable n : nat.
Hypothesis sched_fair : fair n sched.

Variable I : Config -> Prop.
Variable mu : Config -> nat.
Variable en : nat -> Config -> Prop.

Hypothesis I_step : forall c i, I c -> I (worker_step cfg i c).
Hypothesis mu_le : forall c i, I c -> mu (worker_step cfg i c) <= mu c.
Hypothesis en_dec :
  forall c i, I c -> en i c -> mu (worker_step cfg i c) < mu c.
Hypothesis en_keep :
  forall c i j, I c -> en i c ->
    mu (worker_step cfg j c) = mu c -> en i (worker_step cfg j c).
Hypothesis en_some : forall c, I c -> 0 < mu c -> exists i, i < n /\ en i c.

Lemma I_later t k :
  I (exec cfg sched t c0) -> t <= k -> I (exec cfg sched k c0).
Proof.
  intros Ht Hle. induction Hle as [|k Hle IH]; [done|].
  simpl. by apply I_step.
Qed.

Lemma first_progress d : forall t i,
  I (exec cfg sched t c0) -> en i (exec cfg sched t c0) ->
  sched (t + d) = i ->
  exists k, t <= k /\
    mu (exec cfg sched (S k) c0) < mu (exec cfg sched t c0).
Proof.
  induction d as [|d IH]; intros t i HI Hen Hs.
  - exists t. split; [done|]. simpl.
    replace (t + 0) with t in Hs by lia. rewrite Hs. by apply en_dec.
  - pose proof (mu_le _ (sched t) HI) as Hle.
    destruct (decide (mu (worker_step cfg (sched t) (exec cfg sched t c0))
                      = mu (exec cfg sched t c0))) as [Heq|Hne].
    + destruct (IH (S t) i) as (k & Hk & Hlt).
      * simpl. by apply I_step.
      * simpl. by apply en_keep.
      * rewrite <- Hs. f_equal. lia.
      * exists k. split; [lia|]. simpl in Hlt |- *. lia.
    + exists t. split; [done|]. simpl. lia.
Qed.

Lemma drains m : forall t,
  I (exec cfg sched t c0) -> mu (exec cfg sched t c0) <= m ->
  exists k, t <= k /\ mu (exec cfg sched k c0) = 0.
Proof.
  induction m as [|m IH]; intros t HI Hm.
  - exists t. split; [done|lia].
  - destruct (decide (mu (exec cfg sched t c0) = 0)) as [Hz|Hnz].
    { by exists t. }
    destruct (en_some _ HI) as (i & Hi & Hen); [lia|].
    destruct (sched_fair i t Hi) as (t' & Ht' & Hs).
    destruct (first_progress (t' - t) t i HI Hen) as (k & Hk & Hlt).
    { rewrite <- Hs. f_equal. lia. }
    destruct (IH (S k)) as (k' & Hk' & Hz).
    + apply (I_later t); [done|lia].
    + lia.
    + exists k'. split; [lia|done].
Qed.

End Progress.

(** ** The work left decreases *)

Lemma weight_step cfg G i c :
  Counting cfg G c ->
  weight (worker_step cfg i c) + 1 = weight c \/
  ((forall pc, pool c !! i <> Some (Running pc)) /\ worker_step cfg i c = c) \/
  exists pc pc',
    pool c !! i = Some (Running pc) /\
    idle_step (shared c) pc pc' /\
    worker_step cfg i c = mkConfig (shared c) (<[i := Running pc']> (pool c)).
Proof.
  intros Hc. destruct (worker_step_cases cfg i c)
    as [Hno|(pc & pc' & e' & Hi & Hstep & ->)]; [by right; left|].
  pose proof (Forall_lookup_1 _ _ _ _ (cnt_pcs _ _ _ Hc) Hi) as Hpc.
  destruct (Step_cost cfg i _ _ _ _ Hstep Hpc) as [Hcost|[-> Hidle]].
  - left. unfold weight. simpl.
    pose proof (sum_list_with_insert slot_cost _ _ _ (Running pc') Hi). lia.
  - right; right. by exists pc, pc'.
Qed.

Lemma idle_weight c i pc pc' :
  pool c !! i = Some (Running pc) -> idle_step (shared c) pc pc' ->
  weight (mkConfig (shared c) (<[i := Running pc']> (pool c))) = weight c.
Proof.
  intros Hi Hidle. unfold weight. simpl.
  pose proof (sum_list_with_insert slot_cost _ _ _ (Running pc') Hi) as Hs.
  destruct Hidle as [(-> & -> & _)|[(-> & -> & _)|[(-> & -> & _)|[-> ->]]]];
    simpl in Hs; lia.
Qed.

Lemma weight_le cfg G i c :
  Counting cfg G c -> weight (worker_step cfg i c) <= weight c.
Proof.
  intros Hc. destruct (weight_step cfg G i c Hc)
    as [Hw|[[_ ->]|(pc & pc' & Hi & Hidle & ->)]]; [lia|done|].
  by rewrite (idle_weight c i pc pc').
Qed.

Lemma working_decreases cfg G i c :
  Counting cfg G c -> working i c ->
  weight (worker_step cfg i c) < weight c.
Proof.
  intros Hc (pc & Hi & Hw).
  destruct (weight_step cfg G i c Hc)
    as [Hlt|[[Hno _]|(pc0 & pc' & Hi0 & Hidle & _)]]; [lia| |].
  - by destruct (Hno pc).
  - simplify_eq. unfold idle_step in Hidle.
    destruct Hw as [[h Hh]|[-> Hne]].
    + destruct Hidle as [(-> & _)|[(-> & _)|[(-> & _)|[-> _]]]];
        simpl in Hh; discriminate.
    + destruct Hidle as [(_ & _ & He)|[(? & _)|[(? & _)|[? _]]]];
        done.
Qed.

Lemma working_stays cfg G i j c :
  Counting cfg G c -> working i c ->
  weight (worker_step cfg j c) = weight c -> working i (worker_step cfg j c).
Proof.
  intros Hc Hw Heq.
  destruct (decide (i = j)) as [->|Hij].
  { pose proof (working_decreases cfg G j c Hc Hw). lia. }
  destruct (weight_step cfg G j c Hc)
    as [Hlt|[[_ ->]|(pc0 & pc' & Hj & Hidle & ->)]]; [lia|done|].
  destruct Hw as (pc & Hi & Hw). exists pc. simpl.
  split; [|done]. by rewrite list_lookup_insert_ne.
Qed.

Lemma sum_list_with_pos {A} (f : A -> nat) (l : list A) :
  0 < sum_list_with f l -> exists i x, l !! i = Some x /\ 0 < f x.
Proof.
  induction l as [|a l IH]; simpl; [lia|]. intros Hpos.
  destruct (decide (0 < f a)) as [Ha|Ha].
  - by exists 0, a.
  - destruct IH as (i & x & Hi & Hx); [lia|]. by exists (S i), x.
Qed.

Lemma working_exists cfg G c :
  Counting cfg G c -> 0 < weight c ->
  exists i, i < length (pool c) /\ working i c.
Proof.
  intros Hc Hpos. unfold weight in Hpos.
  destruct (globalStateStack (shared c)) as [|x st] eqn:Hst.
  - simpl in Hpos. destruct (sum_list_with_pos _ _ Hpos) as (i & sl & Hi & Hsl).
    exists i. split; [by eapply lookup_lt_Some|].
    destruct sl as [|pc]; simpl in Hsl; [lia|]. exists pc. split; [done|].
    left. destruct pc; simpl in *; try lia; by eexists.
  - destruct (cnt_alive _ _ _ Hc) as (j & sl & Hj & Hb); [by rewrite Hst|].
    exists j. split; [by eapply lookup_lt_Some|].
    destruct sl as [|pc]; [done|]. exists pc. split; [done|].
    destruct pc; simpl in Hb; try done;
      try (left; by eexists). right. by rewrite Hst.
Qed.

Lemma work_drains cfg G sched c0 :
  Counting cfg G c0 -> fair (length (pool c0)) sched ->
  exists k, weight (exec cfg sched k c0) = 0.
Proof.
  intros Hc Hfair.
  destruct (drains cfg sched c0 (length (pool c0)) Hfair
              (fun c => Counting cfg G c /\ length (pool c) = length (pool c0))
              weight working) with (m := weight c0) (t := 0)
    as (k & _ & Hk).
  - intros c i [H1 H2]. split; [by apply Counting_step|].
    rewrite <- H2. unfold worker_step.
    destruct (pool c !! i) as [[|pc]|]; try done.
    destruct (run_step cfg i pc (shared c)). simpl. apply length_insert.
  - intros c i [H1 _]. by eapply weight_le.
  - intros c i [H1 _]. by eapply working_decreases.
  - intros c i j [H1 _]. by eapply working_stays.
  - intros c [H1 H2] Hpos. rewrite <- H2. by eapply working_exists.
  - done.
  - done.
  - by exists k.
Qed.

(** ** Once no work is left, the workers leave *)

Lemma cost_pos t : 0 < cost t.
Proof. destruct t; simpl; lia. Qed.

Lemma slot_cost_credit sl : slot_cost sl = 0 -> credit sl = 0%Z.
Proof.
  destruct sl as [|[| |h s f|h s|h s|]]; simpl; try done.
  destruct f; simpl; try lia. pose proof (cost_pos (tree_of s)). lia.
Qed.

Lemma sum_list_with_zero {A} (f : A -> nat) (l : list A) :
  sum_list_with f l = 0 -> Forall (fun x => f x = 0) l.
Proof.
  induction l as [|a l IH]; simpl; intros Hz; constructor; [lia|].
  apply IH. lia.
Qed.

Lemma sumZ_with_zero {A} (f : A -> Z) (l : list A) :
  Forall (fun x => f x = 0%Z) l -> sumZ_with f l = 0%Z.
Proof. induction 1 as [|a l Ha _ IH]; simpl; [done|lia]. Qed.

Lemma drained_facts cfg G c :
  Counting cfg G c -> weight c = 0 ->
  globalStateStack (shared c) = [] /\ activeWorkerCount (shared c) = 0%Z.
Proof.
  intros Hc Hw. unfold weight in Hw. split.
  - destruct (globalStateStack (shared c)); [done|].
    unfold stack_cost in Hw. simpl in Hw. lia.
  - rewrite (cnt_active _ _ _ Hc). apply sumZ_with_zero.
    assert (Hz : sum_list_with slot_cost (pool c) = 0) by lia.
    apply sum_list_with_zero in Hz. clear Hw.
    induction Hz as [|sl l Hsl _ IH]; constructor; [|done].
    by apply slot_cost_credit.
Qed.

Lemma worker_step_other cfg i j c :
  i <> j -> pool (worker_step cfg j c) !! i = pool c !! i.
Proof.
  intros Hij. destruct (worker_step_cases cfg j c)
    as [[_ ->]|(pc & pc' & e' & _ & _ & ->)]; [done|].
  simpl. by rewrite list_lookup_insert_ne.
Qed.

Lemma worker_step_length cfg i c :
  length (pool (worker_step cfg i c)) = length (pool c).
Proof.
  destruct (worker_step_cases cfg i c)
    as [[_ ->]|(pc & pc' & e' & _ & _ & ->)]; [done|].
  simpl. apply length_insert.
Qed.

Lemma linger_step cfg G i c :
  Counting cfg G c -> weight c = 0 ->
  (leaving i c /\ linger (worker_step cfg i c) + 1 = linger c) \/
  (~ leaving i c /\ linger (worker_step cfg i c) = linger c).
Proof.
  intros Hc Hw. destruct (drained_facts cfg G c Hc Hw) as [Hst Hact].
  destruct (weight_step cfg G i c Hc)
    as [Hlt|[[Hno ->]|(pc & pc' & Hi & Hidle & ->)]]; [lia| |].
  - right. split; [|done]. intros (pc & Hi & _). by destruct (Hno pc).
  - unfold linger, leaving. simpl.
    pose proof (sum_list_with_insert slot_linger _ _ _ (Running pc') Hi) as Hs.
    destruct Hidle as [(-> & -> & _)|[(-> & -> & Hpos)|[(-> & -> & _)|[-> ->]]]];
      simpl in Hs.
    + left. split; [|lia]. exists WGet. by split; [|left].
    + lia.
    + left. split; [|lia]. exists WTest. by split; [|right].
    + right. split; [|lia]. intros (pc & Hi' & [->| ->]); congruence.
Qed.

Lemma finished_all cfg G c :
  Counting cfg G c -> weight c = 0 -> linger c = 0 ->
  forallb finished (pool c) = true.
Proof.
  intros _. unfold weight, linger. generalize (pool c) as l.
  induction l as [|sl l IH]; simpl; intros Hw Hl; [done|].
  rewrite IH by lia. rewrite andb_true_r.
  destruct sl as [|[| |h s f|h s|h s|]]; simpl in *; try done; try lia.
  destruct f; simpl in *; try lia. pose proof (cost_pos (tree_of s)). lia.
Qed.

(** Under a fair schedule every worker has left [Run] after finitely many
    steps, and the frontier is empty then. *)
Lemma pool_terminates cfg G sched c0 :
  Counting cfg G c0 -> fair (length (pool c0)) sched ->
  exists k,
    forallb finished (pool (exec cfg sched k c0)) = true /\
    globalStateStack (shared (exec cfg sched k c0)) = [] /\
    activeWorkerCount (shared (exec cfg sched k c0)) = 0%Z.
Proof.
  intros Hc Hfair.
  destruct (work_drains cfg G sched c0 Hc Hfair) as (k1 & Hk1).
  destruct (drains cfg sched c0 (length (pool c0)) Hfair
              (fun c => Counting cfg G c /\ weight c = 0 /\
                        length (pool c) = length (pool c0))
              linger leaving)
    with (m := linger (exec cfg sched k1 c0)) (t := k1) as (k & Hle & Hk).
  - intros c i (H1 & H2 & H3). split; [by apply Counting_step|]. split.
    + pose proof (weight_le cfg G i c H1). lia.
    + by rewrite worker_step_length.
  - intros c i (H1 & H2 & _).
    destruct (linger_step cfg G i c H1 H2) as [[_ ?]|[_ ?]]; lia.
  - intros c i (H1 & H2 & _) Hl.
    destruct (linger_step cfg G i c H1 H2) as [[_ ?]|[Hn _]]; [lia|done].
  - intros c i j (H1 & H2 & _) (pc & Hi & Hpc) Heq.
    destruct (decide (i = j)) as [->|Hij].
    + destruct (linger_step cfg G j c H1 H2) as [[_ ?]|[Hn _]]; [lia|].
      destruct Hn. by exists pc.
    + exists pc. by rewrite worker_step_other.
  - intros c (H1 & H2 & H3) Hpos. unfold linger in Hpos.
    destruct (sum_list_with_pos _ _ Hpos) as (i & sl & Hi & Hsl).
    exists i. split; [rewrite <- H3; by eapply lookup_lt_Some|].
    destruct sl as [|[| |h s f|h s|h s|]]; simpl in Hsl; try lia.
    + exists WGet. by split; [|left].
    + exists WTest. by split; [|right].
  - split; [by apply Counting_exec|]. split; [done|].
    clear. induction k1 as [|k IH]; simpl; [done|].
    by rewrite worker_step_length.
  - done.
  - assert (HI : Counting cfg G (exec cfg sched k c0) /\
                 weight (exec cfg sched k c0) = 0).
    { split; [by apply Counting_exec|].
      clear Hk. induction Hle as [|k Hle IH]; [done|]. simpl.
      pose proof (weight_le cfg G (sched k) _ (Counting_exec cfg G sched k c0 Hc)).
      lia. }
    destruct HI as [HC HW]. exists k. split; [by eapply finished_all|].
    by eapply drained_facts.
Qed.

(** ** [ProcessState] as a whole *)

Lemma ProcessState_from_mono f f' cfg t h s fr e r :
  ProcessState_from f cfg t h s fr e = Some r -> f <= f' ->
  ProcessState_from f' cfg t h s fr e = Some r.
Proof.
  revert f' fr e. induction f as [|f IH]; intros f' fr e Hr Hle; [done|].
  destruct f' as [|f']; [lia|]. simpl in *.
  destruct (frame_step cfg t h s fr e) as [[fr'|b] e']; [|done].
  apply IH; [done|lia].
Qed.

Lemma ProcessState_loop cfg t h s g : forall n1 n2 ps e,
  pairs_from g s n1 n2 = Some ps ->
  ProcessState_from (S (length ps)) cfg t h s (PLoop n1 n2) e
  = Some (false, log (EvReturn t h) (pushChildren t h s ps e)).
Proof.
  induction g as [|g IH]; intros n1 n2 ps e Hps; [done|].
  cbn [pairs_from] in Hps. cbn [ProcessState_from frame_step].
  destruct (NextPair s n1 n2) as [[m1 m2]|]; [|by simplify_eq].
  destruct (pairs_from g s m1 m2) as [r|] eqn:Hr; [|done].
  simpl in Hps. simplify_eq. cbn [length pushChildren].
  destruct (IsFeasiblePair s m1 m2); by apply IH.
Qed.

Lemma pushChildren_spec t h s ps : forall e,
  globalStateStack (pushChildren t h s ps e)
  = rev (with_handles (nextHandle e) (children s ps)) ++ globalStateStack e /\
  activeWorkerCount (pushChildren t h s ps e) = activeWorkerCount e /\
  solCount (pushChildren t h s ps e) = solCount e /\
  solutions (pushChildren t h s ps e) = solutions e /\
  nextHandle (pushChildren t h s ps e)
  = nextHandle e + length (children s ps).
Proof.
  unfold with_handles.
  induction ps as [|[m1 m2] r IH]; intros e; simpl.
  { repeat split; lia. }
  destruct (IsFeasiblePair s m1 m2).
  - destruct (IH (pushChild t h s m1 m2 e)) as (H1 & H2 & H3 & H4 & H5).
    rewrite H1, H2, H3, H4, H5. simpl. rewrite <- app_assoc. simpl.
    repeat split; lia.
  - apply IH.
Qed.

Lemma scan_pairs (rec : St -> option Tree) g s : forall n1 n2 kids,
  scan rec g s n1 n2 = Some kids ->
  exists ps,
    pairs_from g s n1 n2 = Some ps /\
    Forall (fun x => is_Some (rec x)) (children s ps) /\
    sumZ_with (fun x => goals (default TDead (rec x))) (children s ps)
    = sum_kids goals kids.
Proof.
  induction g as [|g IH]; intros n1 n2 kids Hs; [done|]. simpl in *.
  destruct (NextPair s n1 n2) as [[m1 m2]|].
  2:{ simplify_eq. by exists []. }
  destruct (IsFeasiblePair s m1 m2) eqn:Hf.
  - destruct (rec (AddPair s m1 m2)) as [t|] eqn:Ht; [|done].
    destruct (scan rec g s m1 m2) as [r|] eqn:Hr; [|done]. simplify_eq.
    destruct (IH m1 m2 r Hr) as (ps & Hps & Hall & Hsum).
    exists ((m1, m2) :: ps). rewrite Hps. simpl. rewrite Hf. simpl.
    rewrite Ht, Hsum. split; [done|]. split; [|done].
    constructor; [by rewrite Ht|done].
  - destruct (scan rec g s m1 m2) as [r|] eqn:Hr; [|done].
    simpl in Hs. simplify_eq.
    destruct (IH m1 m2 r Hr) as (ps & Hps & Hall & Hsum).
    exists ((m1, m2) :: ps). rewrite Hps. simpl. rewrite Hf.
    split; [done|]. split; [done|]. rewrite Hsum. lia.
Qed.

Lemma sumZ_with_app {A} (f : A -> Z) (l k : list A) :
  sumZ_with f (l ++ k) = (sumZ_with f l + sumZ_with f k)%Z.
Proof. induction l as [|a l IH]; simpl; lia. Qed.

Lemma stack_goals_handles h0 cs :
  stack_goals (rev (with_handles h0 cs))
  = sumZ_with (fun x => goals (tree_of x)) cs.
Proof.
  unfold stack_goals, with_handles. revert h0.
  induction cs as [|x cs IH]; intros h0; simpl; [done|].
  rewrite sumZ_with_app, IH. simpl. lia.
Qed.

Lemma stack_defined_handles h0 cs :
  Forall (fun x => is_Some (expand F x)) cs ->
  Forall (fun x : Handle * St => is_Some (expand F x.2))
         (rev (with_handles h0 cs)).
Proof.
  unfold with_handles. intros Hall. revert h0.
  induction Hall as [|x cs Hx _ IH]; intros h0; simpl; [constructor|].
  apply Forall_app. split; [apply IH|]. by repeat constructor.
Qed.

(** ** The pool after [StartPool] *)

Lemma StartPool_from_spec bound slots : forall i,
  (0 <= i)%Z ->
  StartPool_from bound i slots =
    if (bound - i <=? Z.of_nat (length slots))%Z
    then Some (replicate (Z.to_nat (bound - i)) (Running WGet)
               ++ drop (Z.to_nat (bound - i)) slots)
    else None.
Proof.
  induction slots as [|sl slots IH]; intros i Hi; cbn [StartPool_from length].
  - destruct (Z.ltb_spec i bound), (Z.leb_spec (bound - i) (Z.of_nat 0));
      try lia; [done|].
    by replace (Z.to_nat (bound - i)) with 0 by lia.
  - destruct (Z.ltb_spec i bound).
    + rewrite IH by lia.
      replace (Z.to_nat (bound - i)) with (S (Z.to_nat (bound - (i + 1))))
        by lia.
      destruct (Z.leb_spec (bound - (i + 1)) (Z.of_nat (length slots))),
        (Z.leb_spec (bound - i) (Z.of_nat (S (length slots)))); try lia; done.
    + destruct (Z.leb_spec (bound - i) (Z.of_nat (S (length slots))));
        [|lia].
      by replace (Z.to_nat (bound - i)) with 0 by lia.
Qed.

Lemma StartPool_spawns n store cpu0 v :
  (0 <= n < 2 ^ 15)%Z ->
  StartPool (ParallelMatchingEngine n store cpu0 v)
  = Some (replicate (Z.to_nat n) (Running WGet)).
Proof.
  intros Hn. unfold StartPool, ParallelMatchingEngine. simpl.
  rewrite StartPool_from_spec by lia.
  rewrite wrap_int16_small by lia. unfold to_size_t.
  rewrite Z.mod_small by lia. rewrite length_replicate, Z.sub_0_r.
  rewrite Z2Nat.id by lia. rewrite Z.leb_refl.
  rewrite drop_ge by (rewrite length_replicate; lia).
  by rewrite app_nil_r.
Qed.

Lemma StartPool_overruns n store cpu0 v :
  (2 ^ 15 <= n < 2 ^ 16)%Z ->
  StartPool (ParallelMatchingEngine n store cpu0 v) = None.
Proof.
  intros Hn. unfold StartPool, ParallelMatchingEngine. simpl.
  rewrite StartPool_from_spec by lia.
  rewrite length_replicate, Z.sub_0_r, Z2Nat.id by lia.
  assert (Hw : wrap_int16 n = (n - 2 ^ 16)%Z).
  { unfold wrap_int16.
    replace (n + 2 ^ 15)%Z with ((n - 2 ^ 15) + 1 * 2 ^ 16)%Z by lia.
    rewrite Z.mod_add by lia. rewrite Z.mod_small; lia. }
  rewrite Hw. unfold to_size_t.
  replace (n - 2 ^ 16)%Z with ((n - 2 ^ 16 + 2 ^ 64) + (-1) * 2 ^ 64)%Z by lia.
  rewrite Z.mod_add by lia. rewrite Z.mod_small by lia.
  destruct (n - 2 ^ 16 + 2 ^ 64 <=? n)%Z eqn:Hle; [|done].
  apply Z.leb_le in Hle. lia.
Qed.

(** ** The configuration the workers start from *)

Lemma ProcessState_node cfg t h s g ps e :
  IsGoal s = false -> IsDead s = false ->
  pairs_from g s NULL_NODE NULL_NODE = Some ps ->
  ProcessState (S (S (length ps))) cfg t h s e
  = Some (false, log (EvReturn t h) (pushChildren t h s ps e)).
Proof.
  intros Hg Hd Hps. unfold ProcessState.
  cbn [ProcessState_from frame_step]. rewrite Hg, Hd.
  by apply (ProcessState_loop cfg t h s g).
Qed.

Lemma ProcessState_goal cfg t h s e :
  IsGoal s = true ->
  ProcessState 3 cfg t h s e = Some (goal_result cfg t h s e).
Proof.
  intros Hg. unfold ProcessState, goal_result.
  cbn [ProcessState_from frame_step]. rewrite Hg.
  cbn [ProcessState_from frame_step].
  destruct (storeSolutions cfg); cbn [ProcessState_from frame_step];
    by destruct (visit cfg).
Qed.

Lemma ProcessState_dead cfg t h s e :
  IsGoal s = false -> IsDead s = true ->
  ProcessState 1 cfg t h s e = Some (false, log (EvReturn t h) e).
Proof.
  intros Hg Hd. unfold ProcessState. simpl. by rewrite Hg, Hd.
Qed.

Lemma root_run cfg root t :
  expand F root = Some t ->
  exists fuel b e1,
    ProcessState fuel cfg Caller rootHandle root initShared = Some (b, e1) /\
    activeWorkerCount e1 = 0%Z /\
    (0 <= solCount e1 < 2 ^ 32)%Z /\
    ((solCount e1 + stack_goals (globalStateStack e1)) mod 2 ^ 32
     = goals t mod 2 ^ 32)%Z /\
    (storeSolutions cfg = true ->
     (Z.of_nat (length (solutions e1)) + stack_goals (globalStateStack e1)
      = goals t)%Z) /\
    Forall (fun x : Handle * St => is_Some (expand F x.2))
           (globalStateStack e1).
Proof.
  intros Ht. assert (Hdef : is_Some (expand F root)) by by exists t.
  destruct (IsGoal root) eqn:Hg; [|destruct (IsDead root) eqn:Hd].
  - rewrite (expand_goal root Hg Hdef) in Ht. simplify_eq.
    exists 3, (goal_result cfg Caller rootHandle root initShared).1,
      (goal_result cfg Caller rootHandle root initShared).2. split.
    { rewrite (ProcessState_goal cfg _ _ _ _ Hg). by rewrite <- surjective_pairing. }
    unfold goal_result.
    destruct (storeSolutions cfg), (visit cfg) as [v|]; simpl;
      repeat split; try done; try lia.
  - rewrite (expand_dead root Hg Hd Hdef) in Ht. simplify_eq.
    exists 1. eexists _, _. split; [by apply ProcessState_dead|].
    simpl. repeat split; try done; lia.
  - destruct (expand_node root Hg Hd Hdef) as (kids & Hk & He).
    rewrite He in Ht. simplify_eq.
    destruct (scan_pairs _ _ _ _ _ _ Hk) as (ps & Hps & Hall & Hsum).
    exists (S (S (length ps))), false. eexists. split.
    { by apply (ProcessState_node cfg Caller rootHandle root F ps). }
    destruct (pushChildren_spec Caller rootHandle root ps initShared)
      as (H1 & H2 & H3 & H4 & H5).
    simpl. rewrite H1, H2, H3, H4, app_nil_r, stack_goals_handles.
    unfold tree_of. rewrite Hsum. simpl.
    split; [done|]. split; [lia|]. split; [done|]. split; [done|].
    by apply stack_defined_handles.
Qed.

Lemma Counting_start cfg t e1 m :
  activeWorkerCount e1 = 0%Z ->
  (0 <= solCount e1 < 2 ^ 32)%Z ->
  ((solCount e1 + stack_goals (globalStateStack e1)) mod 2 ^ 32
   = goals t mod 2 ^ 32)%Z ->
  (storeSolutions cfg = true ->
   (Z.of_nat (length (solutions e1)) + stack_goals (globalStateStack e1)
    = goals t)%Z) ->
  Forall (fun x : Handle * St => is_Some (expand F x.2))
         (globalStateStack e1) ->
  (Z.of_nat (S m) < 2 ^ 15)%Z ->
  Counting cfg (goals t) (mkConfig e1 (replicate (S m) (Running WGet))).
Proof.
  intros Hact Hrange Hgoals Hlog Hstack Hm.
  assert (Hz : forall f : Slot -> Z, f (Running WGet) = 0%Z ->
               sumZ_with f (replicate (S m) (Running WGet)) = 0%Z).
  { intros f Hf. apply sumZ_with_zero. by apply Forall_replicate. }
  split; cbn [shared pool].
  - by rewrite length_replicate.
  - by rewrite Hz.
  - done.
  - unfold pending. cbn [shared pool]. rewrite Hz by done.
    by rewrite Z.add_0_r.
  - intros Hs. unfold pending_logs. cbn [shared pool]. rewrite Hz by done.
    rewrite Z.add_0_r. by apply Hlog.
  - done.
  - by apply Forall_replicate.
  - intros _. by exists 0, (Running WGet).
Qed.

Lemma start_Counting n store cpu0 v root t fuel b e1 p :
  (0 < n < 2 ^ 16)%Z ->
  expand F root = Some t ->
  ProcessState fuel (ParallelMatchingEngine n store cpu0 v) Caller rootHandle
               root initShared = Some (b, e1) ->
  StartPool (ParallelMatchingEngine n store cpu0 v) = Some p ->
  (n < 2 ^ 15)%Z /\
  p = replicate (Z.to_nat n) (Running WGet) /\
  Counting (ParallelMatchingEngine n store cpu0 v) (goals t) (mkConfig e1 p).
Proof.
  intros Hn Ht Hroot Hp.
  destruct (Z.lt_ge_cases n (2 ^ 15)) as [Hlt|Hge].
  2:{ rewrite StartPool_overruns in Hp by lia. discriminate. }
  rewrite StartPool_spawns in Hp by lia. simplify_eq.
  split; [done|]. split; [done|].
  destruct (root_run (ParallelMatchingEngine n store cpu0 v) root t Ht)
    as (fuel0 & b0 & e0 & Hrun & H1 & H2 & H3 & H4 & H5).
  unfold ProcessState in *.
  pose proof (ProcessState_from_mono _ (fuel `max` fuel0) _ _ _ _ _ _ _ Hroot
                (Nat.le_max_l _ _)) as Ha.
  pose proof (ProcessState_from_mono _ (fuel `max` fuel0) _ _ _ _ _ _ _ Hrun
                (Nat.le_max_r _ _)) as Hb.
  rewrite Ha in Hb. simplify_eq.
  destruct (Z.to_nat n) as [|m] eqn:Hm; [lia|].
  apply Counting_start; try done. lia.
Qed.

Lemma forallb_lookup {A} (f : A -> bool) (l : list A) j x :
  forallb f l = true -> l !! j = Some x -> f x = true.
Proof.
  revert j. induction l as [|a l IH]; intros j Hall Hj; [done|].
  simpl in Hall. apply andb_true_iff in Hall as [Ha Hl].
  destruct j as [|j]; simplify_eq/=; [done|]. by eapply IH.
Qed.

Lemma finished_nothing_pending cfg G c :
  Counting cfg G c -> forallb finished (pool c) = true ->
  globalStateStack (shared c) = [] /\ pending c = 0%Z /\ pending_logs c = 0%Z.
Proof.
  intros Hc Hfin.
  assert (Hst : globalStateStack (shared c) = []).
  { destruct (globalStateStack (shared c)) as [|x st] eqn:Hst; [done|].
    destruct (cnt_alive _ _ _ Hc) as (j & sl & Hj & Hb); [by rewrite Hst|].
    pose proof (forallb_lookup _ _ _ _ Hfin Hj) as Hf.
    by destruct sl as [|[| |h s f|h s|h s|]]. }
  assert (Hz : forall f : Slot -> Z,
             (forall sl, finished sl = true -> f sl = 0%Z) ->
             sumZ_with f (pool c) = 0%Z).
  { intros f Hf. apply sumZ_with_zero. apply Forall_lookup.
    intros j sl Hj. apply Hf. by eapply forallb_lookup. }
  unfold pending, pending_logs. rewrite Hst. simpl.
  rewrite !Hz; [done| |]; by intros [|[| |h s f|h s|h s|]].
Qed.

(** The count and the log once every worker has left [Run]. *)
Lemma final_account cfg G c :
  Counting cfg G c -> forallb finished (pool c) = true ->
  GetSolutionsCount (shared c) = (G mod 2 ^ 32)%Z /\
  (storeSolutions cfg = true ->
   Z.of_nat (length (solutions (shared c))) = G) /\
  globalStateStack (shared c) = [].
Proof.
  intros Hc Hfin.
  destruct (finished_nothing_pending cfg G c Hc Hfin) as (Hst & Hp & Hl).
  pose proof (cnt_goals _ _ _ Hc) as Hg. pose proof (cnt_range _ _ _ Hc) as Hr.
  rewrite Hp, Z.add_0_r, Z.mod_small in Hg by done.
  split; [done|]. split; [|done].
  intros Hs. pose proof (cnt_log _ _ _ Hc Hs) as Hlog. lia.
Qed.

(** ** The entry point *)

Lemma FindAllMatchings_inv cfg fuel sched steps root e b c :
  FindAllMatchings cfg fuel sched steps root e = Some (b, c) ->
  exists b0 e1 p,
    ProcessState fuel cfg Caller rootHandle root e = Some (b0, e1) /\
    StartPool cfg = Some p /\
    c = exec cfg sched steps (mkConfig e1 p) /\
    forallb finished (pool c) = true /\ b = true.
Proof.
  unfold FindAllMatchings. intros Hrun.
  destruct (ProcessState fuel cfg Caller rootHandle root e)
    as [[b0 e1]|]; [|done].
  destruct (StartPool cfg) as [p|]; [|done].
  destruct (forallb finished (pool (exec cfg sched steps (mkConfig e1 p))))
    eqn:Hfin; [|done].
  simplify_eq. by exists b0, e1, p.
Qed.

Lemma FindAllMatchings_account n store cpu0 v fuel sched steps root t b c :
  (0 < n < 2 ^ 16)%Z ->
  expand F root = Some t ->
  FindAllMatchings (ParallelMatchingEngine n store cpu0 v) fuel sched steps
                   root initShared = Some (b, c) ->
  GetSolutionsCount (shared c) = wrap_uint32 (goals t) /\
  (store = true -> Z.of_nat (length (solutions (shared c))) = goals t) /\
  globalStateStack (shared c) = [].
Proof.
  intros Hn Ht Hrun.
  destruct (FindAllMatchings_inv _ _ _ _ _ _ _ _ Hrun)
    as (b0 & e1 & p & Hroot & Hp & -> & Hfin & _).
  destruct (start_Counting n store cpu0 v root t fuel b0 e1 p Hn Ht Hroot Hp)
    as (_ & _ & Hc).
  apply (Counting_exec _ _ sched steps) in Hc.
  by apply (final_account _ _ _ Hc).
Qed.

(** ** Handles: what one step does *)

Lemma quiet_refl hist : quiet hist hist.
Proof. by repeat split. Qed.

Lemma quiet_cons ev hist :
  match ev with EvPop _ _ | EvPush _ _ _ _ => False | _ => True end ->
  quiet hist (ev :: hist).
Proof.
  intros Hev. unfold quiet, pops, pushed.
  destruct ev; try done; simpl; (split; [done|]); (split; [done|]);
    (split; [intros; by apply elem_of_cons; right|]);
    intros ? ? ? ? [?|?]%elem_of_cons; done.
Qed.

Lemma quiet_trans h1 h2 h3 : quiet h1 h2 -> quiet h2 h3 -> quiet h1 h3.
Proof.
  intros (A1 & A2 & A3 & A4) (B1 & B2 & B3 & B4). repeat split.
  - congruence.
  - intros h. by rewrite B2.
  - auto.
  - intros. by apply A4, B4.
Qed.

Lemma Step_delta cfg i e pc pc' e' :
  Step cfg i e pc pc' e' ->
  (globalStateStack e' = globalStateStack e /\
   nextHandle e' = nextHandle e /\
   quiet (history e) (history e') /\
   (handle_of pc' = handle_of pc \/ handle_of pc' = None)) \/
  (exists h s,
     globalStateStack e = (h, s) :: globalStateStack e' /\
     nextHandle e' = nextHandle e /\
     history e' = EvPop (Worker i) h :: history e /\
     handle_of pc = None /\ handle_of pc' = Some h) \/
  (exists h cs,
     handle_of pc = Some h /\ handle_of pc' = Some h /\
     globalStateStack e' = (nextHandle e, cs) :: globalStateStack e /\
     nextHandle e' = S (nextHandle e) /\
     history e' = EvPush (Worker i) h (nextHandle e) cs :: history e).
Proof.
  destruct 1; simpl;
    try (left; repeat split; auto using quiet_refl; by apply quiet_cons).
  - right; left. by exists h, s.
  - left. split; [done|]. split; [done|]. split; [|by left].
    apply (quiet_trans _ (EvVisit (Worker i) h :: history e));
      by apply quiet_cons.
  - right; right. by eexists h, _.
Qed.

Lemma pool_insert_lookup (l : list Slot) i j pc' pcj :
  <[i := Running pc']> l !! j = Some (Running pcj) ->
  (j = i /\ pcj = pc') \/ (j <> i /\ l !! j = Some (Running pcj)).
Proof.
  intros [(-> & Heq & _)|[Hne Hj]]%list_lookup_insert_Some.
  - left. split; [done|congruence].
  - right. by split.
Qed.

Lemma pushed_fresh h hist :
  (forall t p ch cs, EvPush t p ch cs ∈ hist -> p < h) -> pushed h hist = [].
Proof.
  induction hist as [|ev hist IH]; intros Hp; [done|].
  assert (IH' : pushed h hist = []).
  { apply IH. intros t p ch cs Hin. apply (Hp t p ch cs).
    by apply elem_of_cons; right. }
  unfold pushed in *.
  destruct ev as [| | |t p ch cs| | | |]; simpl; try exact IH'.
  pose proof (Hp t p ch cs (list_elem_of_here _ _)).
  destruct (decide (p = h)); [lia|exact IH'].
Qed.

Lemma Handles_step cfg i c :
  Handles c -> Handles (worker_step cfg i c).
Proof.
  intros Hc. destruct (worker_step_cases cfg i c)
    as [[_ ->]|(pc & pc' & e' & Hi & Hstep & ->)]; [done|].
  destruct Hc as [Hnd Hst Hheld Hapart Hpops Hpopped Hpar].
  destruct (Step_delta cfg i _ _ _ _ Hstep)
    as [(Hs & Hn & (Q1 & Q2 & Q3 & Q4) & Hh)
       |[(h & s & Hs & Hn & Hh & Hpc & Hpc')
        |(h & cs & Hpc & Hpc' & Hs & Hn & Hh)]].
  - split; cbn [shared pool]; rewrite ?Hs, ?Hn, ?Q1; try done.
    + intros h Hin. rewrite Q2. by apply Hst.
    + intros j pcj hj [[-> ->]|[Hne Hj]]%pool_insert_lookup Hhj.
      * destruct Hh as [Hh|Hh]; [|congruence].
        apply (Hheld i pc); [done|congruence].
      * by apply (Hheld j pcj).
    + intros j1 j2 p1 p2 h [[-> ->]|[Hne1 Hj1]]%pool_insert_lookup
        [[-> ->]|[Hne2 Hj2]]%pool_insert_lookup H1 H2; [done| | |].
      * destruct Hh as [Hh|Hh]; [|congruence].
        apply (Hapart i j2 pc p2 h); [done|done|congruence|done].
      * destruct Hh as [Hh|Hh]; [|congruence].
        apply (Hapart j1 i p1 pc h); [done|done|done|congruence].
      * by apply (Hapart j1 j2 p1 p2 h).
    + intros t p ch cs Hin. by apply (Hpar t p ch cs), Q4.
  - rewrite Hs in Hnd, Hst, Hheld. apply list.NoDup_cons in Hnd as [Hnin Hnd].
    simpl in Hnin.
    destruct (Hst h (list_elem_of_here _ _)) as (Hr & Hnp & Hpu).
    split; cbn [shared pool]; rewrite ?Hn, ?Hh; try done.
    + intros h' Hin.
      destruct (Hst h') as (Hr' & Hnp' & Hpu'); [by apply elem_of_cons; right|].
      split; [done|]. split; [|done]. simpl.
      intros [->|?]%elem_of_cons; done.
    + intros j pcj hj [[-> ->]|[Hne Hj]]%pool_insert_lookup Hhj.
      * by simplify_eq.
      * destruct (Hheld j pcj hj Hj Hhj) as [Hr' Hnin'].
        split; [done|]. intros Hin. apply Hnin'. by apply elem_of_cons; right.
    + intros j1 j2 p1 p2 h' [[-> ->]|[Hne1 Hj1]]%pool_insert_lookup
        [[-> ->]|[Hne2 Hj2]]%pool_insert_lookup H1 H2; [done| | |].
      * simplify_eq. destruct (Hheld j2 p2 h Hj2 H2) as [_ Hx].
        destruct Hx. apply list_elem_of_here.
      * simplify_eq. destruct (Hheld j1 p1 h Hj1 H1) as [_ Hx].
        destruct Hx. apply list_elem_of_here.
      * by apply (Hapart j1 j2 p1 p2 h').
    + simpl. by apply list.NoDup_cons.
    + simpl. intros h' [->|Hin]%elem_of_cons; [lia|by apply Hpopped].
    + intros t p ch cs [?|Hin]%elem_of_cons; [done|]. by apply (Hpar t p ch cs).
  - destruct (Hheld i pc h Hi Hpc) as [Hr Hnin].
    assert (Hfresh : nextHandle (shared c) ∉ (globalStateStack (shared c)).*1).
    { intros Hin. destruct (Hst _ Hin) as [? _]. lia. }
    split; cbn [shared pool]; rewrite ?Hs, ?Hn, ?Hh; try done.
    + simpl. by apply list.NoDup_cons.
    + simpl. intros h' [->|Hin]%elem_of_cons.
      * split; [lia|]. split.
        -- intros Hin. apply Hpopped in Hin. lia.
        -- destruct (decide (h = nextHandle (shared c))); [lia|].
           apply pushed_fresh. intros t p ch cs' Hin.
           by apply (Hpar t p ch cs').
      * destruct (Hst h' Hin) as (Hr' & Hnp' & Hpu').
        split; [lia|]. split; [done|].
        destruct (decide (h = h')) as [->|_]; done.
    + intros j pcj hj Hj Hhj.
      assert (Hold : (0 < hj < nextHandle (shared c)) /\
                     hj ∉ (globalStateStack (shared c)).*1).
      { apply pool_insert_lookup in Hj as [[-> ->]|[Hne Hj]].
        - by simplify_eq.
        - by apply (Hheld j pcj). }
      destruct Hold as [Hr' Hnin']. split; [lia|].
      simpl. intros [->|?]%elem_of_cons; [lia|done].
    + intros j1 j2 p1 p2 h' [[-> ->]|[Hne1 Hj1]]%pool_insert_lookup
        [[-> ->]|[Hne2 Hj2]]%pool_insert_lookup H1 H2; [done| | |].
      * apply (Hapart i j2 pc p2 h'); [done|done|congruence|done].
      * apply (Hapart j1 i p1 pc h'); [done|done|done|congruence].
      * by apply (Hapart j1 j2 p1 p2 h').
    + intros h' Hin. apply Hpopped in Hin. lia.
    + intros t p ch cs' [Heq|Hin]%elem_of_cons.
      * simplify_eq. lia.
      * apply Hpar in Hin. lia.
Qed.

Lemma Handles_exec cfg sched k c :
  Handles c -> Handles (exec cfg sched k c).
Proof.
  intros Hc. induction k as [|k IH]; simpl; [done|]. by apply Handles_step.
Qed.

(** ** The history follows the workers *)

Lemma children_app s l k :
  children s (l ++ k) = children s l ++ children s k.
Proof.
  induction l as [|[m1 m2] l IH]; simpl; [done|].
  destruct (IsFeasiblePair s m1 m2); simpl; by rewrite IH.
Qed.

Lemma cursor_reaches_start s : cursor_reaches s [] NULL_NODE NULL_NODE.
Proof. by intros g ps Hps. Qed.

Lemma cursor_reaches_next s seen n1 n2 m1 m2 :
  cursor_reaches s seen n1 n2 -> NextPair s n1 n2 = Some (m1, m2) ->
  cursor_reaches s (seen ++ [(m1, m2)]) m1 m2.
Proof.
  intros Hseen Hn g ps Hps.
  specialize (Hseen (S g) ((m1, m2) :: ps)).
  simpl in Hseen. rewrite Hn, Hps in Hseen. specialize (Hseen eq_refl).
  rewrite length_app, <- app_assoc. simpl.
  by replace (length seen + 1 + g) with (length seen + S g) by lia.
Qed.

Lemma cursor_reaches_end s seen n1 n2 :
  cursor_reaches s seen n1 n2 -> NextPair s n1 n2 = None ->
  pairs_from (length seen + 1) s NULL_NODE NULL_NODE = Some seen.
Proof.
  intros Hseen Hn. specialize (Hseen 1 []). simpl in Hseen.
  rewrite Hn, app_nil_r in Hseen. by apply Hseen.
Qed.

Lemma pc_progress_stable j hist hist' pc :
  (forall h, handle_of pc = Some h -> pushed h hist' = pushed h hist) ->
  (forall ev, ev ∈ hist -> ev ∈ hist') ->
  pc_progress j hist pc -> pc_progress j hist' pc.
Proof.
  intros Hpu Hin.
  destruct pc as [| |h s f|h s|h s|]; simpl; try done.
  - rewrite (Hpu h eq_refl). by destruct f.
  - unfold returned. rewrite (Hpu h eq_refl).
    intros [[t Ht] Hr]. split; [|done]. exists t. by apply Hin.
  - unfold returned. rewrite (Hpu h eq_refl).
    intros [[[t Ht] Hr] Hd]. split; [|by apply Hin].
    split; [|done]. exists t. by apply Hin.
Qed.

Lemma pushed_cons_other t p h ch cs hist :
  p <> h -> pushed h (EvPush t p ch cs :: hist) = pushed h hist.
Proof. intros Hne. unfold pushed. simpl. by rewrite decide_False. Qed.

Lemma Progress_here cfg i e pc pc' e' :
  Step cfg i e pc pc' e' ->
  (forall h, handle_of pc' = Some h -> handle_of pc = None ->
             pushed h (history e) = []) ->
  pc_progress i (history e) pc -> pc_progress i (history e') pc'.
Proof.
  intros Hstep Hnew Hold.
  destruct Hstep as
    [Hemp|h s rest Hpop|Hpos|Hneg|h s Hg|h s Hg Hd|h s Hg Hd
    |h s Hs|h s Hs|h s v Hv|h s Hv
    |h s n1 n2 m1 m2 Hn Hf|h s n1 n2 m1 m2 Hn Hf|h s n1 n2 Hn
    |h s|h s|]; simpl in *; try done.
  - by apply Hnew.
  - unfold returned. rewrite Hg, Hd. simpl. split; [|done].
    exists (Worker i). apply list_elem_of_here.
  - split; [done|]. split; [done|]. exists []. split; [|done].
    apply cursor_reaches_start.
  - destruct Hold as [Hg Hp]. unfold returned. rewrite Hg. simpl.
    split; [|done]. exists (Worker i). apply list_elem_of_here.
  - destruct Hold as [Hg Hp]. unfold returned. rewrite Hg. simpl.
    split; [|done]. exists (Worker i). apply list_elem_of_here.
  - destruct Hold as (Hg & Hd & seen & Hseen & Hp).
    split; [done|]. split; [done|]. exists (seen ++ [(m1, m2)]).
    split; [by eapply cursor_reaches_next|].
    rewrite decide_True, Hp, children_app by done. simpl.
    by rewrite Hf, rev_app_distr.
  - destruct Hold as (Hg & Hd & seen & Hseen & Hp).
    split; [done|]. split; [done|]. exists (seen ++ [(m1, m2)]).
    split; [by eapply cursor_reaches_next|].
    rewrite Hp, children_app. simpl. by rewrite Hf, app_nil_r.
  - destruct Hold as (Hg & Hd & seen & Hseen & Hp).
    unfold returned. rewrite Hg, Hd. simpl.
    split; [exists (Worker i); apply list_elem_of_here|].
    exists (length seen + 1), seen. split; [|done].
    by eapply cursor_reaches_end.
  - destruct Hold as [[t Ht] Hr]. split.
    + split; [|done]. exists t. by apply elem_of_cons; right.
    + apply list_elem_of_here.
Qed.

Lemma Progress_step cfg i c :
  Handles c -> Progress c -> Progress (worker_step cfg i c).
Proof.
  intros Hh Hp. destruct (worker_step_cases cfg i c)
    as [[_ ->]|(pc & pc' & e' & Hi & Hstep & ->)]; [done|].
  intros j pcj [[-> ->]|[Hne Hj]]%pool_insert_lookup; cbn [shared].
  - apply (Progress_here cfg i _ pc _ _ Hstep); [|by apply Hp].
    intros h Hpc' Hpc.
    destruct (Step_delta cfg i _ _ _ _ Hstep)
      as [(_ & _ & _ & [Hc|Hc])
         |[(h0 & s & Hs & _ & _ & _ & Hpc0)|(h0 & cs & Hpc0 & _)]];
      try congruence.
    simplify_eq. apply (hd_stack _ Hh). rewrite Hs. apply list_elem_of_here.
  - specialize (Hp j pcj Hj). revert Hp. apply pc_progress_stable.
    + intros h Hpcj.
      destruct (Step_delta cfg i _ _ _ _ Hstep)
        as [(_ & _ & (_ & Q2 & _) & _)
           |[(h0 & s & _ & _ & -> & _)|(h0 & cs & Hpc0 & _ & _ & _ & ->)]].
      * apply Q2.
      * done.
      * apply pushed_cons_other. intros ->.
        by destruct Hne; apply (hd_apart _ Hh j i pcj pc h).
    + intros ev Hin.
      destruct (Step_delta cfg i _ _ _ _ Hstep)
        as [(_ & _ & (_ & _ & Q3 & _) & _)
           |[(h0 & s & _ & _ & -> & _)|(h0 & cs & _ & _ & _ & _ & ->)]].
      * by apply Q3.
      * by apply elem_of_cons; right.
      * by apply elem_of_cons; right.
Qed.

Lemma pairs_from_mono g g' s n1 n2 ps :
  pairs_from g s n1 n2 = Some ps -> g <= g' ->
  pairs_from g' s n1 n2 = Some ps.
Proof.
  revert g' n1 n2 ps. induction g as [|g IH]; intros g' n1 n2 ps Hps Hle;
    [done|].
  destruct g' as [|g']; [lia|]. simpl in *.
  destruct (NextPair s n1 n2) as [[m1 m2]|]; [|done].
  destruct (pairs_from g s m1 m2) as [r|] eqn:Hr; [|done].
  rewrite (IH g' m1 m2 r); [done|done|lia].
Qed.

(** ** What a returned [ProcessState] has done *)

Lemma ProcessState_loop_inv cfg t h s fuel : forall n1 n2 e b e',
  ProcessState_from fuel cfg t h s (PLoop n1 n2) e = Some (b, e') ->
  exists ps,
    pairs_from fuel s n1 n2 = Some ps /\ b = false /\
    e' = log (EvReturn t h) (pushChildren t h s ps e).
Proof.
  induction fuel as [|fuel IH]; intros n1 n2 e b e' Hrun; [done|].
  cbn [ProcessState_from frame_step] in Hrun. cbn [pairs_from].
  destruct (NextPair s n1 n2) as [[m1 m2]|].
  2:{ simplify_eq. by exists []. }
  destruct (IsFeasiblePair s m1 m2) eqn:Hf.
  - destruct (IH _ _ _ _ _ Hrun) as (ps & Hps & -> & ->).
    exists ((m1, m2) :: ps). rewrite Hps. simpl. by rewrite Hf.
  - destruct (IH _ _ _ _ _ Hrun) as (ps & Hps & -> & ->).
    exists ((m1, m2) :: ps). rewrite Hps. simpl. by rewrite Hf.
Qed.

Lemma ProcessState_inv cfg t h s fuel e b e' :
  ProcessState fuel cfg t h s e = Some (b, e') ->
  (IsGoal s = true /\ (b, e') = goal_result cfg t h s e) \/
  (IsGoal s = false /\ IsDead s = true /\
   b = false /\ e' = log (EvReturn t h) e) \/
  (IsGoal s = false /\ IsDead s = false /\
   exists ps,
     pairs_from fuel s NULL_NODE NULL_NODE = Some ps /\ b = false /\
     e' = log (EvReturn t h) (pushChildren t h s ps e)).
Proof.
  intros Hrun. destruct (IsGoal s) eqn:Hg; [|destruct (IsDead s) eqn:Hd].
  - left. split; [done|].
    pose proof (ProcessState_goal cfg t h s e Hg) as H3.
    unfold ProcessState in *.
    pose proof (ProcessState_from_mono _ (fuel `max` 3) _ _ _ _ _ _ _ Hrun
                  (Nat.le_max_l _ _)) as Ha.
    pose proof (ProcessState_from_mono _ (fuel `max` 3) _ _ _ _ _ _ _ H3
                  (Nat.le_max_r _ _)) as Hb.
    congruence.
  - right; left. unfold ProcessState in Hrun.
    destruct fuel as [|fuel]; [done|]. simpl in Hrun.
    rewrite Hg, Hd in Hrun. by simplify_eq.
  - right; right. split; [done|]. split; [done|].
    unfold ProcessState in Hrun. destruct fuel as [|fuel]; [done|].
    cbn [ProcessState_from frame_step] in Hrun. rewrite Hg, Hd in Hrun.
    destruct (ProcessState_loop_inv _ _ _ _ _ _ _ _ _ _ Hrun)
      as (ps & Hps & -> & ->).
    exists ps. split; [|done].
    apply (pairs_from_mono fuel); [done|lia].
Qed.

Lemma pushChildren_hist t h s ps : forall e,
  pops (history (pushChildren t h s ps e)) = pops (history e) /\
  (forall t' p ch cs,
     EvPush t' p ch cs ∈ history (pushChildren t h s ps e) ->
     p = h \/ EvPush t' p ch cs ∈ history e).
Proof.
  induction ps as [|[m1 m2] r IH]; intros e; simpl; [by split; [|right]|].
  destruct (IsFeasiblePair s m1 m2); [|apply IH].
  destruct (IH (pushChild t h s m1 m2 e)) as [H1 H2]. split; [by rewrite H1|].
  intros t' p ch cs Hin. destruct (H2 t' p ch cs Hin) as [?|Hin']; [by left|].
  simpl in Hin'. apply elem_of_cons in Hin' as [?|?]; [left|right]; congruence.
Qed.

Lemma fmap_rev {A B} (f : A -> B) (l : list A) : f <$> rev l = rev (f <$> l).
Proof.
  induction l as [|a l IH]; simpl; [done|]. by rewrite fmap_app, IH.
Qed.

Lemma with_handles_fst h0 cs : (with_handles h0 cs).*1 = seq h0 (length cs).
Proof. unfold with_handles. apply fst_zip. by rewrite length_seq. Qed.

(** After the root was processed on the calling thread: the frontier holds
    the handles 1, 2, ... in the order of allocation, nothing was popped and
    every push has the root as its parent. *)
Lemma root_handles cfg root fuel b e1 :
  ProcessState fuel cfg Caller rootHandle root initShared = Some (b, e1) ->
  (globalStateStack e1).*1 = rev (seq 1 (nextHandle e1 - 1)) /\
  1 <= nextHandle e1 /\
  pops (history e1) = [] /\
  (forall t p ch cs, EvPush t p ch cs ∈ history e1 -> p = rootHandle).
Proof.
  intros Hrun.
  destruct (ProcessState_inv _ _ _ _ _ _ _ _ Hrun)
    as [[Hg Hres]|[(Hg & Hd & -> & ->)|(Hg & Hd & ps & Hps & -> & ->)]].
  - unfold goal_result in Hres.
    destruct (storeSolutions cfg), (visit cfg); simplify_eq; simpl;
      (split; [done|]); (split; [lia|]); (split; [done|]);
      intros t p ch cs Hin; repeat (apply elem_of_cons in Hin as [?|Hin]);
      by try apply elem_of_nil in Hin.
  - simpl. split; [done|]. split; [lia|]. split; [done|].
    intros t p ch cs Hin. apply elem_of_cons in Hin as [?|Hin]; [done|].
    by apply elem_of_nil in Hin.
  - destruct (pushChildren_spec Caller rootHandle root ps initShared)
      as (H1 & _ & _ & _ & H5).
    destruct (pushChildren_hist Caller rootHandle root ps initShared)
      as (H6 & H7).
    cbn [globalStateStack log nextHandle history]. rewrite H1, H5. simpl.
    rewrite app_nil_r, fmap_rev, with_handles_fst.
    rewrite Nat.sub_0_r.
    split; [done|]. split; [lia|]. split; [by rewrite H6|].
    intros t p ch cs Hin. apply elem_of_cons in Hin as [?|Hin]; [done|].
    destruct (H7 t p ch cs Hin) as [?|Hin']; [done|].
    by apply elem_of_nil in Hin'.
Qed.

Lemma start_Handles cfg root fuel b e1 m :
  ProcessState fuel cfg Caller rootHandle root initShared = Some (b, e1) ->
  Handles (mkConfig e1 (replicate m (Running WGet))) /\
  Progress (mkConfig e1 (replicate m (Running WGet))).
Proof.
  intros Hrun.
  destruct (root_handles cfg root fuel b e1 Hrun) as (Hst & Hn & Hpops & Hpar).
  assert (Hget : forall j pc,
             replicate m (Running WGet) !! j = Some (Running pc) -> pc = WGet).
  { intros j pc [Heq _]%lookup_replicate. congruence. }
  split; [split; cbn [shared pool]|].
  - rewrite Hst. apply NoDup_ListNoDup, NoDup_rev, NoDup_ListNoDup, NoDup_seq.
  - intros h Hin. rewrite Hst, rev_alt in Hin.
    apply elem_of_reverse, elem_of_seq in Hin.
    split; [lia|]. split; [rewrite Hpops; apply not_elem_of_nil|].
    apply pushed_fresh. intros t p ch cs Hp.
    rewrite (Hpar t p ch cs Hp). unfold rootHandle. lia.
  - intros j pc h Hj Hh. by rewrite (Hget j pc Hj) in Hh.
  - intros j1 j2 p1 p2 h Hj1 _ Hh. by rewrite (Hget j1 p1 Hj1) in Hh.
  - rewrite Hpops. constructor.
  - intros h Hin. rewrite Hpops in Hin. by apply elem_of_nil in Hin.
  - intros t p ch cs Hp. rewrite (Hpar t p ch cs Hp). unfold rootHandle. lia.
  - intros j pc Hj. cbn [pool] in Hj. by rewrite (Hget j pc Hj).
Qed.

(** ** The counter and the workers that hold a state *)

Lemma Credits_step cfg i c : Credits c -> Credits (worker_step cfg i c).
Proof.
  intros [Hlen Hact]. destruct (worker_step_cases cfg i c)
    as [[_ ->]|(pc & pc' & e' & Hi & Hstep & ->)]; [done|].
  pose proof (credit_bounds (pool c)) as Hcb.
  pose proof (credit_bounds (<[i:=Running pc']> (pool c))) as Hcb'.
  rewrite length_insert in Hcb'.
  split; cbn [shared pool]; [by rewrite length_insert|].
  rewrite (Step_credit cfg i _ _ _ _ Hstep) by lia.
  rewrite (sumZ_with_insert credit _ _ _ (Running pc') Hi) in Hcb' |- *.
  rewrite Hact, wrap_int16_small; lia.
Qed.

Lemma Credits_exec cfg sched k c : Credits c -> Credits (exec cfg sched k c).
Proof.
  intros Hc. induction k as [|k IH]; simpl; [done|]. by apply Credits_step.
Qed.

Lemma Credits_start e1 m :
  activeWorkerCount e1 = 0%Z -> (Z.of_nat m < 2 ^ 15)%Z ->
  Credits (mkConfig e1 (replicate m (Running WGet))).
Proof.
  intros Hact Hm. split; cbn [shared pool]; [by rewrite length_replicate|].
  rewrite Hact. symmetry. apply sumZ_with_zero. by apply Forall_replicate.
Qed.

Lemma running_step cfg i c :
  Forall is_running (pool c) -> Forall is_running (pool (worker_step cfg i c)).
Proof.
  intros Hr. destruct (worker_step_cases cfg i c)
    as [[_ ->]|(pc & pc' & e' & Hi & Hstep & ->)]; [done|].
  by apply Forall_insert.
Qed.

Lemma running_exec cfg sched k c :
  Forall is_running (pool c) ->
  Forall is_running (pool (exec cfg sched k c)).
Proof.
  intros Hc. induction k as [|k IH]; simpl; [done|]. by apply running_step.
Qed.

Lemma exec_length cfg sched k c :
  length (pool (exec cfg sched k c)) = length (pool c).
Proof.
  induction k as [|k IH]; simpl; [done|]. by rewrite worker_step_length.
Qed.

Lemma finished_running (l : list Slot) :
  Forall is_running l -> forallb finished l = true ->
  l = replicate (length l) (Running WExit).
Proof.
  induction 1 as [|sl l Hsl _ IH]; simpl; [done|].
  intros [Hf Hl]%andb_true_iff. rewrite <- IH by done.
  by destruct sl as [|[| |h s f|h s|h s|]].
Qed.

Lemma root_counter cfg root fuel b e1 :
  ProcessState fuel cfg Caller rootHandle root initShared = Some (b, e1) ->
  activeWorkerCount e1 = 0%Z.
Proof.
  intros Hrun.
  destruct (ProcessState_inv _ _ _ _ _ _ _ _ Hrun)
    as [[Hg Hres]|[(Hg & Hd & -> & ->)|(Hg & Hd & ps & Hps & -> & ->)]].
  - unfold goal_result in Hres.
    by destruct (storeSolutions cfg), (visit cfg); simplify_eq.
  - done.
  - destruct (pushChildren_spec Caller rootHandle root ps initShared)
      as (_ & H2 & _). simpl. by rewrite H2.
Qed.

(** A worker leaves [Run] from the loop test, and only when it reads a
    counter that is not positive; it stands at the loop test without a state
    only after a [GetState] that found the frontier empty. *)
Lemma exit_step cfg i c :
  (pool c !! i <> Some (Running WExit) /\
   pool (worker_step cfg i c) !! i = Some (Running WExit)) <->
  (pool c !! i = Some (Running WTest) /\ (activeWorkerCount (shared c) <= 0)%Z).
Proof.
  split.
  - intros [Hne Hex]. destruct (worker_step_cases cfg i c)
      as [[_ Heq]|(pc & pc' & e' & Hi & Hstep & Heq)];
      rewrite Heq in Hex; [done|].
    cbn [pool] in Hex.
    rewrite list_lookup_insert_eq in Hex by (by eapply lookup_lt_Some).
    simplify_eq. inversion Hstep; subst; [done|congruence].
  - intros [Hi Hact]. split; [congruence|].
    unfold worker_step. rewrite Hi. simpl.
    destruct (Z.ltb_spec 0 (activeWorkerCount (shared c))); [lia|].
    simpl. apply list_lookup_insert_eq. by eapply lookup_lt_Some.
Qed.

Lemma test_step cfg i c :
  (pool c !! i <> Some (Running WTest) /\
   pool (worker_step cfg i c) !! i = Some (Running WTest)) <->
  (pool c !! i = Some (Running WGet) /\ globalStateStack (shared c) = []).
Proof.
  split.
  - intros [Hne Hex]. destruct (worker_step_cases cfg i c)
      as [[_ Heq]|(pc & pc' & e' & Hi & Hstep & Heq)];
      rewrite Heq in Hex; [done|].
    cbn [pool] in Hex.
    rewrite list_lookup_insert_eq in Hex by (by eapply lookup_lt_Some).
    simplify_eq. by inversion Hstep; subst.
  - intros [Hi Hst]. split; [congruence|].
    unfold worker_step. rewrite Hi. simpl. unfold GetState. rewrite Hst.
    simpl. apply list_lookup_insert_eq. by eapply lookup_lt_Some.
Qed.

End Accounting.

(** With a finite expansion tree, between 1 and 32767 threads and a fair
    schedule the call returns. *)
Lemma FindAllMatchings_completes (n : Z) (store : bool) (cpu0 : Z)
    (v : option (St -> bool)) (root : St) (sched : nat -> nat) :
  (0 < n < 2 ^ 15)%Z ->
  FiniteExpansion root ->
  fair (Z.to_nat n) sched ->
  exists fuel steps c,
    FindAllMatchings (ParallelMatchingEngine n store cpu0 v) fuel sched steps
                     root initShared = Some (true, c) /\
    pool c = replicate (Z.to_nat n) (Running WExit) /\
    globalStateStack (shared c) = [] /\
    activeWorkerCount (shared c) = 0%Z.
Proof.
  intros Hn (f & t & Ht) Hfair.
  set (cfg := ParallelMatchingEngine n store cpu0 v).
  destruct (root_run f cfg root t Ht)
    as (fuel & b & e1 & Hroot & H1 & H2 & H3 & H4 & H5).
  pose proof (StartPool_spawns n store cpu0 v ltac:(lia)) as Hp.
  destruct (start_Counting f n store cpu0 v root t fuel b e1 _
              ltac:(lia) Ht Hroot Hp) as (_ & _ & Hc).
  destruct (pool_terminates f cfg (goals t) sched _ Hc)
    as (k & Hfin & Hst & Hact).
  { cbn [pool]. by rewrite length_replicate. }
  exists fuel, k, (exec cfg sched k
                     (mkConfig e1 (replicate (Z.to_nat n) (Running WGet)))).
  split; [|split; [|done]].
  - unfold FindAllMatchings. fold cfg. rewrite Hroot. fold cfg in Hp.
    rewrite Hp. by rewrite Hfin.
  - assert (Hrun : Forall is_running
               (pool (mkConfig e1 (replicate (Z.to_nat n) (Running WGet))))).
    { cbn [pool]. by apply Forall_replicate. }
    rewrite (finished_running _ (running_exec cfg sched k _ Hrun) Hfin).
    by rewrite exec_length; cbn [pool]; rewrite length_replicate.
Qed.

(** * The claims *)

(** C1 (as amended).  For a root state whose expansion tree is finite, a
    thread count [n] with [0 < n <= 32767] and a fair schedule of the
    workers, [FindAllMatchings] returns [true] after finitely many steps:
    every one of the [n] workers has left [Run], the frontier is empty and
    the counter reads zero.  In every configuration of such a run a worker
    leaves [Run] exactly when it stands at the loop test without a state and
    reads the counter as zero, and it stands there exactly after a
    [GetState] that found the frontier empty; the frontier itself may have
    been refilled in between. *)
Theorem Run_terminates (n : Z) (store : bool) (cpu0 : Z)
    (v : option (St -> bool)) (root : St) (sched : nat -> nat) :
  (0 < n < 2 ^ 15)%Z ->
  FiniteExpansion root ->
  fair (Z.to_nat n) sched ->
  (exists fuel steps c,
     FindAllMatchings (ParallelMatchingEngine n store cpu0 v) fuel sched steps
                      root initShared = Some (true, c) /\
     pool c = replicate (Z.to_nat n) (Running WExit) /\
     globalStateStack (shared c) = [] /\
     activeWorkerCount (shared c) = 0%Z) /\
  (forall fuel b e1 p sched' k i,
     ProcessState fuel (ParallelMatchingEngine n store cpu0 v) Caller
                  rootHandle root initShared = Some (b, e1) ->
     StartPool (ParallelMatchingEngine n store cpu0 v) = Some p ->
     forall c, c = exec (ParallelMatchingEngine n store cpu0 v) sched' k
                        (mkConfig e1 p) ->
     ((pool c !! i <> Some (Running WExit) /\
       pool (worker_step (ParallelMatchingEngine n store cpu0 v) i c) !! i
       = Some (Running WExit)) <->
      (pool c !! i = Some (Running WTest) /\
       activeWorkerCount (shared c) = 0%Z)) /\
     ((pool c !! i <> Some (Running WTest) /\
       pool (worker_step (ParallelMatchingEngine n store cpu0 v) i c) !! i
       = Some (Running WTest)) <->
      (pool c !! i = Some (Running WGet) /\
       globalStateStack (shared c) = []))).
Proof.
  intros Hn Hfin Hfair. set (cfg := ParallelMatchingEngine n store cpu0 v).
  split; [by apply FindAllMatchings_completes|].
  intros fuel b e1 p sched' k i Hroot Hp c ->. fold cfg in Hroot, Hp |- *.
    unfold cfg in Hp. rewrite StartPool_spawns in Hp by lia. simplify_eq.
    fold cfg.
    assert (Hcr : Credits (exec cfg sched' k
                     (mkConfig e1 (replicate (Z.to_nat n) (Running WGet))))).
    { apply Credits_exec, Credits_start; [|lia].
      by apply (root_counter cfg root fuel b). }
    destruct Hcr as [_ Hact].
    pose proof (credit_bounds (pool (exec cfg sched' k
                  (mkConfig e1 (replicate (Z.to_nat n) (Running WGet)))))) as Hb.
    split; [|apply test_step].
    rewrite exit_step. split; intros [? ?]; (split; [done|lia]).
Qed.

(** C2.  For a fixed root state with a finite expansion tree, every
    completed call of [FindAllMatchings] leaves the same value of
    [GetSolutionsCount], whatever the number of workers and the order in
    which they were scheduled (and whatever the other settings). *)
Theorem solutions_count_thread_invariant (root : St)
    (n1 n2 : Z) (store1 store2 : bool) (cpu1 cpu2 : Z)
    (v1 v2 : option (St -> bool)) (fuel1 fuel2 : nat)
    (sched1 sched2 : nat -> nat) (steps1 steps2 : nat)
    (b1 b2 : bool) (c1 c2 : Config) :
  FiniteExpansion root ->
  (0 < n1 < 2 ^ 16)%Z -> (0 < n2 < 2 ^ 16)%Z ->
  FindAllMatchings (ParallelMatchingEngine n1 store1 cpu1 v1) fuel1 sched1
                   steps1 root initShared = Some (b1, c1) ->
  FindAllMatchings (ParallelMatchingEngine n2 store2 cpu2 v2) fuel2 sched2
                   steps2 root initShared = Some (b2, c2) ->
  GetSolutionsCount (shared c1) = GetSolutionsCount (shared c2).
Proof.
  intros (f & t & Ht) Hn1 Hn2 Hrun1 Hrun2.
  destruct (FindAllMatchings_account f _ _ _ _ _ _ _ _ t _ _ Hn1 Ht Hrun1)
    as [-> _].
  by destruct (FindAllMatchings_account f _ _ _ _ _ _ _ _ t _ _ Hn2 Ht Hrun2)
    as [-> _].
Qed.

(** C7 (as amended).  With [storeSolutions] enabled, once
    [FindAllMatchings] has returned, [GetSolutionsCount] is the length of
    the solution log reduced modulo 2^32; the two are equal when the log
    holds fewer than 2^32 solutions. *)
Theorem log_length_matches_count (root : St) (n : Z) (cpu0 : Z)
    (v : option (St -> bool)) (fuel : nat) (sched : nat -> nat) (steps : nat)
    (b : bool) (c : Config) :
  FiniteExpansion root ->
  (0 < n < 2 ^ 16)%Z ->
  FindAllMatchings (ParallelMatchingEngine n true cpu0 v) fuel sched steps
                   root initShared = Some (b, c) ->
  GetSolutionsCount (shared c)
  = wrap_uint32 (Z.of_nat (length (solutions (shared c)))) /\
  ((Z.of_nat (length (solutions (shared c))) < 2 ^ 32)%Z ->
   GetSolutionsCount (shared c) = Z.of_nat (length (solutions (shared c)))).
Proof.
  intros (f & t & Ht) Hn Hrun.
  destruct (FindAllMatchings_account f _ _ _ _ _ _ _ _ t _ _ Hn Ht Hrun)
    as (Hcount & Hlog & _).
  rewrite Hcount, (Hlog eq_refl). split; [done|].
  intros Hlt. unfold wrap_uint32. apply Z.mod_small. lia.
Qed.

(** The invariants of a run of the pool, from the configuration that
    [StartPool] leaves. *)
Lemma run_invariants (n : Z) (store : bool) (cpu0 : Z)
    (v : option (St -> bool)) (root : St) (fuel : nat) (b : bool)
    (e1 : Shared) (p : list Slot) (sched : nat -> nat) (k : nat) :
  (0 <= n < 2 ^ 16)%Z ->
  ProcessState fuel (ParallelMatchingEngine n store cpu0 v) Caller rootHandle
               root initShared = Some (b, e1) ->
  StartPool (ParallelMatchingEngine n store cpu0 v) = Some p ->
  Credits (exec (ParallelMatchingEngine n store cpu0 v) sched k
                (mkConfig e1 p)) /\
  Handles (exec (ParallelMatchingEngine n store cpu0 v) sched k
                (mkConfig e1 p)) /\
  Progress (exec (ParallelMatchingEngine n store cpu0 v) sched k
                 (mkConfig e1 p)).
Proof.
  intros Hn Hroot Hp.
  destruct (Z.lt_ge_cases n (2 ^ 15)) as [Hlt|Hge].
  2:{ rewrite StartPool_overruns in Hp by lia. discriminate. }
  rewrite StartPool_spawns in Hp by lia. simplify_eq.
  destruct (start_Handles _ root fuel b e1 (Z.to_nat n) Hroot) as [Hh Hpr].
  split; [|split].
  - apply Credits_exec, Credits_start; [|lia].
    exact (root_counter _ _ _ _ _ Hroot).
  - by apply Handles_exec.
  - induction k as [|k IH]; simpl; [done|].
    apply Progress_step; [by apply Handles_exec|done].
Qed.

(** C3.  In every configuration of a run of the pool the counter is not
    negative; a step lowers it only when the worker stands at line 102, and
    a worker stands there for a popped state only after [ProcessState] on
    that state has returned, every child of the state has been pushed (the
    pushes recorded for its handle are the children, one per feasible pair
    of the exhausted cursor, in cursor order) and the state has been
    deleted; the step then lowers the counter by one. *)
Theorem decrement_after_children (n : Z) (store : bool) (cpu0 : Z)
    (v : option (St -> bool)) (root : St) (fuel : nat) (b : bool)
    (e1 : Shared) (p : list Slot) (sched : nat -> nat) (k : nat)
    (c : Config) :
  (0 <= n < 2 ^ 16)%Z ->
  ProcessState fuel (ParallelMatchingEngine n store cpu0 v) Caller rootHandle
               root initShared = Some (b, e1) ->
  StartPool (ParallelMatchingEngine n store cpu0 v) = Some p ->
  c = exec (ParallelMatchingEngine n store cpu0 v) sched k (mkConfig e1 p) ->
  (0 <= activeWorkerCount (shared c))%Z /\
  (forall i,
     (activeWorkerCount
        (shared (worker_step (ParallelMatchingEngine n store cpu0 v) i c))
      < activeWorkerCount (shared c))%Z ->
     exists h s, pool c !! i = Some (Running (WDec h s))) /\
  (forall i h s,
     pool c !! i = Some (Running (WDec h s)) ->
     (exists t, EvReturn t h ∈ history (shared c)) /\
     (if IsGoal s || IsDead s then pushed h (history (shared c)) = []
      else exists g ps,
             pairs_from g s NULL_NODE NULL_NODE = Some ps /\
             pushed h (history (shared c)) = rev (children s ps)) /\
     EvDelete (Worker i) h ∈ history (shared c) /\
     activeWorkerCount
       (shared (worker_step (ParallelMatchingEngine n store cpu0 v) i c))
     = (activeWorkerCount (shared c) - 1)%Z).
Proof.
  intros Hn Hroot Hp ->.
  set (cfg := ParallelMatchingEngine n store cpu0 v) in *.
  destruct (run_invariants n store cpu0 v root fuel b e1 p sched k Hn Hroot Hp)
    as (Hcr & Hh & Hpr).
  fold cfg in Hcr, Hh, Hpr. set (c := exec cfg sched k (mkConfig e1 p)) in *.
  pose proof (Credits_step cfg) as Hstep.
  destruct Hcr as [Hlen Hact].
  pose proof (credit_bounds (pool c)) as Hb.
  split; [lia|]. split.
  - intros i Hlt. destruct (Hstep i c (conj Hlen Hact)) as [_ Hact'].
    destruct (worker_step_cases cfg i c)
      as [[_ Heq]|(pc & pc' & e' & Hi & Hst & Heq)];
      rewrite Heq in Hlt, Hact'; [lia|].
    cbn [shared pool] in Hlt, Hact'.
    rewrite (sumZ_with_insert credit _ _ _ (Running pc') Hi) in Hact'.
    assert (Hcred : (credit (Running pc') < credit (Running pc))%Z) by lia.
    destruct Hst; unfold credit in Hcred; simpl in Hcred; try lia.
    by exists h, s.
  - intros i h s Hi. destruct (Hpr i _ Hi) as [[Hret Hpu] Hdel].
    split; [done|]. split; [done|]. split; [done|].
    unfold worker_step. rewrite Hi. simpl.
    apply wrap_int16_small.
    pose proof (sumZ_with_insert credit _ _ _ (Running WGet) Hi) as Hs.
    pose proof (credit_bounds (<[i:=Running WGet]> (pool c))) as Hb'.
    rewrite Hs in Hb'. unfold credit in Hb' at 2 4. simpl in Hb'. lia.
Qed.

(** C4.  [GetState] on a non-empty frontier removes and returns the entry
    pushed last and increments the counter in the same step; on an empty
    frontier it returns null and changes nothing.  In every configuration of
    a run of the pool the increment is by exactly one, and no handle has been
    returned by two pops. *)
Theorem GetState_pops_latest (n : Z) (store : bool) (cpu0 : Z)
    (v : option (St -> bool)) (root : St) (fuel : nat) (b : bool)
    (e1 : Shared) (p : list Slot) (sched : nat -> nat) (k : nat)
    (c : Config) :
  (0 <= n < 2 ^ 16)%Z ->
  ProcessState fuel (ParallelMatchingEngine n store cpu0 v) Caller rootHandle
               root initShared = Some (b, e1) ->
  StartPool (ParallelMatchingEngine n store cpu0 v) = Some p ->
  c = exec (ParallelMatchingEngine n store cpu0 v) sched k (mkConfig e1 p) ->
  (forall e x rest,
     globalStateStack e = x :: rest ->
     GetState e
     = (Some x,
        mkShared rest (wrap_int16 (activeWorkerCount e + 1)) (solCount e)
                 (solutions e) (nextHandle e) (history e))) /\
  (forall e, globalStateStack e = [] -> GetState e = (None, e)) /\
  (forall e x,
     (GetState (PutState x e)).1 = Some x /\
     globalStateStack (GetState (PutState x e)).2 = globalStateStack e) /\
  (forall i x rest,
     pool c !! i = Some (Running WGet) ->
     globalStateStack (shared c) = x :: rest ->
     activeWorkerCount
       (shared (worker_step (ParallelMatchingEngine n store cpu0 v) i c))
     = (activeWorkerCount (shared c) + 1)%Z /\
     globalStateStack
       (shared (worker_step (ParallelMatchingEngine n store cpu0 v) i c))
     = rest /\
     pool (worker_step (ParallelMatchingEngine n store cpu0 v) i c) !! i
     = Some (Running (WProc x.1 x.2 PEnter))) /\
  NoDup (pops (history (shared c))).
Proof.
  intros Hn Hroot Hp ->.
  set (cfg := ParallelMatchingEngine n store cpu0 v) in *.
  destruct (run_invariants n store cpu0 v root fuel b e1 p sched k Hn Hroot Hp)
    as (Hcr & Hh & Hpr).
  fold cfg in Hcr, Hh, Hpr. set (c := exec cfg sched k (mkConfig e1 p)) in *.
  split; [|split; [|split; [|split]]].
  - intros e x rest Hst. unfold GetState. by rewrite Hst.
  - intros e Hst. unfold GetState. by rewrite Hst.
  - intros e x. by unfold GetState, PutState.
  - intros i [h s] rest Hi Hst. destruct Hcr as [Hlen Hact].
    unfold worker_step. rewrite Hi. simpl. unfold GetState. rewrite Hst. simpl.
    split; [|split; [done|]].
    + apply wrap_int16_small.
      pose proof (sumZ_with_insert credit _ _ _ (Running (WProc h s PEnter)) Hi)
        as Hs.
      pose proof (credit_bounds (<[i:=Running (WProc h s PEnter)]> (pool c)))
        as Hb'.
      pose proof (credit_bounds (pool c)) as Hb.
      rewrite Hs, length_insert in Hb'. unfold credit in Hb' at 2 3 5 6.
      simpl in Hb'. lia.
    + apply list_lookup_insert_eq. by eapply lookup_lt_Some.
  - apply (hd_pops _ Hh).
Qed.

(** C5.  On a goal state [ProcessState] increments the solution counter
    once, appends one snapshot of the state to the log exactly when
    [storeSolutions] is set, pushes nothing, calls the visitor once when one
    is configured and returns its result, and returns [true] otherwise. *)
Theorem ProcessState_goal_state (cfg : Settings) (t : Thread) (h : Handle)
    (s : St) (e : Shared) (fuel : nat) :
  IsGoal s = true -> 3 <= fuel ->
  exists e',
    ProcessState fuel cfg t h s e
    = Some (match visit cfg with Some v => v s | None => true end, e') /\
    solCount e' = wrap_uint32 (solCount e + 1) /\
    solutions e'
    = (if storeSolutions cfg then solutions e ++ [GetCoreSet s]
       else solutions e) /\
    globalStateStack e' = globalStateStack e /\
    nextHandle e' = nextHandle e /\
    activeWorkerCount e' = activeWorkerCount e /\
    history e'
    = EvReturn t h
        :: match visit cfg with Some _ => [EvVisit t h] | None => [] end
        ++ (if storeSolutions cfg then [EvStore t h] else [])
        ++ EvCount t h :: history e.
Proof.
  intros Hg Hfuel. exists (goal_result cfg t h s e).2. split.
  - unfold ProcessState.
    rewrite (ProcessState_from_mono 3 fuel cfg t h s PEnter e
               (goal_result cfg t h s e)); [|by apply ProcessState_goal|done].
    unfold goal_result. by destruct (visit cfg).
  - unfold goal_result.
    by destruct (storeSolutions cfg), (visit cfg).
Qed.

(** C6.  On a state that is not a goal [ProcessState] returns [false] and
    leaves the solution counter and the log alone.  A dead state gets no
    children.  Otherwise the call returns once the cursor, started from the
    null pair and fed its own last result, is exhausted, and has then pushed
    one copy of the state extended by the pair for each feasible pair the
    cursor returned, in cursor order (the last one on top). *)
Theorem ProcessState_non_goal_state (cfg : Settings) (t : Thread)
    (h : Handle) (s : St) (e : Shared) :
  IsGoal s = false ->
  (forall fuel b e',
     ProcessState fuel cfg t h s e = Some (b, e') ->
     b = false /\ solCount e' = solCount e /\ solutions e' = solutions e) /\
  (IsDead s = true ->
   forall fuel, 1 <= fuel ->
   exists e',
     ProcessState fuel cfg t h s e = Some (false, e') /\
     globalStateStack e' = globalStateStack e) /\
  (IsDead s = false ->
   (forall g ps fuel,
      pairs_from g s NULL_NODE NULL_NODE = Some ps ->
      S (S (length ps)) <= fuel ->
      exists e',
        ProcessState fuel cfg t h s e = Some (false, e') /\
        globalStateStack e'
        = rev (with_handles (nextHandle e) (children s ps))
          ++ globalStateStack e) /\
   (forall fuel b e',
      ProcessState fuel cfg t h s e = Some (b, e') ->
      exists ps,
        pairs_from fuel s NULL_NODE NULL_NODE = Some ps /\
        globalStateStack e'
        = rev (with_handles (nextHandle e) (children s ps))
          ++ globalStateStack e)).
Proof.
  intros Hg. split; [|split].
  - intros fuel b e' Hrun.
    destruct (ProcessState_inv _ _ _ _ _ _ _ _ Hrun)
      as [[Hg' _]|[(_ & Hd & -> & ->)|(_ & Hd & ps & Hps & -> & ->)]];
      [congruence|done|].
    destruct (pushChildren_spec t h s ps e) as (_ & _ & H3 & H4 & _).
    by rewrite <- H3, <- H4.
  - intros Hd fuel Hfuel. exists (log (EvReturn t h) e). split; [|done].
    unfold ProcessState.
    apply (ProcessState_from_mono 1); [by apply ProcessState_dead|done].
  - intros Hd. split.
    + intros g ps fuel Hps Hfuel.
      exists (log (EvReturn t h) (pushChildren t h s ps e)). split.
      * unfold ProcessState. apply (ProcessState_from_mono (S (S (length ps))));
          [by apply (ProcessState_node cfg t h s g)|done].
      * by destruct (pushChildren_spec t h s ps e) as (H1 & _).
    + intros fuel b e' Hrun.
      destruct (ProcessState_inv _ _ _ _ _ _ _ _ Hrun)
        as [[Hg' _]|[(_ & Hd' & _)|(_ & _ & ps & Hps & -> & ->)]];
        [congruence|congruence|].
      exists ps. split; [done|].
      by destruct (pushChildren_spec t h s ps e) as (H1 & _).
Qed.

Lemma frame_step_visitors (n : Z) (size : nat) (store : bool) (cpu0 : Z)
    (v1 v2 : St -> bool) t h s f e :
  (frame_step (mkSettings n size store cpu0 (Some v1)) t h s f e).2
  = (frame_step (mkSettings n size store cpu0 (Some v2)) t h s f e).2 /\
  match (frame_step (mkSettings n size store cpu0 (Some v1)) t h s f e).1,
        (frame_step (mkSettings n size store cpu0 (Some v2)) t h s f e).1 with
  | Continue f1, Continue f2 => f1 = f2
  | Return _, Return _ => True
  | _, _ => False
  end.
Proof.
  destruct f as [| | |n1 n2]; simpl.
  - by destruct (IsGoal s), (IsDead s).
  - by destruct store.
  - done.
  - destruct (NextPair s n1 n2) as [[m1 m2]|]; [|done].
    by destruct (IsFeasiblePair s m1 m2).
Qed.

Lemma ProcessState_visitors (n : Z) (size : nat) (store : bool) (cpu0 : Z)
    (v1 v2 : St -> bool) t h s fuel : forall f e,
  option_map snd
    (ProcessState_from fuel (mkSettings n size store cpu0 (Some v1)) t h s f e)
  = option_map snd
    (ProcessState_from fuel (mkSettings n size store cpu0 (Some v2)) t h s f e).
Proof.
  induction fuel as [|fuel IH]; intros f e; [done|]. simpl.
  destruct (frame_step_visitors n size store cpu0 v1 v2 t h s f e) as [He Ho].
  destruct (frame_step (mkSettings n size store cpu0 (Some v1)) t h s f e)
    as [[f1|b1] e1'],
    (frame_step (mkSettings n size store cpu0 (Some v2)) t h s f e)
    as [[f2|b2] e2']; simpl in *; subst; try done.
Qed.

(** C9.  The worker loop does not look at what [ProcessState] returns: with
    two visitors that answer differently, every step of every worker, every
    run of the pool and the whole of [FindAllMatchings] are the same. *)
Theorem visitor_result_unused (n : Z) (store : bool) (cpu0 : Z)
    (v1 v2 : St -> bool) :
  (forall i c,
     worker_step (ParallelMatchingEngine n store cpu0 (Some v1)) i c
     = worker_step (ParallelMatchingEngine n store cpu0 (Some v2)) i c) /\
  (forall sched k c,
     exec (ParallelMatchingEngine n store cpu0 (Some v1)) sched k c
     = exec (ParallelMatchingEngine n store cpu0 (Some v2)) sched k c) /\
  (forall fuel sched steps root e,
     FindAllMatchings (ParallelMatchingEngine n store cpu0 (Some v1))
                      fuel sched steps root e
     = FindAllMatchings (ParallelMatchingEngine n store cpu0 (Some v2))
                        fuel sched steps root e).
Proof.
  assert (Hstep : forall i c,
     worker_step (ParallelMatchingEngine n store cpu0 (Some v1)) i c
     = worker_step (ParallelMatchingEngine n store cpu0 (Some v2)) i c).
  { intros i c. unfold worker_step, ParallelMatchingEngine.
    destruct (pool c !! i) as [[|pc]|]; try done.
    destruct pc as [| |h s f|h s|h s|]; try done. simpl.
    destruct (frame_step_visitors (wrap_int16 n) (Z.to_nat n) store cpu0
                v1 v2 (Worker i) h s f (shared c)) as [He Ho].
    destruct (frame_step _ (Worker i) h s f (shared c)) as [[f1|b1] e1'],
      (frame_step _ (Worker i) h s f (shared c)) as [[f2|b2] e2'];
      simpl in *; subst; done. }
  assert (Hexec : forall sched k c,
     exec (ParallelMatchingEngine n store cpu0 (Some v1)) sched k c
     = exec (ParallelMatchingEngine n store cpu0 (Some v2)) sched k c).
  { intros sched k c. induction k as [|k IH]; simpl; [done|].
    by rewrite IH, Hstep. }
  split; [done|]. split; [done|].
  intros fuel sched steps root e. unfold FindAllMatchings, ProcessState.
  pose proof (ProcessState_visitors (wrap_int16 n) (Z.to_nat n) store cpu0
                v1 v2 Caller rootHandle root fuel PEnter e) as Hroot.
  unfold ParallelMatchingEngine in *.
  destruct (ProcessState_from fuel _ Caller rootHandle root PEnter e)
    as [[b1 e1]|],
    (ProcessState_from fuel _ Caller rootHandle root PEnter e)
    as [[b2 e2]|]; simpl in Hroot; simplify_eq; [|done].
  unfold StartPool. simpl.
  destruct (StartPool_from _ 0 _) as [p|]; [|done].
  by rewrite Hexec.
Qed.

(** C10.  When the visitor is called on a goal state the solution counter
    has already been incremented and, with [storeSolutions] set, the
    snapshot has already been appended; the call of the visitor changes
    neither, and what [ProcessState] leaves behind does not depend on the
    visitor or on its answer. *)
Theorem count_and_store_before_visit (n : Z) (size : nat) (store : bool)
    (cpu0 : Z) (t : Thread) (h : Handle) (s : St) (e : Shared) :
  IsGoal s = true ->
  exists e_count e_visit,
    solCount e_visit = wrap_uint32 (solCount e + 1) /\
    solutions e_visit
    = (if store then solutions e ++ [GetCoreSet s] else solutions e) /\
    history e_visit
    = (if store then [EvStore t h] else []) ++ EvCount t h :: history e /\
    forall v : St -> bool,
      frame_step (mkSettings n size store cpu0 (Some v)) t h s PEnter e
      = (Continue PStore, e_count) /\
      frame_step (mkSettings n size store cpu0 (Some v)) t h s PStore e_count
      = (Continue PVisit, e_visit) /\
      frame_step (mkSettings n size store cpu0 (Some v)) t h s PVisit e_visit
      = (Return (v s), log (EvReturn t h) (log (EvVisit t h) e_visit)) /\
      ProcessState 3 (mkSettings n size store cpu0 (Some v)) t h s e
      = Some (v s, log (EvReturn t h) (log (EvVisit t h) e_visit)) /\
      solCount (log (EvReturn t h) (log (EvVisit t h) e_visit))
      = solCount e_visit /\
      solutions (log (EvReturn t h) (log (EvVisit t h) e_visit))
      = solutions e_visit.
Proof.
  intros Hg. exists (log (EvCount t h) (incrSolCount e)).
  exists (if store
          then log (EvStore t h)
                   (appendSolution (GetCoreSet s)
                      (log (EvCount t h) (incrSolCount e)))
          else log (EvCount t h) (incrSolCount e)).
  split; [by destruct store|]. split; [by destruct store|].
  split; [by destruct store|].
  intros v. unfold ProcessState. simpl. rewrite Hg. by destruct store.
Qed.

(** ** The root object is never deleted *)

Lemma Step_deleted cfg i e pc pc' e' :
  Step cfg i e pc pc' e' ->
  forall t h,
    EvDelete t h ∈ history e' ->
    EvDelete t h ∈ history e \/ handle_of pc = Some h.
Proof.
  destruct 1; simpl; intros t0 h0 Hin;
    repeat (apply elem_of_cons in Hin as [Heq|Hin]; [try done|]);
    auto; simplify_eq; auto.
Qed.

Lemma pushChildren_events t h s ps : forall e ev,
  ev ∈ history (pushChildren t h s ps e) ->
  ev ∈ history e \/ exists ch cs, ev = EvPush t h ch cs.
Proof.
  induction ps as [|[m1 m2] r IH]; intros e ev Hin; simpl in *; [by left|].
  destruct (IsFeasiblePair s m1 m2); [|by apply IH].
  destruct (IH _ _ Hin) as [Hin'|?]; [|by right].
  simpl in Hin'. apply elem_of_cons in Hin' as [->|?]; [right|by left].
  by eexists _, _.
Qed.

Lemma root_not_deleted cfg root fuel b e1 :
  ProcessState fuel cfg Caller rootHandle root initShared = Some (b, e1) ->
  forall t h, EvDelete t h ∉ history e1.
Proof.
  intros Hrun t0 h0 Hin.
  destruct (ProcessState_inv _ _ _ _ _ _ _ _ Hrun)
    as [[Hg Hres]|[(Hg & Hd & -> & ->)|(Hg & Hd & ps & Hps & -> & ->)]].
  - unfold goal_result in Hres.
    destruct (storeSolutions cfg), (visit cfg); simplify_eq; simpl in Hin;
      repeat (apply elem_of_cons in Hin as [?|Hin]; [done|]);
      by apply elem_of_nil in Hin.
  - simpl in Hin. apply elem_of_cons in Hin as [?|Hin]; [done|].
    by apply elem_of_nil in Hin.
  - simpl in Hin. apply elem_of_cons in Hin as [?|Hin]; [done|].
    apply pushChildren_events in Hin as [Hin|(ch & cs & ?)]; [|done].
    by apply elem_of_nil in Hin.
Qed.

(** With at most 32767 threads: [StartPool] starts exactly that many
    workers, a call of [FindAllMatchings] that returns returns [true] with
    all of them joined, and no thread has deleted the caller's root. *)
Lemma FindAllMatchings_lifecycle (n : Z) (store : bool) (cpu0 : Z)
    (v : option (St -> bool)) (root : St) (fuel : nat) (sched : nat -> nat)
    (steps : nat) (b : bool) (c : Config) :
  (0 <= n < 2 ^ 15)%Z ->
  FindAllMatchings (ParallelMatchingEngine n store cpu0 v) fuel sched steps
                   root initShared = Some (b, c) ->
  b = true /\
  StartPool (ParallelMatchingEngine n store cpu0 v)
  = Some (replicate (Z.to_nat n) (Running WGet)) /\
  pool c = replicate (Z.to_nat n) (Running WExit) /\
  (forall t, EvDelete t rootHandle ∉ history (shared c)).
Proof.
  intros Hn Hrun.
  destruct (FindAllMatchings_inv _ _ _ _ _ _ _ _ Hrun)
    as (b0 & e1 & p & Hroot & Hp & -> & Hfin & ->).
  pose proof (StartPool_spawns n store cpu0 v Hn) as Hp'.
  rewrite Hp' in Hp. simplify_eq.
  set (cfg := ParallelMatchingEngine n store cpu0 v) in *.
  set (c0 := mkConfig e1 (replicate (Z.to_nat n) (Running WGet))) in *.
  split; [done|]. split; [done|]. split.
  - assert (Hrunning : Forall is_running (pool c0)).
    { cbn [pool c0]. by apply Forall_replicate. }
    rewrite (finished_running _ (running_exec cfg sched steps _ Hrunning) Hfin).
    by rewrite exec_length; cbn [pool c0]; rewrite length_replicate.
  - destruct (start_Handles cfg root fuel b0 e1 (Z.to_nat n) Hroot) as [Hh _].
    fold c0 in Hh. clear Hfin Hrun.
    induction steps as [|k IH]; intros t Hin.
    + by apply (root_not_deleted cfg root fuel b0 e1 Hroot t rootHandle).
    + simpl in Hin. pose proof (Handles_exec cfg sched k c0 Hh) as Hk.
      destruct (worker_step_cases cfg (sched k) (exec cfg sched k c0))
        as [[_ Heq]|(pc & pc' & e' & Hi & Hstep & Heq)];
        rewrite Heq in Hin; [by apply (IH t)|].
      cbn [shared] in Hin.
      destruct (Step_deleted cfg _ _ _ _ _ Hstep t rootHandle Hin)
        as [Hold|Hheld]; [by apply (IH t)|].
      destruct (hd_held _ Hk _ _ _ Hi Hheld) as [Hpos _].
      unfold rootHandle in Hpos. lia.
Qed.

(** C8, at the thread count 40000.  The constructor stores the count in the
    16-bit member as -25536 and sizes the vector with 40000; the loop of
    [StartPool] compares its index with the member converted to [size_t],
    runs past the last element of the vector, and [FindAllMatchings] has no
    result. *)
Theorem StartPool_overruns_at_40000 (store : bool) (cpu0 : Z)
    (v : option (St -> bool)) :
  numThreads (ParallelMatchingEngine 40000 store cpu0 v) = (-25536)%Z /\
  Z.of_nat (poolSize (ParallelMatchingEngine 40000 store cpu0 v)) = 40000%Z /\
  to_size_t (numThreads (ParallelMatchingEngine 40000 store cpu0 v))
  = (2 ^ 64 - 25536)%Z /\
  StartPool (ParallelMatchingEngine 40000 store cpu0 v) = None /\
  (forall fuel sched steps root e,
     FindAllMatchings (ParallelMatchingEngine 40000 store cpu0 v) fuel sched
                      steps root e = None).
Proof.
  assert (Hp : StartPool (ParallelMatchingEngine 40000 store cpu0 v) = None).
  { apply StartPool_overruns. lia. }
  split; [done|]. split; [simpl; lia|]. split; [done|]. split; [done|].
  intros fuel sched steps root e. unfold FindAllMatchings. rewrite Hp.
  by destruct (ProcessState fuel _ Caller rootHandle root e) as [[b e1]|].
Qed.

(** * More of the engine

    The members and functions the statements above leave aside, and more
    invariants of a run. *)

(** The engine as the constructor leaves it: no state, no solution, a vector
    of [poolSize] threads that do not run. *)
Definition constructed (cfg : Settings) : Config :=
  mkConfig initShared (replicate (poolSize cfg) NoThread).

(** [GetThreadCount]: [pool.size()]. *)
Definition GetThreadCount (c : Config) : Z := Z.of_nat (length (pool c)).

(** [GetRemainingStates]: the size of the stack, read under [statesMutex]
    and returned as [unsigned]. *)
Definition GetRemainingStates (e : Shared) : Z :=
  (Z.of_nat (length (globalStateStack e)) mod 2 ^ 32)%Z.

(** Some worker will call [GetState] again while the frontier holds a
    state. *)
Definition Alive (c : Config) : Prop :=
  globalStateStack (shared c) <> [] ->
  exists j sl, pool c !! j = Some sl /\ slot_busy sl.

Lemma StartPool_from_length bound slots : forall i p,
  StartPool_from bound i slots = Some p -> length p = length slots.
Proof.
  induction slots as [|sl slots IH]; intros i p; cbn [StartPool_from].
  - destruct (i <? bound)%Z; [done|]. by intros [= <-].
  - destruct (i <? bound)%Z; [|by intros [= <-]].
    destruct (StartPool_from bound (i + 1) slots) as [q|] eqn:Hq; [|done].
    intros [= <-]. simpl. by rewrite (IH _ _ Hq).
Qed.

(** X1.  [GetThreadCount] reports the thread count the constructor was given:
    right after construction, for the pool [StartPool] leaves, and after any
    steps of the workers.  It does so also for the counts above 32767, which
    the member [numThreads] does not keep. *)
Theorem GetThreadCount_is_requested_count (n : Z) (store : bool) (cpu0 : Z)
    (v : option (St -> bool)) :
  (0 <= n < 2 ^ 16)%Z ->
  GetThreadCount (constructed (ParallelMatchingEngine n store cpu0 v)) = n /\
  (forall p e sched k,
     StartPool (ParallelMatchingEngine n store cpu0 v) = Some p ->
     GetThreadCount (exec (ParallelMatchingEngine n store cpu0 v) sched k
                          (mkConfig e p)) = n) /\
  ((2 ^ 15 <= n)%Z ->
   numThreads (ParallelMatchingEngine n store cpu0 v) = (n - 2 ^ 16)%Z).
Proof.
  intros Hn. unfold GetThreadCount. split; [|split].
  - cbn [constructed pool ParallelMatchingEngine poolSize].
    rewrite length_replicate. lia.
  - intros p e sched k Hp. rewrite exec_length. cbn [pool].
    unfold StartPool in Hp. apply StartPool_from_length in Hp.
    rewrite Hp, length_replicate. cbn [ParallelMatchingEngine poolSize]. lia.
  - intros Hge. cbn [ParallelMatchingEngine numThreads]. unfold wrap_int16.
    replace (n + 2 ^ 15)%Z with ((n - 2 ^ 15) + 1 * 2 ^ 16)%Z by lia.
    rewrite Z.mod_add by lia. rewrite Z.mod_small; lia.
Qed.

Lemma exec_no_workers cfg sched k e :
  exec cfg sched k (mkConfig e []) = mkConfig e [].
Proof. induction k as [|k IH]; simpl; [done|]. by rewrite IH. Qed.

(** X2.  With a thread count of zero [FindAllMatchings] returns [true] as
    soon as the root was processed on the calling thread: the children of
    the root stay in the frontier, nothing below the root is expanded and
    the counter is left as it was. *)
Theorem FindAllMatchings_without_threads (store : bool) (cpu0 : Z)
    (v : option (St -> bool)) (root : St) (e : Shared) (g : nat)
    (ps : list (nodeID_t * nodeID_t)) (fuel : nat) (sched : nat -> nat)
    (steps : nat) :
  IsGoal root = false -> IsDead root = false ->
  pairs_from g root NULL_NODE NULL_NODE = Some ps ->
  S (S (length ps)) <= fuel ->
  exists c,
    FindAllMatchings (ParallelMatchingEngine 0 store cpu0 v) fuel sched steps
                     root e = Some (true, c) /\
    pool c = [] /\
    globalStateStack (shared c)
    = rev (with_handles (nextHandle e) (children root ps))
      ++ globalStateStack e /\
    GetSolutionsCount (shared c) = GetSolutionsCount e /\
    solutions (shared c) = solutions e.
Proof.
  intros Hg Hd Hps Hfuel.
  set (cfg := ParallelMatchingEngine 0 store cpu0 v).
  assert (Hroot : ProcessState fuel cfg Caller rootHandle root e
                  = Some (false, log (EvReturn Caller rootHandle)
                                     (pushChildren Caller rootHandle root ps e))).
  { unfold ProcessState.
    apply (ProcessState_from_mono (S (S (length ps)))); [|done].
    by apply (ProcessState_node cfg Caller rootHandle root g). }
  exists (mkConfig (log (EvReturn Caller rootHandle)
                        (pushChildren Caller rootHandle root ps e)) []).
  destruct (pushChildren_spec Caller rootHandle root ps e)
    as (H1 & _ & H3 & H4 & _).
  split; [|by repeat split].
  unfold FindAllMatchings. fold cfg. rewrite Hroot.
  assert (Hp : StartPool cfg = Some []) by reflexivity.
  rewrite Hp. by rewrite exec_no_workers.
Qed.

Lemma ProcessState_counter cfg t h s fuel e b e1 :
  ProcessState fuel cfg t h s e = Some (b, e1) ->
  activeWorkerCount e1 = activeWorkerCount e.
Proof.
  intros Hrun.
  destruct (ProcessState_inv _ _ _ _ _ _ _ _ Hrun)
    as [[Hg Hres]|[(Hg & Hd & -> & ->)|(Hg & Hd & ps & Hps & -> & ->)]].
  - unfold goal_result in Hres.
    by destruct (storeSolutions cfg), (visit cfg); simplify_eq.
  - done.
  - destruct (pushChildren_spec t h s ps e) as (_ & H2 & _). simpl.
    by rewrite H2.
Qed.

Lemma Alive_step cfg i c : Alive c -> Alive (worker_step cfg i c).
Proof.
  intros Halive. destruct (worker_step_cases cfg i c)
    as [[_ ->]|(pc & pc' & e' & Hi & Hstep & ->)]; [done|].
  intros Hne. cbn [shared pool] in *.
  destruct (Step_alive cfg i _ _ _ _ Hstep) as [Hb|[He|[-> Hnb]]].
  - exists i, (Running pc'). split; [|done].
    apply list_lookup_insert_eq. by eapply lookup_lt_Some.
  - done.
  - destruct (Halive Hne) as (j & sl & Hj & Hb).
    exists j, sl. split; [|done].
    rewrite list_lookup_insert_ne; [done|]. intros ->. congruence.
Qed.

Lemma Alive_exec cfg sched k c : Alive c -> Alive (exec cfg sched k c).
Proof.
  intros Hc. induction k as [|k IH]; simpl; [done|]. by apply Alive_step.
Qed.

Lemma Alive_finished c :
  Alive c -> forallb finished (pool c) = true ->
  globalStateStack (shared c) = [].
Proof.
  intros Halive Hfin.
  destruct (globalStateStack (shared c)) as [|x st] eqn:Hst; [done|].
  destruct Halive as (j & sl & Hj & Hb); [by rewrite Hst|].
  pose proof (forallb_lookup _ _ _ _ Hfin Hj) as Hf.
  by destruct sl as [|[| |h s f|h s|h s|]].
Qed.

(** The configuration [FindAllMatchings] hands to the workers, for a thread
    count the member [numThreads] keeps. *)
Lemma FindAllMatchings_start (n : Z) (store : bool) (cpu0 : Z)
    (v : option (St -> bool)) (root : St) (e : Shared) (fuel : nat)
    (sched : nat -> nat) (steps : nat) (b : bool) (c : Config) :
  (0 <= n < 2 ^ 16)%Z ->
  FindAllMatchings (ParallelMatchingEngine n store cpu0 v) fuel sched steps
                   root e = Some (b, c) ->
  (n < 2 ^ 15)%Z /\ b = true /\
  forallb finished (pool c) = true /\
  exists b0 e1,
    ProcessState fuel (ParallelMatchingEngine n store cpu0 v) Caller
                 rootHandle root e = Some (b0, e1) /\
    c = exec (ParallelMatchingEngine n store cpu0 v) sched steps
             (mkConfig e1 (replicate (Z.to_nat n) (Running WGet))).
Proof.
  intros Hn Hrun.
  destruct (FindAllMatchings_inv _ _ _ _ _ _ _ _ Hrun)
    as (b0 & e1 & p & Hroot & Hp & -> & Hfin & ->).
  destruct (Z.lt_ge_cases n (2 ^ 15)) as [Hlt|Hge].
  2:{ rewrite StartPool_overruns in Hp by lia. discriminate. }
  rewrite StartPool_spawns in Hp by lia. simplify_eq.
  split; [done|]. split; [done|]. split; [done|]. by exists b0, e1.
Qed.

(** X3.  Whenever [FindAllMatchings] returns, with at least one thread, the
    frontier is empty ([GetRemainingStates] is 0), the counter of active
    workers is zero and every worker has left [Run]; this needs neither a
    finite expansion tree nor a fair schedule, and holds from any state of
    the shared members in which the counter is zero. *)
Theorem frontier_drained_at_return (n : Z) (store : bool) (cpu0 : Z)
    (v : option (St -> bool)) (root : St) (e : Shared) (fuel : nat)
    (sched : nat -> nat) (steps : nat) (b : bool) (c : Config) :
  (0 < n < 2 ^ 16)%Z ->
  activeWorkerCount e = 0%Z ->
  FindAllMatchings (ParallelMatchingEngine n store cpu0 v) fuel sched steps
                   root e = Some (b, c) ->
  b = true /\
  globalStateStack (shared c) = [] /\
  GetRemainingStates (shared c) = 0%Z /\
  activeWorkerCount (shared c) = 0%Z /\
  pool c = replicate (Z.to_nat n) (Running WExit).
Proof.
  intros Hn Hact Hrun.
  destruct (FindAllMatchings_start n store cpu0 v root e fuel sched steps b c
              ltac:(lia) Hrun) as (Hlt & -> & Hfin & b0 & e1 & Hroot & ->).
  set (cfg := ParallelMatchingEngine n store cpu0 v) in *.
  set (c0 := mkConfig e1 (replicate (Z.to_nat n) (Running WGet))) in *.
  assert (Halive : Alive c0).
  { intros _. exists 0, (Running WGet). split; [|done].
    cbn [pool c0]. apply lookup_replicate_2. lia. }
  assert (Hst : globalStateStack (shared (exec cfg sched steps c0)) = []).
  { apply Alive_finished; [by apply Alive_exec|done]. }
  assert (Hrunning : Forall is_running (pool c0)).
  { cbn [pool c0]. by apply Forall_replicate. }
  assert (Hpool : pool (exec cfg sched steps c0)
                  = replicate (Z.to_nat n) (Running WExit)).
  { rewrite (finished_running _ (running_exec cfg sched steps _ Hrunning) Hfin).
    by rewrite exec_length; cbn [pool c0]; rewrite length_replicate. }
  assert (Hcr : Credits (exec cfg sched steps c0)).
  { apply Credits_exec, Credits_start; [|lia].
    rewrite <- Hact. by apply (ProcessState_counter cfg Caller rootHandle root fuel e b0). }
  split; [done|]. split; [done|]. split; [|split; [|done]].
  - unfold GetRemainingStates. by rewrite Hst.
  - destruct Hcr as [_ ->]. rewrite Hpool. apply sumZ_with_zero.
    by apply Forall_replicate.
Qed.

(** The workers that hold a state: between a successful [GetState] and the
    decrement that follows [ProcessState] and [delete]. *)
Definition holders (p : list Slot) : nat :=
  length (filter (fun sl => is_Some (slot_handle sl)) p).

Lemma credit_holders (p : list Slot) :
  sumZ_with credit p = Z.of_nat (holders p).
Proof.
  unfold holders. induction p as [|sl p IH]; [done|].
  rewrite filter_cons. cbn [sumZ_with foldr]. fold (sumZ_with credit p).
  rewrite IH. unfold credit.
  destruct (decide (is_Some (slot_handle sl))) as [[h Hh]|Hno].
  - rewrite Hh. simpl. lia.
  - destruct (slot_handle sl) as [h|]; [|lia]. destruct Hno. by exists h.
Qed.

(** X4.  In every configuration of a run of the pool [activeWorkerCount] is
    the number of workers that hold a state, and so never exceeds the number
    of threads. *)
Theorem counter_counts_holders (n : Z) (store : bool) (cpu0 : Z)
    (v : option (St -> bool)) (root : St) (e : Shared) (fuel : nat) (b : bool)
    (e1 : Shared) (p : list Slot) (sched : nat -> nat) (k : nat) :
  (0 <= n < 2 ^ 16)%Z ->
  activeWorkerCount e = 0%Z ->
  ProcessState fuel (ParallelMatchingEngine n store cpu0 v) Caller rootHandle
               root e = Some (b, e1) ->
  StartPool (ParallelMatchingEngine n store cpu0 v) = Some p ->
  activeWorkerCount
    (shared (exec (ParallelMatchingEngine n store cpu0 v) sched k
                  (mkConfig e1 p)))
  = Z.of_nat (holders (pool (exec (ParallelMatchingEngine n store cpu0 v)
                                  sched k (mkConfig e1 p)))) /\
  (Z.of_nat (holders (pool (exec (ParallelMatchingEngine n store cpu0 v)
                                 sched k (mkConfig e1 p)))) <= n)%Z.
Proof.
  intros Hn Hact Hroot Hp.
  destruct (Z.lt_ge_cases n (2 ^ 15)) as [Hlt|Hge].
  2:{ rewrite StartPool_overruns in Hp by lia. discriminate. }
  rewrite StartPool_spawns in Hp by lia. simplify_eq.
  set (cfg := ParallelMatchingEngine n store cpu0 v) in *.
  set (c0 := mkConfig e1 (replicate (Z.to_nat n) (Running WGet))) in *.
  assert (Hcr : Credits (exec cfg sched k c0)).
  { apply Credits_exec, Credits_start; [|lia].
    rewrite <- Hact. by apply (ProcessState_counter cfg Caller rootHandle root fuel e b). }
  destruct Hcr as [_ Hc]. rewrite Hc, credit_holders. split; [done|].
  pose proof (credit_bounds (pool (exec cfg sched k c0))) as Hb.
  rewrite credit_holders, exec_length in Hb. cbn [pool c0] in Hb.
  rewrite length_replicate in Hb. lia.
Qed.

(** X5.  Every state has one owner.  In every configuration of a run of the
    pool no handle is twice in the frontier, a handle in the frontier is held
    by no worker and was never popped, two workers never hold the same
    handle, and the caller's root is neither in the frontier nor held by a
    worker. *)
Theorem single_owner (n : Z) (store : bool) (cpu0 : Z)
    (v : option (St -> bool)) (root : St) (fuel : nat) (b : bool)
    (e1 : Shared) (p : list Slot) (sched : nat -> nat) (k : nat)
    (c : Config) :
  (0 <= n < 2 ^ 16)%Z ->
  ProcessState fuel (ParallelMatchingEngine n store cpu0 v) Caller rootHandle
               root initShared = Some (b, e1) ->
  StartPool (ParallelMatchingEngine n store cpu0 v) = Some p ->
  c = exec (ParallelMatchingEngine n store cpu0 v) sched k (mkConfig e1 p) ->
  NoDup (globalStateStack (shared c)).*1 /\
  (forall h, h ∈ (globalStateStack (shared c)).*1 ->
     h <> rootHandle /\ (h ∉ pops (history (shared c))) /\
     forall i pc, pool c !! i = Some (Running pc) -> handle_of pc <> Some h) /\
  (forall i j pci pcj h,
     pool c !! i = Some (Running pci) -> pool c !! j = Some (Running pcj) ->
     handle_of pci = Some h -> handle_of pcj = Some h -> i = j) /\
  (forall i pc, pool c !! i = Some (Running pc) ->
     handle_of pc <> Some rootHandle).
Proof.
  intros Hn Hroot Hp ->.
  destruct (run_invariants n store cpu0 v root fuel b e1 p sched k Hn Hroot Hp)
    as (_ & Hh & _).
  split; [apply (hd_nodup _ Hh)|]. split; [|split; [apply (hd_apart _ Hh)|]].
  - intros h Hin. destruct (hd_stack _ Hh h Hin) as (Hr & Hnp & _).
    split; [unfold rootHandle; lia|]. split; [done|].
    intros i pc Hi Hpc. by destruct (hd_held _ Hh i pc h Hi Hpc) as [_ Hnin].
  - intros i pc Hi Hpc. destruct (hd_held _ Hh i pc _ Hi Hpc) as [Hr _].
    unfold rootHandle in Hr. lia.
Qed.

(** ** Every allocated state is deleted once *)

(** The handles that were deleted, the newest first. *)
Definition deleted (hist : list Event) : list Handle :=
  omap (fun ev => match ev with EvDelete _ h => Some h | _ => None end) hist.

(** The handle of the state a worker holds and has not deleted yet. *)
Definition live (pc : WorkerPc) : option Handle :=
  match pc with
  | WProc h _ _ | WDelete h _ => Some h
  | WDec _ _ | WGet | WTest | WExit => None
  end.

Record Owned (c : Config) : Prop := {
  ow_nodup : NoDup (deleted (history (shared c)));
  ow_deleted :
    forall h, h ∈ deleted (history (shared c)) ->
      (0 < h < nextHandle (shared c)) /\
      (h ∉ (globalStateStack (shared c)).*1) /\
      forall i pc, pool c !! i = Some (Running pc) -> live pc <> Some h;
  ow_all :
    forall h, 0 < h < nextHandle (shared c) ->
      h ∈ (globalStateStack (shared c)).*1 \/
      (exists i pc, pool c !! i = Some (Running pc) /\ live pc = Some h) \/
      h ∈ deleted (history (shared c))
}.

Lemma live_handle pc h : live pc = Some h -> handle_of pc = Some h.
Proof. by destruct pc. Qed.

Lemma Step_ownership cfg i e pc pc' e' :
  Step cfg i e pc pc' e' ->
  (deleted (history e') = deleted (history e) /\
   globalStateStack e' = globalStateStack e /\
   nextHandle e' = nextHandle e /\ live pc' = live pc) \/
  (exists h s,
     deleted (history e') = deleted (history e) /\
     globalStateStack e = (h, s) :: globalStateStack e' /\
     nextHandle e' = nextHandle e /\ live pc = None /\ live pc' = Some h) \/
  (exists cs,
     deleted (history e') = deleted (history e) /\
     globalStateStack e' = (nextHandle e, cs) :: globalStateStack e /\
     nextHandle e' = S (nextHandle e) /\ live pc' = live pc) \/
  (exists h,
     deleted (history e') = h :: deleted (history e) /\
     globalStateStack e' = globalStateStack e /\
     nextHandle e' = nextHandle e /\
     live pc = Some h /\ live pc' = None /\ handle_of pc' = Some h).
Proof.
  destruct 1; simpl; try (by left).
  - right; left. by exists h, s.
  - right; right; left. by eexists.
  - right; right; right. by exists h.
Qed.

Lemma Owned_step cfg i c :
  Handles c -> Owned c -> Owned (worker_step cfg i c).
Proof.
  intros Hh Ho. destruct (worker_step_cases cfg i c)
    as [[_ ->]|(pc & pc' & e' & Hi & Hstep & ->)]; [done|].
  destruct Ho as [Hnd Hdel Hall].
  destruct (Step_ownership cfg i _ _ _ _ Hstep)
    as [(Hd & Hs & Hn & Hl)
       |[(h & s & Hd & Hs & Hn & Hl & Hl')
        |[(cs & Hd & Hs & Hn & Hl)
         |(h & Hd & Hs & Hn & Hl & Hl' & Hpc')]]].
  - split; cbn [shared pool]; rewrite ?Hd, ?Hs, ?Hn; [done| |].
    + intros h Hin. destruct (Hdel h Hin) as (Hr & Hst & Hlive).
      split; [done|]. split; [done|].
      intros j pcj [[-> ->]|[Hne Hj]]%pool_insert_lookup.
      * rewrite Hl. by apply (Hlive i pc).
      * by apply (Hlive j pcj).
    + intros h Hr. destruct (Hall h Hr) as [?|[(j & pcj & Hj & Hlj)|?]];
        [by left| |by right; right].
      right; left. destruct (decide (j = i)) as [->|Hne].
      * exists i, pc'. split.
        -- apply list_lookup_insert_eq. by eapply lookup_lt_Some.
        -- simplify_eq. congruence.
      * exists j, pcj. split; [|done]. by rewrite list_lookup_insert_ne.
  - pose proof (hd_nodup _ Hh) as Hnodup. rewrite Hs in Hnodup.
    apply list.NoDup_cons in Hnodup as [Hnin _]. simpl in Hnin.
    split; cbn [shared pool]; rewrite ?Hd, ?Hn; [done| |].
    + intros d Hin. destruct (Hdel d Hin) as (Hr & Hst & Hlive).
      rewrite Hs in Hst. simpl in Hst.
      split; [done|]. split.
      * intros Hin'. apply Hst. by apply elem_of_cons; right.
      * intros j pcj [[-> ->]|[Hne Hj]]%pool_insert_lookup.
        -- rewrite Hl'. intros [= ->]. apply Hst. apply list_elem_of_here.
        -- by apply (Hlive j pcj).
    + intros h' Hr. rewrite Hs in Hall. simpl in Hall.
      destruct (Hall h' Hr) as [[->|?]%elem_of_cons|[(j & pcj & Hj & Hlj)|?]].
      * right; left. exists i, pc'. split; [|done].
        apply list_lookup_insert_eq. by eapply lookup_lt_Some.
      * by left.
      * right; left. exists j, pcj. split; [|done].
        rewrite list_lookup_insert_ne; [done|]. intros ->. congruence.
      * by right; right.
  - split; cbn [shared pool]; rewrite ?Hd, ?Hs, ?Hn; [done| |].
    + intros d Hin. destruct (Hdel d Hin) as (Hr & Hst & Hlive).
      split; [lia|]. split.
      * simpl. intros [->|?]%elem_of_cons; [lia|done].
      * intros j pcj [[-> ->]|[Hne Hj]]%pool_insert_lookup.
        -- rewrite Hl. by apply (Hlive i pc).
        -- by apply (Hlive j pcj).
    + intros h' Hr. simpl.
      destruct (decide (h' = nextHandle (shared c))) as [->|Hne].
      { left. apply list_elem_of_here. }
      destruct (Hall h') as [?|[(j & pcj & Hj & Hlj)|?]]; [lia| | |].
      * left. by apply elem_of_cons; right.
      * right; left. destruct (decide (j = i)) as [->|Hne'].
        -- exists i, pc'. split.
           ++ apply list_lookup_insert_eq. by eapply lookup_lt_Some.
           ++ simplify_eq. congruence.
        -- exists j, pcj. split; [|done]. by rewrite list_lookup_insert_ne.
      * by right; right.
  - destruct (hd_held _ Hh i pc h Hi (live_handle _ _ Hl)) as [Hr Hnin].
    split; cbn [shared pool]; rewrite ?Hd, ?Hs, ?Hn.
    + apply list.NoDup_cons. split; [|done].
      intros Hin. destruct (Hdel h Hin) as (_ & _ & Hlive).
      by apply (Hlive i pc).
    + intros d [->|Hin]%elem_of_cons.
      * split; [done|]. split; [done|].
        intros j pcj [[-> ->]|[Hne Hj]]%pool_insert_lookup; [congruence|].
        intros Hlj. apply Hne.
        apply (hd_apart _ Hh j i pcj pc h Hj Hi);
          by apply live_handle.
      * destruct (Hdel d Hin) as (Hr' & Hst & Hlive).
        split; [done|]. split; [done|].
        intros j pcj [[-> ->]|[Hne Hj]]%pool_insert_lookup; [congruence|].
        by apply (Hlive j pcj).
    + intros h' Hr'.
      destruct (Hall h' Hr') as [?|[(j & pcj & Hj & Hlj)|?]]; [by left| |].
      * destruct (decide (j = i)) as [->|Hne].
        -- right; right. simplify_eq. apply list_elem_of_here.
        -- right; left. exists j, pcj. split; [|done].
           by rewrite list_lookup_insert_ne.
      * right; right. by apply elem_of_cons; right.
Qed.

Lemma deleted_events hist :
  (forall t h, EvDelete t h ∉ hist) -> deleted hist = [].
Proof.
  unfold deleted. induction hist as [|ev hist IH]; intros Hno; [done|].
  assert (IH' : omap (fun ev => match ev with
                                | EvDelete _ h => Some h
                                | _ => None
                                end) hist = []).
  { apply IH. intros t h Hin. apply (Hno t h). by apply elem_of_cons; right. }
  destruct ev as [| | | | | |t h|]; simpl; try exact IH'.
  destruct (Hno t h). apply list_elem_of_here.
Qed.

Lemma start_Owned cfg root fuel b e1 m :
  ProcessState fuel cfg Caller rootHandle root initShared = Some (b, e1) ->
  Owned (mkConfig e1 (replicate m (Running WGet))).
Proof.
  intros Hrun.
  destruct (root_handles cfg root fuel b e1 Hrun) as (Hst & Hn & _ & _).
  pose proof (deleted_events _ (root_not_deleted cfg root fuel b e1 Hrun))
    as Hdel.
  split; cbn [shared pool]; rewrite ?Hdel.
  - constructor.
  - intros h Hin. by apply elem_of_nil in Hin.
  - intros h Hr. left. rewrite Hst, rev_alt.
    apply elem_of_reverse, elem_of_seq. lia.
Qed.

Lemma Owned_exec cfg sched k c :
  Handles c -> Owned c -> Owned (exec cfg sched k c).
Proof.
  intros Hh Ho. induction k as [|k IH]; simpl; [done|].
  apply Owned_step; [by apply Handles_exec|done].
Qed.

(** X6.  No state leaks and none is deleted twice.  In every configuration
    of a run of the pool no handle was deleted twice, a deleted handle is
    neither in the frontier nor held by a worker that still uses it, and
    every handle allocated so far is in the frontier, held by a worker or
    deleted.  Once all workers have left [Run] the deleted handles are
    exactly the allocated ones, each once; the caller's root is not among
    them. *)
Theorem every_state_deleted_once (n : Z) (store : bool) (cpu0 : Z)
    (v : option (St -> bool)) (root : St) (fuel : nat) (b : bool)
    (e1 : Shared) (p : list Slot) (sched : nat -> nat) (k : nat)
    (c : Config) :
  (0 < n < 2 ^ 16)%Z ->
  ProcessState fuel (ParallelMatchingEngine n store cpu0 v) Caller rootHandle
               root initShared = Some (b, e1) ->
  StartPool (ParallelMatchingEngine n store cpu0 v) = Some p ->
  c = exec (ParallelMatchingEngine n store cpu0 v) sched k (mkConfig e1 p) ->
  NoDup (deleted (history (shared c))) /\
  (rootHandle ∉ deleted (history (shared c))) /\
  (forall h, h ∈ deleted (history (shared c)) ->
     (h ∉ (globalStateStack (shared c)).*1) /\
     forall i pc, pool c !! i = Some (Running pc) -> live pc <> Some h) /\
  (forall h, 0 < h < nextHandle (shared c) ->
     h ∈ (globalStateStack (shared c)).*1 \/
     (exists i pc, pool c !! i = Some (Running pc) /\ live pc = Some h) \/
     h ∈ deleted (history (shared c))) /\
  (forallb finished (pool c) = true ->
   deleted (history (shared c)) ≡ₚ seq 1 (nextHandle (shared c) - 1)).
Proof.
  intros Hn Hroot Hp ->.
  destruct (Z.lt_ge_cases n (2 ^ 15)) as [Hlt|Hge].
  2:{ rewrite StartPool_overruns in Hp by lia. discriminate. }
  rewrite StartPool_spawns in Hp by lia. simplify_eq.
  set (cfg := ParallelMatchingEngine n store cpu0 v) in *.
  set (c0 := mkConfig e1 (replicate (Z.to_nat n) (Running WGet))) in *.
  destruct (start_Handles cfg root fuel b e1 (Z.to_nat n) Hroot) as [Hh _].
  pose proof (start_Owned cfg root fuel b e1 (Z.to_nat n) Hroot) as Ho.
  fold c0 in Hh, Ho. apply (Owned_exec cfg sched k) in Ho; [|done].
  destruct Ho as [Hnd Hdel Hall].
  split; [done|]. split; [|split; [|split; [done|]]].
  - intros Hin. destruct (Hdel _ Hin) as [Hr _]. unfold rootHandle in Hr. lia.
  - intros h Hin. by destruct (Hdel h Hin) as (_ & Hst & Hlive).
  - intros Hfin.
    assert (Halive : Alive c0).
    { intros _. exists 0, (Running WGet). split; [|done].
      cbn [pool c0]. apply lookup_replicate_2. lia. }
    pose proof (Alive_finished _ (Alive_exec cfg sched k _ Halive) Hfin) as Hst.
    apply NoDup_Permutation; [done|apply NoDup_seq|].
    intros h. rewrite elem_of_seq. split.
    + intros Hin. destruct (Hdel h Hin) as [Hr _]. lia.
    + intros Hr. destruct (Hall h) as [Hin|[(i & pc & Hi & Hl)|Hin]];
        [lia| | |done].
      * rewrite Hst in Hin. by apply elem_of_nil in Hin.
      * pose proof (forallb_lookup _ _ _ _ Hfin Hi) as Hf.
        by destruct pc.
Qed.

(** ** The solution log only grows *)

Lemma Step_log cfg i e pc pc' e' :
  Step cfg i e pc pc' e' ->
  solutions e `prefix_of` solutions e' /\
  (storeSolutions cfg = false -> solutions e' = solutions e).
Proof.
  destruct 1; simpl; try (split; [done|done]).
  split; [by apply prefix_app_r|congruence].
Qed.

Lemma pushChildren_log t h s ps e :
  solutions (pushChildren t h s ps e) = solutions e.
Proof. by destruct (pushChildren_spec t h s ps e) as (_ & _ & _ & H4 & _). Qed.

Lemma ProcessState_log cfg t h s fuel e b e1 :
  ProcessState fuel cfg t h s e = Some (b, e1) ->
  solutions e `prefix_of` solutions e1 /\
  (storeSolutions cfg = false -> solutions e1 = solutions e).
Proof.
  intros Hrun.
  destruct (ProcessState_inv _ _ _ _ _ _ _ _ Hrun)
    as [[Hg Hres]|[(Hg & Hd & -> & ->)|(Hg & Hd & ps & Hps & -> & ->)]].
  - unfold goal_result in Hres.
    destruct (storeSolutions cfg), (visit cfg); simplify_eq; simpl;
      (split; [by apply prefix_app_r || done|done]).
  - done.
  - simpl. by rewrite pushChildren_log.
Qed.

(** X7.  The solution log is append-only: no step of a worker and no call of
    [FindAllMatchings], from whatever state of the engine, removes or
    changes an entry that is in the log; without [storeSolutions] the log is
    never touched. *)
Theorem solution_log_append_only (cfg : Settings) :
  (forall i c,
     solutions (shared c) `prefix_of` solutions (shared (worker_step cfg i c))) /\
  (forall sched k j c,
     solutions (shared (exec cfg sched k c))
       `prefix_of` solutions (shared (exec cfg sched (k + j) c))) /\
  (forall fuel sched steps root e b c,
     FindAllMatchings cfg fuel sched steps root e = Some (b, c) ->
     solutions e `prefix_of` solutions (shared c) /\
     (storeSolutions cfg = false -> solutions (shared c) = solutions e)).
Proof.
  assert (Hstep : forall i c,
            solutions (shared c)
              `prefix_of` solutions (shared (worker_step cfg i c)) /\
            (storeSolutions cfg = false ->
             solutions (shared (worker_step cfg i c)) = solutions (shared c))).
  { intros i c. destruct (worker_step_cases cfg i c)
      as [[_ ->]|(pc & pc' & e' & Hi & Hst & ->)]; [done|].
    apply (Step_log cfg i _ _ _ _ Hst). }
  assert (Hexec : forall sched k j c,
            solutions (shared (exec cfg sched k c))
              `prefix_of` solutions (shared (exec cfg sched (k + j) c)) /\
            (storeSolutions cfg = false ->
             solutions (shared (exec cfg sched (k + j) c))
             = solutions (shared (exec cfg sched k c)))).
  { intros sched k j c. induction j as [|j [IH1 IH2]].
    - by rewrite Nat.add_0_r.
    - replace (k + S j) with (S (k + j)) by lia. cbn [exec].
      destruct (Hstep (sched (k + j)) (exec cfg sched (k + j) c)) as [H1 H2].
      split; [by etrans|]. intros Hs. by rewrite H2, IH2. }
  split; [apply Hstep|]. split; [apply Hexec|].
  intros fuel sched steps root e b c Hrun.
  destruct (FindAllMatchings_inv _ _ _ _ _ _ _ _ Hrun)
    as (b0 & e1 & p & Hroot & Hp & -> & _ & _).
  destruct (ProcessState_log _ _ _ _ _ _ _ _ Hroot) as [H1 H2].
  destruct (Hexec sched 0 steps (mkConfig e1 p)) as [H3 H4].
  cbn [exec shared Nat.add] in H3, H4.
  split; [by etrans|]. intros Hs. by rewrite H4, H2.
Qed.

(** ** Only goal states below the root are logged *)

(** The cursor of [s], started from the null pair, can stand at
    [(n1, n2)]. *)
Inductive At (s : St) : nodeID_t -> nodeID_t -> Prop :=
| at_start : At s NULL_NODE NULL_NODE
| at_next n1 n2 m1 m2 :
    At s n1 n2 -> NextPair s n1 n2 = Some (m1, m2) -> At s m1 m2.

(** [s] is the root or is reached from it by adding, to a state that is
    neither a goal nor dead, a feasible pair that its cursor returns. *)
Inductive Descends (root : St) : St -> Prop :=
| desc_root : Descends root root
| desc_child s n1 n2 m1 m2 :
    Descends root s -> IsGoal s = false -> IsDead s = false ->
    At s n1 n2 -> NextPair s n1 n2 = Some (m1, m2) ->
    IsFeasiblePair s m1 m2 = true ->
    Descends root (AddPair s m1 m2).

Definition logged (root : St) (sol : MatchingSolution) : Prop :=
  exists s, Descends root s /\ IsGoal s = true /\ sol = GetCoreSet s.

Definition pc_sound (root : St) (pc : WorkerPc) : Prop :=
  match pc with
  | WProc _ s PEnter => Descends root s
  | WProc _ s PStore => Descends root s /\ IsGoal s = true
  | WProc _ s (PLoop n1 n2) =>
      Descends root s /\ IsGoal s = false /\ IsDead s = false /\ At s n1 n2
  | _ => True
  end.

Record Sound (root : St) (c : Config) : Prop := {
  sd_stack :
    Forall (fun x : Handle * St => Descends root x.2)
           (globalStateStack (shared c));
  sd_pcs :
    forall i pc, pool c !! i = Some (Running pc) -> pc_sound root pc;
  sd_log : Forall (logged root) (solutions (shared c))
}.

Lemma Sound_here root cfg i e pc pc' e' :
  Step cfg i e pc pc' e' ->
  pc_sound root pc ->
  Forall (fun x : Handle * St => Descends root x.2) (globalStateStack e) ->
  Forall (logged root) (solutions e) ->
  pc_sound root pc' /\
  Forall (fun x : Handle * St => Descends root x.2) (globalStateStack e') /\
  Forall (logged root) (solutions e').
Proof.
  intros Hstep Hpc Hst Hlog.
  destruct Hstep as
    [Hemp|h s rest Hpop|Hpos|Hneg|h s Hg|h s Hg Hd|h s Hg Hd
    |h s Hs|h s Hs|h s v Hv|h s Hv
    |h s n1 n2 m1 m2 Hn Hf|h s n1 n2 m1 m2 Hn Hf|h s n1 n2 Hn
    |h s|h s|]; simpl in *; try done.
  - rewrite Hpop in Hst. by inversion Hst; subst.
  - split; [|done]. repeat split; try done. constructor.
  - split; [done|]. split; [done|]. apply Forall_app. split; [done|].
    constructor; [|done]. destruct Hpc as [Hdesc Hg]. by exists s.
  - destruct Hpc as (Hdesc & Hg & Hd & Hat).
    split; [|split; [|done]].
    + repeat split; try done. by apply (at_next s n1 n2).
    + constructor; [|done]. simpl. by apply (desc_child root s n1 n2).
  - destruct Hpc as (Hdesc & Hg & Hd & Hat).
    split; [|done]. repeat split; try done. by apply (at_next s n1 n2).
Qed.

Lemma Sound_step root cfg i c :
  Sound root c -> Sound root (worker_step cfg i c).
Proof.
  intros [Hst Hpcs Hlog]. destruct (worker_step_cases cfg i c)
    as [[_ ->]|(pc & pc' & e' & Hi & Hstep & ->)]; [done|].
  destruct (Sound_here root cfg i _ _ _ _ Hstep (Hpcs i pc Hi) Hst Hlog)
    as (Hpc' & Hst' & Hlog').
  split; cbn [shared pool]; [done| |done].
  intros j pcj [[-> ->]|[Hne Hj]]%pool_insert_lookup; [done|].
  by apply (Hpcs j pcj).
Qed.

Lemma children_descend root s :
  Descends root s -> IsGoal s = false -> IsDead s = false ->
  forall g n1 n2 ps,
    At s n1 n2 -> pairs_from g s n1 n2 = Some ps ->
    Forall (Descends root) (children s ps).
Proof.
  intros Hdesc Hg Hd. induction g as [|g IH]; intros n1 n2 ps Hat Hps;
    [done|].
  simpl in Hps. destruct (NextPair s n1 n2) as [[m1 m2]|] eqn:Hn.
  2:{ simplify_eq. constructor. }
  destruct (pairs_from g s m1 m2) as [r|] eqn:Hr; [|done].
  simpl in Hps. simplify_eq. simpl.
  pose proof (IH m1 m2 r (at_next s n1 n2 m1 m2 Hat Hn) Hr) as Hrest.
  destruct (IsFeasiblePair s m1 m2) eqn:Hf; [|done].
  constructor; [|done]. by apply (desc_child root s n1 n2).
Qed.

Lemma Forall_with_handles (P : St -> Prop) h0 cs :
  Forall P cs ->
  Forall (fun x : Handle * St => P x.2) (rev (with_handles h0 cs)).
Proof.
  unfold with_handles. intros Hall. revert h0.
  induction Hall as [|x cs Hx _ IH]; intros h0; simpl; [constructor|].
  apply Forall_app. split; [apply IH|]. by repeat constructor.
Qed.

Lemma start_Sound cfg root fuel b e1 m :
  ProcessState fuel cfg Caller rootHandle root initShared = Some (b, e1) ->
  Sound root (mkConfig e1 (replicate m (Running WGet))).
Proof.
  intros Hrun.
  assert (Hpcs : forall i pc,
             replicate m (Running WGet) !! i = Some (Running pc) ->
             pc_sound root pc).
  { intros i pc [Heq _]%lookup_replicate. by simplify_eq. }
  destruct (ProcessState_inv _ _ _ _ _ _ _ _ Hrun)
    as [[Hg Hres]|[(Hg & Hd & -> & ->)|(Hg & Hd & ps & Hps & -> & ->)]].
  - assert (Hroot : logged root (GetCoreSet root)).
    { exists root. split; [constructor|done]. }
    unfold goal_result in Hres.
    destruct (storeSolutions cfg), (visit cfg); simplify_eq;
      (split; cbn [shared pool]; simpl; [constructor|done|]);
      by repeat constructor.
  - split; cbn [shared pool]; simpl; [constructor|done|constructor].
  - destruct (pushChildren_spec Caller rootHandle root ps initShared)
      as (H1 & _ & _ & H4 & _).
    split; cbn [shared pool log globalStateStack solutions];
      rewrite ?H1, ?H4; [|done|constructor].
    simpl. rewrite app_nil_r. apply Forall_with_handles.
    apply (children_descend root root (desc_root root) Hg Hd fuel
             NULL_NODE NULL_NODE ps (at_start root) Hps).
Qed.

(** X8.  Only solutions are stored.  In every configuration of a run every
    entry of the log is the core set of a goal state, and this state is the
    root or descends from it by pairs that the cursor of a state that is
    neither a goal nor dead returned and that were feasible for that state;
    the same holds for every state in the frontier. *)
Theorem log_holds_goal_states (n : Z) (store : bool) (cpu0 : Z)
    (v : option (St -> bool)) (root : St) (fuel : nat) (b : bool)
    (e1 : Shared) (p : list Slot) (sched : nat -> nat) (k : nat)
    (c : Config) :
  (0 <= n < 2 ^ 16)%Z ->
  ProcessState fuel (ParallelMatchingEngine n store cpu0 v) Caller rootHandle
               root initShared = Some (b, e1) ->
  StartPool (ParallelMatchingEngine n store cpu0 v) = Some p ->
  c = exec (ParallelMatchingEngine n store cpu0 v) sched k (mkConfig e1 p) ->
  Forall (fun sol => exists s, Descends root s /\ IsGoal s = true /\
                               sol = GetCoreSet s)
         (solutions (shared c)) /\
  Forall (fun x : Handle * St => Descends root x.2)
         (globalStateStack (shared c)).
Proof.
  intros Hn Hroot Hp ->.
  destruct (Z.lt_ge_cases n (2 ^ 15)) as [Hlt|Hge].
  2:{ rewrite StartPool_overruns in Hp by lia. discriminate. }
  rewrite StartPool_spawns in Hp by lia. simplify_eq.
  pose proof (start_Sound _ root fuel b e1 (Z.to_nat n) Hroot) as Hs.
  assert (Hk : Sound root
                 (exec (ParallelMatchingEngine n store cpu0 v) sched k
                       (mkConfig e1 (replicate (Z.to_nat n) (Running WGet))))).
  { induction k as [|k IH]; simpl; [done|]. by apply Sound_step. }
  destruct Hk as [Hst _ Hlog]. by split.
Qed.

(** ** One visitor call and one log entry per counted solution *)

Definition tally (f : Event -> bool) (hist : list Event) : Z :=
  sumZ_with (fun ev => if f ev then 1%Z else 0%Z) hist.

Definition is_count (ev : Event) : bool :=
  match ev with EvCount _ _ => true | _ => false end.

Definition is_store (ev : Event) : bool :=
  match ev with EvStore _ _ => true | _ => false end.

Definition is_visit (ev : Event) : bool :=
  match ev with EvVisit _ _ => true | _ => false end.

(** 1 for a worker that has incremented the counter for its state and has
    not passed line 114 yet. *)
Definition slot_to_store (sl : Slot) : Z :=
  match sl with
  | Running (WProc _ _ PStore) => 1
  | _ => 0
  end.

(** 1 for a worker that has incremented the counter for its state and has
    not passed line 121 yet. *)
Definition slot_to_visit (sl : Slot) : Z :=
  match sl with
  | Running (WProc _ _ PStore) | Running (WProc _ _ PVisit) => 1
  | _ => 0
  end.

Record Tally (cfg : Settings) (c : Config) : Prop := {
  ta_count :
    solCount (shared c) = wrap_uint32 (tally is_count (history (shared c)));
  ta_log :
    (Z.of_nat (length (solutions (shared c)))
     + (if storeSolutions cfg then sumZ_with slot_to_store (pool c) else 0)
     = if storeSolutions cfg then tally is_count (history (shared c)) else 0)%Z;
  ta_visit :
    (tally is_visit (history (shared c))
     + (if visit cfg is Some _ then sumZ_with slot_to_visit (pool c) else 0)
     = if visit cfg is Some _ then tally is_count (history (shared c)) else 0)%Z
}.

Lemma Step_tally cfg i e pc pc' e' :
  Step cfg i e pc pc' e' ->
  exists d : bool,
    tally is_count (history e')
    = (tally is_count (history e) + if d then 1 else 0)%Z /\
    solCount e'
    = (if d then wrap_uint32 (solCount e + 1) else solCount e) /\
    (Z.of_nat (length (solutions e'))
     + (if storeSolutions cfg then slot_to_store (Running pc') else 0)
     = Z.of_nat (length (solutions e))
       + (if storeSolutions cfg
          then slot_to_store (Running pc) + if d then 1 else 0 else 0))%Z /\
    (tally is_visit (history e')
     + (if visit cfg is Some _ then slot_to_visit (Running pc') else 0)
     = tally is_visit (history e)
       + (if visit cfg is Some _
          then slot_to_visit (Running pc) + if d then 1 else 0 else 0))%Z.
Proof.
  destruct 1 as
    [Hemp|h s rest Hpop|Hpos|Hneg|h s Hg|h s Hg Hd|h s Hg Hd
    |h s Hs|h s Hs|h s v Hv|h s Hv
    |h s n1 n2 m1 m2 Hn Hf|h s n1 n2 m1 m2 Hn Hf|h s n1 n2 Hn
    |h s|h s|];
    try (exists false; unfold tally; simpl;
         rewrite ?Hs, ?Hv, ?length_app; simpl;
         repeat split; destruct (storeSolutions cfg), (visit cfg);
         simplify_eq; lia).
  exists true. unfold tally. simpl.
  repeat split; destruct (storeSolutions cfg), (visit cfg); lia.
Qed.

Lemma Tally_step cfg i c : Tally cfg c -> Tally cfg (worker_step cfg i c).
Proof.
  intros [Hc Hl Hv]. destruct (worker_step_cases cfg i c)
    as [[_ ->]|(pc & pc' & e' & Hi & Hstep & ->)]; [done|].
  destruct (Step_tally cfg i _ _ _ _ Hstep) as (d & H1 & H2 & H3 & H4).
  split; cbn [shared pool].
  - rewrite H2, H1, Hc. unfold wrap_uint32. destruct d.
    + by rewrite Zplus_mod_idemp_l.
    + by rewrite Z.add_0_r.
  - rewrite H1. rewrite (sumZ_with_insert slot_to_store _ _ _ (Running pc') Hi).
    destruct (storeSolutions cfg); lia.
  - rewrite H1. rewrite (sumZ_with_insert slot_to_visit _ _ _ (Running pc') Hi).
    destruct (visit cfg); lia.
Qed.

Lemma pushChildren_tally f t h s ps :
  (forall t' p ch cs, f (EvPush t' p ch cs) = false) ->
  forall e, tally f (history (pushChildren t h s ps e)) = tally f (history e).
Proof.
  intros Hf. induction ps as [|[m1 m2] r IH]; intros e; simpl; [done|].
  destruct (IsFeasiblePair s m1 m2); [|apply IH].
  rewrite IH. unfold tally. simpl. by rewrite Hf.
Qed.

Lemma start_Tally cfg root fuel b e1 (p : list Slot) :
  ProcessState fuel cfg Caller rootHandle root initShared = Some (b, e1) ->
  Forall (fun sl => sl = Running WGet \/ sl = NoThread) p ->
  Tally cfg (mkConfig e1 p).
Proof.
  intros Hrun Hp.
  assert (Hz : forall f : Slot -> Z,
             f (Running WGet) = 0%Z -> f NoThread = 0%Z ->
             sumZ_with f p = 0%Z).
  { intros f H1 H2. apply sumZ_with_zero.
    revert Hp. apply Forall_impl. by intros sl [-> | ->]. }
  destruct (ProcessState_inv _ _ _ _ _ _ _ _ Hrun)
    as [[Hg Hres]|[(Hg & Hd & -> & ->)|(Hg & Hd & ps & Hps & -> & ->)]].
  - unfold goal_result in Hres.
    split; cbn [shared pool]; rewrite ?Hz by done;
      destruct (storeSolutions cfg), (visit cfg); simplify_eq; done.
  - split; cbn [shared pool]; rewrite ?Hz by done;
      destruct (storeSolutions cfg), (visit cfg); done.
  - assert (Ht : forall f, (forall t' p ch cs, f (EvPush t' p ch cs) = false) ->
               f (EvReturn Caller rootHandle) = false ->
               tally f (history (log (EvReturn Caller rootHandle)
                          (pushChildren Caller rootHandle root ps initShared)))
               = 0%Z).
    { intros f H1 H2. unfold tally. simpl. rewrite H2.
      fold (tally f (history (pushChildren Caller rootHandle root ps
                                initShared))).
      by rewrite pushChildren_tally. }
    destruct (pushChildren_spec Caller rootHandle root ps initShared)
      as (_ & _ & H3 & H4 & _).
    split; cbn [shared pool]; rewrite ?Hz by done; rewrite !Ht by done.
    + cbn [log solCount]. by rewrite H3.
    + cbn [log solutions]. rewrite H4. by destruct (storeSolutions cfg).
    + by destruct (visit cfg).
Qed.

Lemma StartPool_from_slots bound i n p :
  StartPool_from bound i (replicate n NoThread) = Some p ->
  Forall (fun sl : Slot => sl = Running WGet \/ sl = NoThread) p.
Proof.
  revert i p. induction n as [|n IH]; intros i p; cbn [replicate StartPool_from].
  - destruct (i <? bound)%Z; [done|]. intros [= <-]. constructor.
  - destruct (i <? bound)%Z.
    + destruct (StartPool_from bound (i + 1) (replicate n NoThread))
        as [q|] eqn:Hq; [|done].
      intros [= <-]. constructor; [by left|]. by eapply IH.
    + intros [= <-]. constructor; [by right|].
      apply Forall_replicate. by right.
Qed.

(** X9.  When [FindAllMatchings] returns, for any thread count including
    zero: [GetSolutionsCount] is the number of increments of the counter
    reduced modulo 2^32; a configured visitor has been called exactly once
    per increment and never without a visitor; with [storeSolutions] the
    log has exactly one entry per increment, and without it the log is
    empty. *)
Theorem one_visit_and_one_entry_per_solution (n : Z) (store : bool)
    (cpu0 : Z) (v : option (St -> bool)) (root : St) (fuel : nat)
    (sched : nat -> nat) (steps : nat) (b : bool) (c : Config) :
  FindAllMatchings (ParallelMatchingEngine n store cpu0 v) fuel sched steps
                   root initShared = Some (b, c) ->
  GetSolutionsCount (shared c)
  = wrap_uint32 (tally is_count (history (shared c))) /\
  tally is_visit (history (shared c))
  = (if v is Some _ then tally is_count (history (shared c)) else 0%Z) /\
  Z.of_nat (length (solutions (shared c)))
  = (if store then tally is_count (history (shared c)) else 0%Z).
Proof.
  intros Hrun.
  destruct (FindAllMatchings_inv _ _ _ _ _ _ _ _ Hrun)
    as (b0 & e1 & p & Hroot & Hp & -> & Hfin & _).
  set (cfg := ParallelMatchingEngine n store cpu0 v) in *.
  assert (Hpool : Forall (fun sl => sl = Running WGet \/ sl = NoThread) p).
  { unfold StartPool in Hp. apply (StartPool_from_slots _ _ _ _ Hp). }
  pose proof (start_Tally cfg root fuel b0 e1 p Hroot Hpool) as Ht.
  assert (Hk : Tally cfg (exec cfg sched steps (mkConfig e1 p))).
  { clear Hfin Hrun. induction steps as [|k IH]; simpl; [done|].
    by apply Tally_step. }
  destruct Hk as [Hc Hl Hv].
  assert (Hz : forall f : Slot -> Z,
             (forall sl, finished sl = true -> f sl = 0%Z) ->
             sumZ_with f (pool (exec cfg sched steps (mkConfig e1 p))) = 0%Z).
  { intros f Hf. apply sumZ_with_zero. apply Forall_lookup.
    intros j sl Hj. apply Hf. by eapply forallb_lookup. }
  rewrite Hz in Hl by (by intros [|[| |h s f|h s|h s|]]).
  rewrite Hz in Hv by (by intros [|[| |h s f|h s|h s|]]).
  cbn [cfg ParallelMatchingEngine storeSolutions visit] in Hl, Hv.
  split; [done|]. split.
  - destruct v; lia.
  - destruct store; lia.
Qed.

(** ** [FindAllMatchings] returns only on a finite expansion tree *)

Definition fin_loop (s : St) (n1 n2 : nodeID_t) : Prop :=
  exists f kids, scan (expand f) f s n1 n2 = Some kids.

Definition fin_pc (pc : WorkerPc) : Prop :=
  match pc with
  | WProc _ s PEnter => FiniteExpansion s
  | WProc _ s (PLoop n1 n2) => fin_loop s n1 n2
  | _ => True
  end.

(** Everything that is still to be expanded has a finite expansion. *)
Definition AllFinite (c : Config) : Prop :=
  Forall (fun x : Handle * St => FiniteExpansion x.2)
         (globalStateStack (shared c)) /\
  forall i pc, pool c !! i = Some (Running pc) -> fin_pc pc.

Lemma fin_loop_next s n1 n2 m1 m2 :
  NextPair s n1 n2 = Some (m1, m2) ->
  (IsFeasiblePair s m1 m2 = true -> FiniteExpansion (AddPair s m1 m2)) ->
  fin_loop s m1 m2 -> fin_loop s n1 n2.
Proof.
  intros Hn Hchild (f2 & r & Hr).
  destruct (IsFeasiblePair s m1 m2) eqn:Hf.
  - destruct (Hchild eq_refl) as (f1 & t & Ht).
    exists (S (f1 `max` f2)), (Some t :: r). cbn [scan]. rewrite Hn, Hf.
    rewrite (expand_mono f1 (S (f1 `max` f2)) _ t) by (lia || done).
    rewrite (scan_mono (expand f2) (expand (S (f1 `max` f2))) f2
               (f1 `max` f2) s m1 m2 r); [done| |lia|done].
    intros x u Hx. apply (expand_mono f2); [lia|done].
  - exists (S f2), (None :: r). cbn [scan]. rewrite Hn, Hf.
    rewrite (scan_mono (expand f2) (expand (S f2)) f2 f2 s m1 m2 r);
      [done| |lia|done].
    intros x u Hx. apply (expand_mono f2); [lia|done].
Qed.

Lemma fin_loop_end s n1 n2 : NextPair s n1 n2 = None -> fin_loop s n1 n2.
Proof. intros Hn. exists 1, []. simpl. by rewrite Hn. Qed.

Lemma fin_node s :
  IsGoal s = false -> IsDead s = false ->
  fin_loop s NULL_NODE NULL_NODE -> FiniteExpansion s.
Proof.
  intros Hg Hd (f & kids & Hk). exists (S f), (TNode kids). simpl.
  by rewrite Hg, Hd, Hk.
Qed.

Lemma fin_goal s : IsGoal s = true -> FiniteExpansion s.
Proof. intros Hg. exists 1, TGoal. simpl. by rewrite Hg. Qed.

Lemma fin_dead s : IsGoal s = false -> IsDead s = true -> FiniteExpansion s.
Proof. intros Hg Hd. exists 1, TDead. simpl. by rewrite Hg, Hd. Qed.

Lemma finite_before cfg i e pc pc' e' :
  Step cfg i e pc pc' e' ->
  fin_pc pc' ->
  Forall (fun x : Handle * St => FiniteExpansion x.2) (globalStateStack e') ->
  fin_pc pc /\
  Forall (fun x : Handle * St => FiniteExpansion x.2) (globalStateStack e).
Proof.
  intros Hstep Hpc' Hst'.
  destruct Hstep as
    [Hemp|h s rest Hpop|Hpos|Hneg|h s Hg|h s Hg Hd|h s Hg Hd
    |h s Hs|h s Hs|h s v Hv|h s Hv
    |h s n1 n2 m1 m2 Hn Hf|h s n1 n2 m1 m2 Hn Hf|h s n1 n2 Hn
    |h s|h s|]; simpl in *; try done.
  - rewrite Hpop. split; [done|]. by constructor.
  - split; [by apply fin_goal|done].
  - split; [by apply fin_dead|done].
  - split; [by apply fin_node|done].
  - inversion Hst' as [|x l Hchild Hrest]; subst. split; [|done].
    by apply (fin_loop_next s n1 n2 m1 m2).
  - split; [|done]. apply (fin_loop_next s n1 n2 m1 m2); [done| |done].
    congruence.
  - split; [by apply fin_loop_end|done].
Qed.

Lemma AllFinite_before cfg i c :
  AllFinite (worker_step cfg i c) -> AllFinite c.
Proof.
  destruct (worker_step_cases cfg i c)
    as [[_ ->]|(pc & pc' & e' & Hi & Hstep & ->)]; [done|].
  intros [Hst' Hpcs']. cbn [shared pool] in *.
  assert (Hpc' : fin_pc pc').
  { apply (Hpcs' i). apply list_lookup_insert_eq. by eapply lookup_lt_Some. }
  destruct (finite_before cfg i _ _ _ _ Hstep Hpc' Hst') as [Hpc Hst].
  split; [done|]. intros j pcj Hj.
  destruct (decide (j = i)) as [->|Hne]; [by simplify_eq|].
  apply (Hpcs' j). by rewrite list_lookup_insert_ne.
Qed.

Lemma children_finite s g : forall n1 n2 ps,
  pairs_from g s n1 n2 = Some ps ->
  Forall FiniteExpansion (children s ps) -> fin_loop s n1 n2.
Proof.
  induction g as [|g IH]; intros n1 n2 ps Hps Hall; [done|].
  simpl in Hps. destruct (NextPair s n1 n2) as [[m1 m2]|] eqn:Hn.
  2:{ by apply fin_loop_end. }
  destruct (pairs_from g s m1 m2) as [r|] eqn:Hr; [|done].
  simpl in Hps. simplify_eq. simpl in Hall.
  apply (fin_loop_next s n1 n2 m1 m2 Hn).
  - intros Hf. rewrite Hf in Hall. by inversion Hall.
  - apply (IH m1 m2 r Hr). destruct (IsFeasiblePair s m1 m2); [|done].
    by inversion Hall.
Qed.

Lemma Forall_with_handles_inv (P : St -> Prop) h0 cs :
  Forall (fun x : Handle * St => P x.2) (rev (with_handles h0 cs)) ->
  Forall P cs.
Proof.
  unfold with_handles. revert h0.
  induction cs as [|x cs IH]; intros h0; simpl; [constructor|].
  intros [Hrest Hx]%Forall_app. constructor.
  - by inversion Hx.
  - by apply (IH (S h0)).
Qed.

(** X10.  [FindAllMatchings] returns, with at least one thread, only if the
    expansion tree below the root is finite: a cursor that does not end or
    an endless chain of children makes the call hang, whatever the number
    of threads and the schedule.  So every call that returns has counted
    the goal states of that tree, modulo [2 ^ 32], and has logged each of
    them when solutions are stored. *)
Theorem returns_only_on_finite_tree (n : Z) (store : bool) (cpu0 : Z)
    (v : option (St -> bool)) (root : St) (fuel : nat) (sched : nat -> nat)
    (steps : nat) (b : bool) (c : Config) :
  (0 < n < 2 ^ 16)%Z ->
  FindAllMatchings (ParallelMatchingEngine n store cpu0 v) fuel sched steps
                   root initShared = Some (b, c) ->
  exists f t,
    expand f root = Some t /\
    GetSolutionsCount (shared c) = wrap_uint32 (goals t) /\
    (store = true -> Z.of_nat (length (solutions (shared c))) = goals t).
Proof.
  intros Hn Hrun.
  assert (Hfinite : FiniteExpansion root).
  {
    destruct (FindAllMatchings_start n store cpu0 v root initShared fuel sched
                steps b c ltac:(lia) Hrun)
      as (Hlt & -> & Hfin & b0 & e1 & Hroot & ->).
    set (cfg := ParallelMatchingEngine n store cpu0 v) in *.
    set (c0 := mkConfig e1 (replicate (Z.to_nat n) (Running WGet))) in *.
    assert (Halive : Alive c0).
    { intros _. exists 0, (Running WGet). split; [|done].
      cbn [pool c0]. apply lookup_replicate_2. lia. }
    pose proof (Alive_finished _ (Alive_exec cfg sched steps _ Halive) Hfin)
      as Hst.
    assert (Hend : AllFinite (exec cfg sched steps c0)).
    { split; [rewrite Hst; constructor|].
      intros i pc Hi. pose proof (forallb_lookup _ _ _ _ Hfin Hi) as Hf.
      by destruct pc. }
    assert (Hstart : AllFinite c0).
    { clear Hfin Hst Hrun. induction steps as [|k IH]; [done|].
      apply IH. by apply (AllFinite_before cfg (sched k)). }
    destruct Hstart as [Hstack _]. cbn [shared c0] in Hstack.
    destruct (ProcessState_inv _ _ _ _ _ _ _ _ Hroot)
      as [[Hg _]|[(Hg & Hd & _)|(Hg & Hd & ps & Hps & _ & ->)]].
    - by apply fin_goal.
    - by apply fin_dead.
    - apply (fin_node root Hg Hd). apply (children_finite root fuel _ _ ps Hps).
      destruct (pushChildren_spec Caller rootHandle root ps initShared)
        as (H1 & _).
      cbn [log globalStateStack] in Hstack. rewrite H1 in Hstack.
      simpl in Hstack. rewrite app_nil_r in Hstack.
      by apply (Forall_with_handles_inv FiniteExpansion 1).
  }
  destruct Hfinite as (f & t & Ht). exists f, t. split; [done|].
  destruct (FindAllMatchings_account f n store cpu0 v fuel sched steps root
              t b c Hn Ht Hrun) as (Hcount & Hlog & _).
  done.
Qed.

(** ** Thread affinity *)





(** ** A second call on the same engine *)

(** [FindAllMatchings] resets neither [solCount] nor [solutions]: what a
    call on a used engine starts from is the members as the previous call
    left them. *)
Lemma root_account F cfg root t e fuel b e1 :
  expand F root = Some t ->
  globalStateStack e = [] ->
  (0 <= solCount e < 2 ^ 32)%Z ->
  ProcessState fuel cfg Caller rootHandle root e = Some (b, e1) ->
  activeWorkerCount e1 = activeWorkerCount e /\
  (0 <= solCount e1 < 2 ^ 32)%Z /\
  ((solCount e1 + stack_goals F (globalStateStack e1)) mod 2 ^ 32
   = (solCount e + goals t) mod 2 ^ 32)%Z /\
  (storeSolutions cfg = true ->
   (Z.of_nat (length (solutions e1)) + stack_goals F (globalStateStack e1)
    = Z.of_nat (length (solutions e)) + goals t)%Z) /\
  Forall (fun x : Handle * St => is_Some (expand F x.2))
         (globalStateStack e1).
Proof.
  intros Ht Hst Hrange Hrun.
  assert (Hdef : is_Some (expand F root)) by by exists t.
  destruct (ProcessState_inv _ _ _ _ _ _ _ _ Hrun)
    as [[Hg Hres]|[(Hg & Hd & -> & ->)|(Hg & Hd & ps & Hps & -> & ->)]].
  - rewrite (expand_goal F root Hg Hdef) in Ht. simplify_eq.
    unfold goal_result in Hres.
    assert (Hw : (0 <= wrap_uint32 (solCount e + 1) < 2 ^ 32)%Z)
      by (apply Z.mod_pos_bound; lia).
    assert (Hm : (wrap_uint32 (solCount e + 1) mod 2 ^ 32
                  = (solCount e + 1) mod 2 ^ 32)%Z)
      by (unfold wrap_uint32; apply Z.mod_mod; lia).
    destruct (storeSolutions cfg), (visit cfg) as [vis|]; simplify_eq;
      cbn; rewrite Hst; cbn; rewrite ?Z.add_0_r, ?length_app; cbn;
      repeat split; try done; try lia.
  - rewrite (expand_dead F root Hg Hd Hdef) in Ht. simplify_eq. cbn.
    rewrite Hst. cbn. rewrite !Z.add_0_r. repeat split; try done; lia.
  - destruct (expand_node F root Hg Hd Hdef) as (kids & Hk & He).
    rewrite He in Ht. simplify_eq.
    destruct (scan_pairs _ _ _ _ _ _ Hk) as (ps' & Hps' & Hall & Hsum).
    assert (ps' = ps) as ->.
    { pose proof (pairs_from_mono _ (fuel `max` F) _ _ _ _ Hps
                    (Nat.le_max_l _ _)) as Ha.
      pose proof (pairs_from_mono _ (fuel `max` F) _ _ _ _ Hps'
                    (Nat.le_max_r _ _)) as Hb.
      congruence. }
    destruct (pushChildren_spec Caller rootHandle root ps e)
      as (H1 & H2 & H3 & H4 & H5).
    cbn [log globalStateStack activeWorkerCount solCount solutions].
    rewrite H1, H2, H3, H4, Hst, app_nil_r, stack_goals_handles.
    unfold tree_of. rewrite Hsum. simpl.
    split; [done|]. split; [lia|]. split; [done|]. split; [done|].
    by apply stack_defined_handles.
Qed.

Lemma Counting_from F cfg G e1 m :
  activeWorkerCount e1 = 0%Z ->
  (0 <= solCount e1 < 2 ^ 32)%Z ->
  ((solCount e1 + stack_goals F (globalStateStack e1)) mod 2 ^ 32
   = G mod 2 ^ 32)%Z ->
  (storeSolutions cfg = true ->
   (Z.of_nat (length (solutions e1)) + stack_goals F (globalStateStack e1)
    = G)%Z) ->
  Forall (fun x : Handle * St => is_Some (expand F x.2))
         (globalStateStack e1) ->
  (Z.of_nat (S m) < 2 ^ 15)%Z ->
  Counting F cfg G (mkConfig e1 (replicate (S m) (Running WGet))).
Proof.
  intros Hact Hrange Hgoals Hlog Hstack Hm.
  assert (Hz : forall f : Slot -> Z, f (Running WGet) = 0%Z ->
               sumZ_with f (replicate (S m) (Running WGet)) = 0%Z).
  { intros f Hf. apply sumZ_with_zero. by apply Forall_replicate. }
  split; cbn [shared pool].
  - by rewrite length_replicate.
  - by rewrite Hz.
  - done.
  - unfold pending. cbn [shared pool]. rewrite Hz by done.
    by rewrite Z.add_0_r.
  - intros Hs. unfold pending_logs. cbn [shared pool]. rewrite Hz by done.
    rewrite Z.add_0_r. by apply Hlog.
  - done.
  - by apply Forall_replicate.
  - intros _. by exists 0, (Running WGet).
Qed.

(** X12.  The counter and the log are not reset by [FindAllMatchings].  On
    an engine whose earlier calls have returned (empty frontier, no credit
    outstanding, as many logged solutions as counted ones), a further call
    that returns leaves the earlier count plus the number of goal states of
    the new root's tree, modulo [2 ^ 32], and, with [storeSolutions], a log
    of as many entries as the earlier count plus those goal states. *)
Theorem counters_accumulate_across_calls (n : Z) (store : bool) (cpu0 : Z)
    (v : option (St -> bool)) (root : St) (f : nat) (t : Tree) (e : Shared)
    (fuel : nat) (sched : nat -> nat) (steps : nat) (b : bool)
    (c : Config) :
  (0 < n < 2 ^ 16)%Z ->
  expand f root = Some t ->
  globalStateStack e = [] ->
  activeWorkerCount e = 0%Z ->
  (0 <= solCount e < 2 ^ 32)%Z ->
  (store = true -> Z.of_nat (length (solutions e)) = solCount e) ->
  FindAllMatchings (ParallelMatchingEngine n store cpu0 v) fuel sched steps
                   root e = Some (b, c) ->
  GetSolutionsCount (shared c) = wrap_uint32 (solCount e + goals t) /\
  (store = true ->
   Z.of_nat (length (solutions (shared c))) = (solCount e + goals t)%Z).
Proof.
  intros Hn Ht Hst Hact Hrange Hlen Hrun.
  destruct (FindAllMatchings_start n store cpu0 v root e fuel sched steps b c
              ltac:(lia) Hrun)
    as (Hlt & -> & Hfin & b0 & e1 & Hroot & ->).
  destruct (root_account f _ root t e fuel b0 e1 Ht Hst Hrange Hroot)
    as (H1 & H2 & H3 & H4 & H5).
  destruct (Z.to_nat n) as [|m] eqn:Hm; [lia|].
  assert (Hc : Counting f (ParallelMatchingEngine n store cpu0 v)
                 (solCount e + goals t)
                 (mkConfig e1 (replicate (S m) (Running WGet)))).
  { apply Counting_from; try done; [congruence| |lia].
    intros Hs. rewrite (H4 Hs). pose proof (Hlen Hs). lia. }
  apply (Counting_exec _ _ _ sched steps) in Hc.
  destruct (final_account _ _ _ _ Hc Hfin) as (Hcount & Hlog & _).
  split; [done|]. intros ->. by apply Hlog.
Qed.

End Engine.

(** * The claims on the two instances *)

Definition ToyShared : Type := @Shared (list (Z * Z)) (list (Z * Z)).
Definition ToySlot : Type := @Slot Z (list (Z * Z)).
Definition ToyConfig : Type := @Config Z (list (Z * Z)) (list (Z * Z)).
Definition ToySettings : Type := @Settings (list (Z * Z)).

Lemma round_robin_fair (n : nat) : 0 < n -> fair n (Toy.round_robin n).
Proof.
  intros Hn i t Hi. exists (i + t * n). split; [nia|].
  unfold Toy.round_robin. rewrite Nat.Div0.mod_add. by apply Nat.mod_small.
Qed.

Lemma toy_finite : FiniteExpansion Toy.root.
Proof.
  exists 5, (TNode [Some (TNode [None; Some TGoal]);
                    Some (TNode [Some TGoal; None])]).
  reflexivity.
Qed.

Lemma wide_expand (d : nat) : expand (S (S (S (S d)))) d = Some (Wide.full d).
Proof.
  induction d as [|d IH]; [reflexivity|].
  change (expand (S (S (S (S (S d))))) (S d))
    with (option_map TNode
            (scan (expand (S (S (S (S d))))) (S (S (S (S d)))) (S d)
                  Wide.null Wide.null)).
  revert IH. generalize (expand (S (S (S (S d))))). intros rec IH.
  simpl. by rewrite IH.
Qed.

Lemma wide_goals (d : nat) : goals (Wide.full d) = (2 ^ Z.of_nat d)%Z.
Proof.
  induction d as [|d IH]; [reflexivity|].
  cbn [Wide.full goals sum_kids foldr from_option]. rewrite IH.
  rewrite Nat2Z.inj_succ, Z.pow_succ_r by lia. lia.
Qed.

Lemma only_worker_fair : fair 1 Wide.only_worker.
Proof. intros i t Hi. exists t. unfold Wide.only_worker. split; lia. Qed.

(** C7, refuted as stated.  On the wide instance the tree below the root has
    2^32 goal states: with [storeSolutions] set and one worker
    [FindAllMatchings] returns with a log of 2^32 solutions while
    [GetSolutionsCount] reads 0. *)
Lemma log_longer_than_count :
  exists fuel steps (c : Config (nodeID_t := Z)),
    FindAllMatchings (ParallelMatchingEngine 1 true (-1) None) fuel
                     Wide.only_worker steps Wide.root initShared
    = Some (true, c) /\
    Z.of_nat (length (solutions (shared c))) = (2 ^ 32)%Z /\
    GetSolutionsCount (shared c) = 0%Z /\
    GetSolutionsCount (shared c) <> Z.of_nat (length (solutions (shared c))).
Proof.
  assert (Hfin : FiniteExpansion Wide.root).
  { exists 36, (Wide.full 32). exact (wide_expand 32). }
  destruct (FindAllMatchings_completes 1 true (-1) None Wide.root
              Wide.only_worker ltac:(lia) Hfin only_worker_fair)
    as (fuel & steps & c & Hrun & _).
  destruct (FindAllMatchings_account 36 1 true (-1) None fuel
              Wide.only_worker steps Wide.root (Wide.full 32) true c
              ltac:(lia) (wide_expand 32) Hrun) as (Hcount & Hlog & _).
  rewrite wide_goals in Hcount, Hlog. specialize (Hlog eq_refl).
  exists fuel, steps, c. split; [done|]. split; [done|].
  assert (Hz : GetSolutionsCount (shared c) = 0%Z) by (by rewrite Hcount).
  split; [done|]. rewrite Hz, Hlog. done.
Qed.

(** C1, refuted as stated.  With two workers on the small instance, worker 1
    finds the frontier empty while worker 0 still holds a state; worker 0
    then pushes a child and gives its credit back; worker 1 now reads the
    counter as zero and leaves [Run] although the frontier holds a state.
    And with 40000 threads [FindAllMatchings] has no result at all. *)
Lemma worker_exits_with_frontier_not_empty :
  (exists (b : bool) (e1 : ToyShared) (p : list ToySlot) (c : ToyConfig),
     ProcessState 10 (ParallelMatchingEngine 2 true (-1) None) Caller
                  rootHandle Toy.root initShared = Some (b, e1) /\
     StartPool (ParallelMatchingEngine 2 true (-1) None) = Some p /\
     c = exec (ParallelMatchingEngine 2 true (-1) None)
              (Toy.script ([0; 1] ++ replicate 13 1 ++ replicate 6 0)) 21
              (mkConfig e1 p) /\
     pool c !! 1 = Some (Running WTest) /\
     globalStateStack (shared c) = [(4, [(1, 0); (0, 1)]%Z)] /\
     activeWorkerCount (shared c) = 0%Z /\
     pool (worker_step (ParallelMatchingEngine 2 true (-1) None) 1 c) !! 1
     = Some (Running WExit)) /\
  (forall fuel sched steps,
     FindAllMatchings (nodeID_t := Z)
                      (ParallelMatchingEngine 40000 true (-1) None) fuel sched
                      steps Toy.root initShared = None).
Proof.
  split.
  - eexists _, _, _, _. split; [vm_compute; reflexivity|].
    split; [vm_compute; reflexivity|]. split; [reflexivity|].
    vm_compute. by repeat split.
  - intros fuel sched steps. unfold FindAllMatchings.
    rewrite StartPool_overruns by lia.
    by destruct (ProcessState fuel _ Caller rootHandle Toy.root initShared)
      as [[b e1]|].
Qed.

Lemma Run_terminates_witness :
  (0 < 2 < 2 ^ 15)%Z /\ FiniteExpansion Toy.root /\
  fair (Z.to_nat 2) (Toy.round_robin 2) /\
  exists fuel steps (c : ToyConfig),
    FindAllMatchings (ParallelMatchingEngine 2 true (-1) None) fuel
                     (Toy.round_robin 2) steps Toy.root initShared
    = Some (true, c) /\
    pool c = replicate (Z.to_nat 2) (Running WExit) /\
    globalStateStack (shared c) = [] /\
    activeWorkerCount (shared c) = 0%Z.
Proof.
  split; [lia|]. split; [exact toy_finite|].
  split; [apply round_robin_fair; lia|].
  apply (Run_terminates 2 true (-1) None Toy.root (Toy.round_robin 2)).
  - lia.
  - exact toy_finite.
  - apply round_robin_fair. lia.
Defined.

Lemma solutions_count_thread_invariant_witness :
  exists (c1 c8 : ToyConfig),
    FiniteExpansion Toy.root /\
    (0 < 1 < 2 ^ 16)%Z /\ (0 < 8 < 2 ^ 16)%Z /\
    FindAllMatchings (ParallelMatchingEngine 1 false (-1) None) 10
                     (Toy.round_robin 1) 40 Toy.root initShared
    = Some (true, c1) /\
    FindAllMatchings (ParallelMatchingEngine 8 true 0 (Some Toy.never)) 10
                     (Toy.round_robin 8) 100 Toy.root initShared
    = Some (true, c8) /\
    GetSolutionsCount (shared c1) = GetSolutionsCount (shared c8).
Proof.
  eexists _, _. split; [exact toy_finite|]. split; [lia|]. split; [lia|].
  split; [vm_compute; reflexivity|]. split; [vm_compute; reflexivity|].
  eapply (solutions_count_thread_invariant Toy.root 1 8 false true (-1) 0
            None (Some Toy.never) 10 10 (Toy.round_robin 1)
            (Toy.round_robin 8) 40 100 true true).
  - exact toy_finite.
  - lia.
  - lia.
  - vm_compute. reflexivity.
  - vm_compute. reflexivity.
Defined.

(** A run of two workers on the small instance, stopped after 13 steps:
    worker 0 holds a state it has not looked at yet, worker 1 has processed
    two states and is about to give back the credit of the second one. *)
Definition toy_cfg : ToySettings := ParallelMatchingEngine 2 true (-1) None.

Definition toy_start : ToyShared :=
  Eval vm_compute in
    match ProcessState 10 toy_cfg Caller rootHandle Toy.root initShared with
    | Some (_, e) => e
    | None => initShared
    end.

Definition toy_pool : list ToySlot := [Running WGet; Running WGet].

Definition toy_sched : nat -> nat :=
  Toy.script ([0; 1] ++ replicate 13 1 ++ replicate 6 0).

Definition toy_c13 : ToyConfig :=
  exec toy_cfg toy_sched 13 (mkConfig toy_start toy_pool).

Lemma toy_start_eq :
  ProcessState 10 (ParallelMatchingEngine 2 true (-1) None) Caller rootHandle
               Toy.root initShared = Some (false, toy_start).
Proof. vm_compute. reflexivity. Qed.

Lemma toy_pool_eq :
  StartPool (ParallelMatchingEngine 2 true (-1) None) = Some toy_pool.
Proof. vm_compute. reflexivity. Qed.

Lemma toy_c13_eq :
  toy_c13 = exec (ParallelMatchingEngine 2 true (-1) None) toy_sched 13
                 (mkConfig toy_start toy_pool).
Proof. reflexivity. Qed.

Lemma toy_c13_worker1 :
  pool toy_c13 !! 1 = Some (Running (WDec 3 [(1, 1); (0, 0)]%Z)).
Proof. vm_compute. reflexivity. Qed.

Lemma decrement_after_children_witness :
  (0 <= 2 < 2 ^ 16)%Z /\
  ProcessState 10 (ParallelMatchingEngine 2 true (-1) None) Caller rootHandle
               Toy.root initShared = Some (false, toy_start) /\
  StartPool (ParallelMatchingEngine 2 true (-1) None) = Some toy_pool /\
  toy_c13 = exec (ParallelMatchingEngine 2 true (-1) None) toy_sched 13
                 (mkConfig toy_start toy_pool) /\
  (0 <= activeWorkerCount (shared toy_c13))%Z /\
  pushed 3 (history (shared toy_c13)) = [] /\
  EvDelete (Worker 1) 3 ∈ history (shared toy_c13) /\
  activeWorkerCount
    (shared (worker_step (ParallelMatchingEngine 2 true (-1) None) 1 toy_c13))
  = (activeWorkerCount (shared toy_c13) - 1)%Z.
Proof.
  assert (Hn : (0 <= 2 < 2 ^ 16)%Z) by lia.
  pose proof (decrement_after_children 2 true (-1) None Toy.root 10 false
                toy_start toy_pool toy_sched 13 toy_c13 Hn) as H.
  specialize (H toy_start_eq). specialize (H toy_pool_eq).
  specialize (H toy_c13_eq). destruct H as (H0 & _ & Hdec).
  specialize (Hdec 1 3 [(1, 1); (0, 0)]%Z toy_c13_worker1).
  destruct Hdec as (_ & Hpushed & Hdel & Hless).
  split; [exact Hn|]. split; [exact toy_start_eq|].
  split; [exact toy_pool_eq|]. split; [exact toy_c13_eq|].
  split; [exact H0|]. split; [exact Hpushed|]. split; [exact Hdel|exact Hless].
Defined.

Lemma GetState_pops_latest_witness :
  (0 <= 2 < 2 ^ 16)%Z /\
  ProcessState 10 (ParallelMatchingEngine 2 true (-1) None) Caller rootHandle
               Toy.root initShared = Some (false, toy_start) /\
  StartPool (ParallelMatchingEngine 2 true (-1) None) = Some toy_pool /\
  toy_c13 = exec (ParallelMatchingEngine 2 true (-1) None) toy_sched 13
                 (mkConfig toy_start toy_pool) /\
  NoDup (pops (history (shared toy_c13))).
Proof.
  assert (Hn : (0 <= 2 < 2 ^ 16)%Z) by lia.
  pose proof (GetState_pops_latest 2 true (-1) None Toy.root 10 false
                toy_start toy_pool toy_sched 13 toy_c13 Hn) as H.
  specialize (H toy_start_eq). specialize (H toy_pool_eq).
  specialize (H toy_c13_eq). destruct H as (_ & _ & _ & _ & Hnodup).
  split; [exact Hn|]. split; [exact toy_start_eq|].
  split; [exact toy_pool_eq|]. split; [exact toy_c13_eq|exact Hnodup].
Defined.

Lemma ProcessState_goal_state_witness :
  IsGoal [(1, 1); (0, 0)]%Z = true /\ 3 <= 3 /\
  exists e' : ToyShared,
    ProcessState 3 (ParallelMatchingEngine 1 true (-1) (Some Toy.never))
                 (Worker 0) 3 [(1, 1); (0, 0)]%Z initShared
    = Some (false, e') /\
    solCount e' = 1%Z /\
    solutions e' = [[(0, 0); (1, 1)]%Z].
Proof.
  assert (Hg : IsGoal [(1, 1); (0, 0)]%Z = true) by reflexivity.
  assert (Hf : 3 <= 3) by lia.
  split; [exact Hg|]. split; [exact Hf|].
  destruct (ProcessState_goal_state
              (ParallelMatchingEngine 1 true (-1) (Some Toy.never))
              (Worker 0) 3 [(1, 1); (0, 0)]%Z initShared 3 Hg Hf)
    as (e' & Hrun & Hcount & Hlog & _).
  exists e'. split; [exact Hrun|]. split; [exact Hcount|exact Hlog].
Defined.

Lemma ProcessState_non_goal_state_witness :
  IsGoal Toy.root = false /\
  exists e' : ToyShared,
    ProcessState 4 (ParallelMatchingEngine 1 true (-1) None) Caller
                 rootHandle Toy.root initShared = Some (false, e') /\
    globalStateStack e' = [(2, [(0, 1)]%Z); (1, [(0, 0)]%Z)].
Proof.
  assert (Hg : IsGoal Toy.root = false) by reflexivity.
  assert (Hd : IsDead Toy.root = false) by reflexivity.
  assert (Hps : pairs_from 3 Toy.root NULL_NODE NULL_NODE
                = Some [(0, 0); (0, 1)]%Z) by reflexivity.
  split; [exact Hg|].
  destruct (ProcessState_non_goal_state
              (ParallelMatchingEngine 1 true (-1) None) Caller rootHandle
              Toy.root initShared Hg) as (_ & _ & Hnode).
  destruct (Hnode Hd) as [Hrun _].
  destruct (Hrun 3 [(0, 0); (0, 1)]%Z 4 Hps ltac:(simpl; lia))
    as (e' & He' & Hstack).
  exists e'. split; [exact He'|exact Hstack].
Defined.

Definition toy_final : ToyConfig :=
  Eval vm_compute in
    match FindAllMatchings toy_cfg 10 (Toy.round_robin 2) 40 Toy.root
                           initShared with
    | Some (_, c) => c
    | None => mkConfig initShared []
    end.

Lemma toy_final_eq :
  FindAllMatchings (ParallelMatchingEngine 2 true (-1) None) 10
                   (Toy.round_robin 2) 40 Toy.root initShared
  = Some (true, toy_final).
Proof. vm_compute. reflexivity. Qed.

Lemma log_length_matches_count_witness :
  FiniteExpansion Toy.root /\ (0 < 2 < 2 ^ 16)%Z /\
  FindAllMatchings (ParallelMatchingEngine 2 true (-1) None) 10
                   (Toy.round_robin 2) 40 Toy.root initShared
  = Some (true, toy_final) /\
  GetSolutionsCount (shared toy_final)
  = wrap_uint32 (Z.of_nat (length (solutions (shared toy_final)))).
Proof.
  assert (Hn : (0 < 2 < 2 ^ 16)%Z) by lia.
  split; [exact toy_finite|]. split; [exact Hn|]. split; [exact toy_final_eq|].
  exact (proj1 (log_length_matches_count Toy.root 2 (-1) None 10
                  (Toy.round_robin 2) 40 true toy_final toy_finite Hn
                  toy_final_eq)).
Defined.

Lemma count_and_store_before_visit_witness :
  IsGoal [(1, 1); (0, 0)]%Z = true /\
  exists e_visit : ToyShared,
    solCount e_visit = 1%Z /\
    solutions e_visit = [[(0, 0); (1, 1)]%Z] /\
    ProcessState 3 (mkSettings 1 1 true (-1) (Some Toy.never)) (Worker 0) 3
                 [(1, 1); (0, 0)]%Z initShared
    = Some (false,
            log (EvReturn (Worker 0) 3) (log (EvVisit (Worker 0) 3) e_visit)).
Proof.
  assert (Hg : IsGoal [(1, 1); (0, 0)]%Z = true) by reflexivity.
  split; [exact Hg|].
  destruct (count_and_store_before_visit 1 1 true (-1) (Worker 0) 3
              [(1, 1); (0, 0)]%Z initShared Hg)
    as (e_count & e_visit & Hcount & Hlog & _ & Hv).
  exists e_visit. split; [exact Hcount|]. split; [exact Hlog|].
  destruct (Hv Toy.never) as (_ & _ & _ & Hrun & _). exact Hrun.
Defined.

(** ** The further properties on the small instance *)

Lemma GetThreadCount_is_requested_count_witness :
  (0 <= 2 < 2 ^ 16)%Z /\
  GetThreadCount (constructed toy_cfg : ToyConfig) = 2%Z /\
  GetThreadCount toy_c13 = 2%Z.
Proof.
  assert (Hn : (0 <= 2 < 2 ^ 16)%Z) by lia.
  pose proof (GetThreadCount_is_requested_count (nodeID_t := Z)
                (MatchingSolution := list (Z * Z)) 2 true (-1) None Hn) as H.
  destruct H as (Hsize & Hrun & _).
  split; [exact Hn|]. split; [exact Hsize|].
  exact (Hrun toy_pool toy_start toy_sched 13 toy_pool_eq).
Defined.

Lemma FindAllMatchings_without_threads_witness :
  IsGoal Toy.root = false /\ IsDead Toy.root = false /\
  pairs_from 3 Toy.root NULL_NODE NULL_NODE = Some [(0, 0); (0, 1)]%Z /\
  4 <= 4 /\
  exists c : ToyConfig,
    FindAllMatchings (ParallelMatchingEngine 0 true (-1) None) 4
                     (Toy.round_robin 1) 0 Toy.root initShared
    = Some (true, c) /\
    pool c = [] /\
    globalStateStack (shared c) = [(2, [(0, 1)]%Z); (1, [(0, 0)]%Z)].
Proof.
  assert (Hg : IsGoal Toy.root = false) by reflexivity.
  assert (Hd : IsDead Toy.root = false) by reflexivity.
  assert (Hps : pairs_from 3 Toy.root NULL_NODE NULL_NODE
                = Some [(0, 0); (0, 1)]%Z) by reflexivity.
  assert (Hf : 4 <= 4) by lia.
  split; [exact Hg|]. split; [exact Hd|]. split; [exact Hps|].
  split; [exact Hf|].
  destruct (FindAllMatchings_without_threads true (-1) None Toy.root
              initShared 3 [(0, 0); (0, 1)]%Z 4 (Toy.round_robin 1) 0
              Hg Hd Hps Hf) as (c & Hrun & Hpool & Hstack & _).
  exists c. split; [exact Hrun|]. split; [exact Hpool|exact Hstack].
Defined.

Lemma frontier_drained_at_return_witness :
  (0 < 2 < 2 ^ 16)%Z /\
  activeWorkerCount (initShared : ToyShared) = 0%Z /\
  FindAllMatchings (ParallelMatchingEngine 2 true (-1) None) 10
                   (Toy.round_robin 2) 40 Toy.root initShared
  = Some (true, toy_final) /\
  globalStateStack (shared toy_final) = [] /\
  GetRemainingStates (shared toy_final) = 0%Z /\
  activeWorkerCount (shared toy_final) = 0%Z /\
  pool toy_final = [Running WExit; Running WExit].
Proof.
  assert (Hn : (0 < 2 < 2 ^ 16)%Z) by lia.
  assert (H0 : activeWorkerCount (initShared : ToyShared) = 0%Z)
    by reflexivity.
  pose proof (frontier_drained_at_return 2 true (-1) None Toy.root initShared
                10 (Toy.round_robin 2) 40 true toy_final Hn H0) as H.
  specialize (H toy_final_eq).
  destruct H as (_ & Hstack & Hrem & Hact & Hpool).
  split; [exact Hn|]. split; [exact H0|]. split; [exact toy_final_eq|].
  split; [exact Hstack|]. split; [exact Hrem|]. split; [exact Hact|].
  exact Hpool.
Defined.

Lemma counter_counts_holders_witness :
  (0 <= 2 < 2 ^ 16)%Z /\
  activeWorkerCount (initShared : ToyShared) = 0%Z /\
  ProcessState 10 (ParallelMatchingEngine 2 true (-1) None) Caller rootHandle
               Toy.root initShared = Some (false, toy_start) /\
  StartPool (ParallelMatchingEngine 2 true (-1) None) = Some toy_pool /\
  activeWorkerCount
    (shared (exec (ParallelMatchingEngine 2 true (-1) None) toy_sched 13
                  (mkConfig toy_start toy_pool)))
  = Z.of_nat (holders (pool (exec (ParallelMatchingEngine 2 true (-1) None)
                                  toy_sched 13
                                  (mkConfig toy_start toy_pool)))).
Proof.
  assert (Hn : (0 <= 2 < 2 ^ 16)%Z) by lia.
  assert (H0 : activeWorkerCount (initShared : ToyShared) = 0%Z)
    by reflexivity.
  pose proof (counter_counts_holders 2 true (-1) None Toy.root initShared 10
                false toy_start toy_pool toy_sched 13 Hn H0) as H.
  specialize (H toy_start_eq). specialize (H toy_pool_eq).
  destruct H as [Hcount _].
  split; [exact Hn|]. split; [exact H0|]. split; [exact toy_start_eq|].
  split; [exact toy_pool_eq|exact Hcount].
Defined.

Lemma single_owner_witness :
  (0 <= 2 < 2 ^ 16)%Z /\
  ProcessState 10 (ParallelMatchingEngine 2 true (-1) None) Caller rootHandle
               Toy.root initShared = Some (false, toy_start) /\
  StartPool (ParallelMatchingEngine 2 true (-1) None) = Some toy_pool /\
  toy_c13 = exec (ParallelMatchingEngine 2 true (-1) None) toy_sched 13
                 (mkConfig toy_start toy_pool) /\
  NoDup (globalStateStack (shared toy_c13)).*1 /\
  (forall i pc, pool toy_c13 !! i = Some (Running pc) ->
     handle_of pc <> Some rootHandle).
Proof.
  assert (Hn : (0 <= 2 < 2 ^ 16)%Z) by lia.
  pose proof (single_owner 2 true (-1) None Toy.root 10 false toy_start
                toy_pool toy_sched 13 toy_c13 Hn) as H.
  specialize (H toy_start_eq). specialize (H toy_pool_eq).
  specialize (H toy_c13_eq). destruct H as (Hnodup & _ & _ & Hroot).
  split; [exact Hn|]. split; [exact toy_start_eq|].
  split; [exact toy_pool_eq|]. split; [exact toy_c13_eq|].
  split; [exact Hnodup|exact Hroot].
Defined.

Lemma every_state_deleted_once_witness :
  (0 < 2 < 2 ^ 16)%Z /\
  ProcessState 10 (ParallelMatchingEngine 2 true (-1) None) Caller rootHandle
               Toy.root initShared = Some (false, toy_start) /\
  StartPool (ParallelMatchingEngine 2 true (-1) None) = Some toy_pool /\
  toy_c13 = exec (ParallelMatchingEngine 2 true (-1) None) toy_sched 13
                 (mkConfig toy_start toy_pool) /\
  NoDup (deleted (history (shared toy_c13))) /\
  (rootHandle ∉ deleted (history (shared toy_c13))).
Proof.
  assert (Hn : (0 < 2 < 2 ^ 16)%Z) by lia.
  pose proof (every_state_deleted_once 2 true (-1) None Toy.root 10 false
                toy_start toy_pool toy_sched 13 toy_c13 Hn) as H.
  specialize (H toy_start_eq). specialize (H toy_pool_eq).
  specialize (H toy_c13_eq). destruct H as (Hnodup & Hroot & _).
  split; [exact Hn|]. split; [exact toy_start_eq|].
  split; [exact toy_pool_eq|]. split; [exact toy_c13_eq|].
  split; [exact Hnodup|exact Hroot].
Defined.

Lemma log_holds_goal_states_witness :
  (0 <= 2 < 2 ^ 16)%Z /\
  ProcessState 10 (ParallelMatchingEngine 2 true (-1) None) Caller rootHandle
               Toy.root initShared = Some (false, toy_start) /\
  StartPool (ParallelMatchingEngine 2 true (-1) None) = Some toy_pool /\
  toy_c13 = exec (ParallelMatchingEngine 2 true (-1) None) toy_sched 13
                 (mkConfig toy_start toy_pool) /\
  Forall (fun sol => exists s, Descends Toy.root s /\ IsGoal s = true /\
                               sol = GetCoreSet s)
         (solutions (shared toy_c13)).
Proof.
  assert (Hn : (0 <= 2 < 2 ^ 16)%Z) by lia.
  pose proof (log_holds_goal_states 2 true (-1) None Toy.root 10 false
                toy_start toy_pool toy_sched 13 toy_c13 Hn) as H.
  specialize (H toy_start_eq). specialize (H toy_pool_eq).
  specialize (H toy_c13_eq). destruct H as [Hlog _].
  split; [exact Hn|]. split; [exact toy_start_eq|].
  split; [exact toy_pool_eq|]. split; [exact toy_c13_eq|exact Hlog].
Defined.

Lemma one_visit_and_one_entry_per_solution_witness :
  FindAllMatchings (ParallelMatchingEngine 2 true (-1) None) 10
                   (Toy.round_robin 2) 40 Toy.root initShared
  = Some (true, toy_final) /\
  Z.of_nat (length (solutions (shared toy_final)))
  = tally is_count (history (shared toy_final)).
Proof.
  pose proof (one_visit_and_one_entry_per_solution 2 true (-1) None Toy.root
                10 (Toy.round_robin 2) 40 true toy_final) as H.
  specialize (H toy_final_eq). destruct H as (_ & _ & Hlog).
  split; [exact toy_final_eq|exact Hlog].
Defined.

Lemma returns_only_on_finite_tree_witness :
  (0 < 2 < 2 ^ 16)%Z /\
  FindAllMatchings (ParallelMatchingEngine 2 true (-1) None) 10
                   (Toy.round_robin 2) 40 Toy.root initShared
  = Some (true, toy_final) /\
  exists f t,
    expand f Toy.root = Some t /\
    GetSolutionsCount (shared toy_final) = wrap_uint32 (goals t).
Proof.
  assert (Hn : (0 < 2 < 2 ^ 16)%Z) by lia.
  pose proof (returns_only_on_finite_tree 2 true (-1) None Toy.root 10
                (Toy.round_robin 2) 40 true toy_final Hn) as H.
  specialize (H toy_final_eq). destruct H as (f & t & Ht & Hcount & _).
  split; [exact Hn|]. split; [exact toy_final_eq|].
  exists f, t. split; [exact Ht|exact Hcount].
Defined.


Definition toy_tree : Tree :=
  Eval vm_compute in default TDead (expand 5 Toy.root).

Lemma toy_tree_eq : expand 5 Toy.root = Some toy_tree.
Proof. vm_compute. reflexivity. Qed.

(** The same engine asked a second time for the matchings of the root. *)
Definition toy_again : ToyConfig :=
  Eval vm_compute in
    match FindAllMatchings toy_cfg 10 (Toy.round_robin 2) 40 Toy.root
                           (shared toy_final) with
    | Some (_, c) => c
    | None => mkConfig initShared []
    end.

Lemma toy_again_eq :
  FindAllMatchings (ParallelMatchingEngine 2 true (-1) None) 10
                   (Toy.round_robin 2) 40 Toy.root (shared toy_final)
  = Some (true, toy_again).
Proof. vm_compute. reflexivity. Qed.

Lemma counters_accumulate_across_calls_witness :
  (0 < 2 < 2 ^ 16)%Z /\
  expand 5 Toy.root = Some toy_tree /\
  globalStateStack (shared toy_final) = [] /\
  activeWorkerCount (shared toy_final) = 0%Z /\
  (0 <= solCount (shared toy_final) < 2 ^ 32)%Z /\
  Z.of_nat (length (solutions (shared toy_final)))
  = solCount (shared toy_final) /\
  FindAllMatchings (ParallelMatchingEngine 2 true (-1) None) 10
                   (Toy.round_robin 2) 40 Toy.root (shared toy_final)
  = Some (true, toy_again) /\
  GetSolutionsCount (shared toy_again) = 4%Z.
Proof.
  assert (Hn : (0 < 2 < 2 ^ 16)%Z) by lia.
  assert (Hst : globalStateStack (shared toy_final) = []) by reflexivity.
  assert (Hact : activeWorkerCount (shared toy_final) = 0%Z) by reflexivity.
  assert (Hrange : (0 <= solCount (shared toy_final) < 2 ^ 32)%Z)
    by (vm_compute; split; [discriminate|reflexivity]).
  assert (Hlen : Z.of_nat (length (solutions (shared toy_final)))
                 = solCount (shared toy_final)) by reflexivity.
  pose proof (counters_accumulate_across_calls 2 true (-1) None Toy.root 5
                toy_tree (shared toy_final) 10 (Toy.round_robin 2) 40 true
                toy_again Hn toy_tree_eq Hst Hact Hrange (fun _ => Hlen)) as H.
  specialize (H toy_again_eq). destruct H as [Hcount _].
  split; [exact Hn|]. split; [exact toy_tree_eq|]. split; [exact Hst|].
  split; [exact Hact|]. split; [exact Hrange|]. split; [exact Hlen|].
  split; [exact toy_again_eq|exact Hcount].
Defined.
